(** * copynotice: the notice rewriter and the directory matcher

    A shallow embedding of [src/main.cpp] (namespace [program]): the members
    of [program::instance] are a record, the console and the file system are
    explicit state, and every method is a function from a state to an
    outcome (a value and a new state, an exception, or a blocked read). *)

From Stdlib Require Import ZArith Lia List Bool DecimalString Sorted.
From Stdlib.Strings Require Import String Ascii Byte.
From stdpp Require Import base option list strings gmap.

Local Open Scope string_scope.
Local Open Scope list_scope.
Local Open Scope Z_scope.

Abbreviation byte := Byte.byte.

(** ** Bytes and byte strings ([char8_t], [std::u8string]) *)

Module U8.

Definition CR : byte := x0d.
Definition LF : byte := x0a.
Definition NUL : byte := x00.

(** [char8_t newline[] = { u8'\r', u8'\n' }]. *)
Definition newline : list byte := [CR; LF].

(** A UTF-8 literal of the source, as its bytes. *)
Definition lit (s : string) : list byte := list_byte_of_string s.

(** [std::u8string::starts_with]. *)
Fixpoint starts_with (s p : list byte) : bool :=
  match p, s with
  | [], _ => true
  | _ :: _, [] => false
  | b :: p', c :: s' => Byte.eqb c b && starts_with s' p'
  end.

(** The characters of a null-terminated array: what
    [std::char_traits<char8_t>::length] measures and what a conversion of
    [char8_t const*] to a string view sees. *)
Fixpoint c_str (buf : list byte) : list byte :=
  match buf with
  | [] => []
  | b :: buf' => if Byte.eqb b NUL then [] else b :: c_str buf'
  end.

(** [std::u8string::find(u8"\r\n"sv, pos)]: the lowest index [i >= pos] with
    a CR at [i] and an LF at [i+1]; [None] is [npos].  [scan s i] searches
    [s], whose head has index [i]. *)
Fixpoint scan (s : list byte) (i : Z) : option Z :=
  match s with
  | [] => None
  | b :: s' =>
      if Byte.eqb b CR && starts_with s' [LF] then Some i else scan s' (i + 1)
  end.

Definition find (s : list byte) (pos : Z) : option Z :=
  if Z.of_nat (length s) <? pos then None
  else scan (drop (Z.to_nat pos) s) pos.

(** [count] bytes of [s] from index [pos]: the range a call
    [fwrite(h, count, &s[pos])] reads, as far as [s] goes (a read past the
    end of [s] is undefined in the source). *)
Definition range (s : list byte) (pos count : Z) : list byte :=
  take (Z.to_nat count) (drop (Z.to_nat pos) s).

End U8.

(** [static_cast<std::uint32_t>] and arithmetic on [std::uint32_t]. *)
Definition u32 (z : Z) : Z := z mod 2 ^ 32.

(** ** Wide strings: console text and paths ([std::wstring]) *)

Definition ESC : string := String "027"%char EmptyString.
Definition DQ : string := String "034"%char EmptyString.

(** The escape sequence [\x1b[<code>m]. *)
Definition sgr (code : string) : string := ESC +:+ "[" +:+ code +:+ "m".

Definition empty (s : string) : bool :=
  match s with EmptyString => true | String _ _ => false end.

(** ** Program state *)

(** [program::console]: what was written to standard output, what standard
    input still holds (one element per call of [console::read()], already
    without its line end), and the last-read string. *)
Record console := {
  written : list string;
  pending : list string;
  mLastRead : string
}.

(** [program::directory_argument]. *)
Record directory_argument := {
  src : string;
  dst : string
}.

(** The data members of [program::instance]. *)
Record instance := {
  mCons : console;
  mRecurse : bool;
  mVerbose : bool;
  mReplace : bool;
  mCommentPrefix : list byte;
  mDirectories : list directory_argument;
  mExtensions : list string;
  mNotice : list byte;
  mAlwaysOverwriteFiles : bool
}.

Definition set_mCons (c : console) (I : instance) : instance :=
  {| mCons := c; mRecurse := mRecurse I; mVerbose := mVerbose I;
     mReplace := mReplace I; mCommentPrefix := mCommentPrefix I;
     mDirectories := mDirectories I; mExtensions := mExtensions I;
     mNotice := mNotice I;
     mAlwaysOverwriteFiles := mAlwaysOverwriteFiles I |}.

Definition set_mDirectories (d : list directory_argument) (I : instance)
  : instance :=
  {| mCons := mCons I; mRecurse := mRecurse I; mVerbose := mVerbose I;
     mReplace := mReplace I; mCommentPrefix := mCommentPrefix I;
     mDirectories := d; mExtensions := mExtensions I;
     mNotice := mNotice I;
     mAlwaysOverwriteFiles := mAlwaysOverwriteFiles I |}.

Definition set_mAlwaysOverwriteFiles (b : bool) (I : instance) : instance :=
  {| mCons := mCons I; mRecurse := mRecurse I; mVerbose := mVerbose I;
     mReplace := mReplace I; mCommentPrefix := mCommentPrefix I;
     mDirectories := mDirectories I; mExtensions := mExtensions I;
     mNotice := mNotice I;
     mAlwaysOverwriteFiles := b |}.

(** One entry of a directory enumeration. *)
Record WIN32_FIND_DATAW := {
  dwFileAttributes : Z;
  cFileName : string
}.

Definition FILE_ATTRIBUTE_HIDDEN : Z := 0x2.
Definition FILE_ATTRIBUTE_DIRECTORY : Z := 0x10.

Definition ERROR_FILE_NOT_FOUND : Z := 2.
Definition ERROR_NO_MORE_FILES : Z := 18.
Definition ERROR_SHARING_VIOLATION : Z := 32.

(** What [FindFirstFileW] and the calls of [FindNextFileW] after it deliver
    for one search string: the entries in enumeration order, and the value
    of [GetLastError()] once the enumeration has stopped.  [FindFirstFileW]
    fails exactly when there is no entry. *)
Record enumeration := {
  entries : list WIN32_FIND_DATAW;
  last_error : Z
}.

(** The program and the part of the machine it acts on: the regular files
    by path, with their contents. *)
Record state := {
  self : instance;
  files : gmap string (list byte)
}.

Definition set_self (I : instance) (st : state) : state :=
  {| self := I; files := files st |}.

Definition set_files (fs : gmap string (list byte)) (st : state) : state :=
  {| self := self st; files := fs |}.

(** ** Outcomes *)

(** A call returns a value in a new state, leaves by an exception (a Win32
    error code and, with it, the end of the run), waits for console input
    that never comes, or - in this model only - uses up the fuel of a
    loop. *)
Inductive outcome (A : Type) : Type :=
| Ok (a : A) (st : state)
| Throw (code : Z)
| Blocked
| OutOfFuel.

Arguments Ok {A} a st.
Arguments Throw {A} code.
Arguments Blocked {A}.
Arguments OutOfFuel {A}.

Definition M (A : Type) : Type := state -> outcome A.

Definition ret {A} (a : A) : M A := fun st => Ok a st.

Definition bind {A B} (m : M A) (k : A -> M B) : M B :=
  fun st =>
    match m st with
    | Ok a st' => k a st'
    | Throw code => Throw code
    | Blocked => Blocked
    | OutOfFuel => OutOfFuel
    end.

Declare Scope prog_scope.
Delimit Scope prog_scope with prog.
Notation "x <- m ;; k" := (bind m (fun x => k))
  (at level 100, m at next level, right associativity) : prog_scope.
Notation "m ;; k" := (bind m (fun _ => k))
  (at level 100, right associativity) : prog_scope.

Definition throw {A} (code : Z) : M A := fun _ => Throw code.
Definition get {A} (f : state -> A) : M A := fun st => Ok (f st) st.
Definition modify (f : state -> state) : M unit := fun st => Ok tt (f st).

(** Lifts a loop on the files, which may run out of fuel. *)
Definition on_files (f : gmap string (list byte) ->
                         option (gmap string (list byte))) : M unit :=
  fun st =>
    match f (files st) with
    | Some fs => Ok tt (set_files fs st)
    | None => OutOfFuel
    end.

Definition member {A} (f : instance -> A) : M A := get (fun st => f (self st)).

(** Lifts the result of a loop that runs on fuel. *)
Definition fueled {A} (o : option A) : M A :=
  fun st => match o with Some a => Ok a st | None => OutOfFuel end.

(** ** The console *)

Definition NL : string := String "010"%char EmptyString.

(** [console::write]. *)
Definition console_write (Sv : string) (c : console) : console :=
  {| written := written c ++ [Sv]; pending := pending c;
     mLastRead := mLastRead c |}.

(** A chain [mCons.write(a).write(b)...] of the instance. *)
Definition write (chain : list string) : M unit :=
  modify (fun st =>
    set_self (set_mCons (fold_left (fun c Sv => console_write Sv c) chain
                                   (mCons (self st))) (self st)) st).

(** [ask_yesno], on the input that is left: each round is one
    [Console.read()], which writes the input mark and makes the next line of
    input the last-read string.  With no input left the read never returns
    ([None]). *)
Fixpoint ask_yesno_on (input : list string) (Console : console)
  : option (bool * console) :=
  match input with
  | [] => None
  | line :: input' =>
      let Console := {| written := written Console ++ [sgr "0" +:+ "> "];
                        pending := input'; mLastRead := line |} in
      if String.eqb (mLastRead Console) "y"
         || String.eqb (mLastRead Console) "yes" then Some (true, Console)
      else if String.eqb (mLastRead Console) "n"
              || String.eqb (mLastRead Console) "no" then Some (false, Console)
      else ask_yesno_on input'
             (console_write ("Invalid input. Enter yes or no." +:+ NL) Console)
  end.

Definition ask_yesno (Console : console) : option (bool * console) :=
  ask_yesno_on (pending Console) Console.

(** [ask_yesno(mCons)]. *)
Definition ask_yesno_mCons : M bool :=
  fun st =>
    match ask_yesno (mCons (self st)) with
    | Some (answer, c) => Ok answer (set_self (set_mCons c (self st)) st)
    | None => Blocked
    end.

(** ** Files ([wdul/fs.hpp])

    A file open for reading is the bytes from its read position to its end;
    a file open for writing is its path. *)

(** Modelled from the spec: [wdul::fexists], which is declared in
    [wdul/fs.hpp] and is not part of the sources: whether a file already
    exists at the path. *)
Definition fexists (path : string) (fs : gmap string (list byte)) : bool :=
  match fs !! path with Some _ => true | None => false end.

(** Modelled from the spec: [wdul::fopen] with [open_existing] and read
    access, not part of the sources: the file's bytes, or an exception when
    it cannot be opened. *)
Definition fopen_existing (path : string) : M (list byte) :=
  fun st =>
    match files st !! path with
    | Some content => Ok content st
    | None => Throw ERROR_FILE_NOT_FOUND
    end.

(** Modelled from the spec: [wdul::fopen] with [create_always] and write
    access, not part of the sources: creates the file or truncates it.
    [held] is the path the caller holds open for reading with
    [file_share_mode::read]: that share mode admits no writer, so opening
    the same path for writing is a sharing violation. *)
Definition fopen_create_always (path held : string) : M string :=
  fun st =>
    if String.eqb path held then Throw ERROR_SHARING_VIOLATION
    else Ok path (set_files (<[path := []]> (files st)) st).

(** Modelled from the spec: [wdul::fwrite], not part of the sources: appends
    the bytes to the file. *)
Definition fwrite (h : string) (bytes : list byte)
    (fs : gmap string (list byte)) : gmap string (list byte) :=
  <[h := default [] (fs !! h) ++ bytes]> fs.

(** Modelled from the spec: [wdul::fread], not part of the sources: up to
    [size] bytes from the read position, which moves past them. *)
Definition fread (h : list byte) (size : Z) : list byte * list byte :=
  (take (Z.to_nat size) h, drop (Z.to_nat size) h).

(** Modelled from the spec: the line that [wdul::freadline], which is not
    part of the sources, reads: the first logical line at the read position
    and what follows its terminator.  A line ends at a CRLF, at a bare LF or
    at the end of the file; the terminator is not part of the line. *)
Fixpoint read_line (h : list byte) : list byte * list byte :=
  match h with
  | [] => ([], [])
  | b :: h' =>
      if Byte.eqb b U8.LF then ([], h')
      else if Byte.eqb b U8.CR && U8.starts_with h' [U8.LF] then ([], drop 1 h')
      else let '(line, rest) := read_line h' in (b :: line, rest)
  end.

(** Modelled from the spec: [wdul::freadline], not part of the sources: reads
    the first logical line (delimited by a line terminator) into the line
    buffer; [false], with the buffer left empty, when the read position is
    at the end of the file (no line).  The result is the return value, the
    line buffer and the read handle after the call. *)
Definition freadline (h : list byte) : bool * list byte * list byte :=
  match h with
  | [] => (false, [], [])
  | _ :: _ => let '(line, rest) := read_line h in (true, line, rest)
  end.

(** ** [program::instance::create_file] *)

(** [sizeof(readBuffer)]. *)
Definition readBuffer_size : Z := 64.

(** The loop of lines 685-691: with [mReplace] set, reads past the comment
    and any consecutive comments.  The result is [firstCodeLine] and the
    read handle when the loop is left. *)
Fixpoint skip_comments (fuel : nat) (mCommentPrefix : list byte)
    (srcFile : list byte) : option (list byte * list byte) :=
  match fuel with
  | O => None
  | S fuel' =>
      let '(more, firstCodeLine, srcFile') := freadline srcFile in
      if more then
        if negb (U8.starts_with firstCodeLine (U8.c_str mCommentPrefix))
        then Some (firstCodeLine, srcFile')
        else skip_comments fuel' mCommentPrefix srcFile'
      else Some (firstCodeLine, srcFile')
  end.

(** The do-while loop of lines 699-720, which writes the notice. *)
Fixpoint write_notice (fuel : nat) (dstFile : string)
    (mCommentPrefix mNotice : list byte) (noticeOffset : Z)
    (fs : gmap string (list byte)) : option (gmap string (list byte)) :=
  match fuel with
  | O => None
  | S fuel' =>
      let findResult := U8.find mNotice noticeOffset in
      let commentEndPos :=
        match findResult with
        | Some pos => u32 pos
        | None => u32 (Z.of_nat (length mNotice))
        end in
      let fs := fwrite dstFile (U8.c_str mCommentPrefix) fs in
      let fs := fwrite dstFile
                  (U8.range mNotice noticeOffset
                            (u32 (commentEndPos - noticeOffset))) fs in
      let fs := fwrite dstFile U8.newline fs in
      let noticeOffset := u32 (commentEndPos + 2) in
      if commentEndPos =? u32 (Z.of_nat (length mNotice)) then Some fs
      else write_notice fuel' dstFile mCommentPrefix mNotice noticeOffset fs
  end.

(** The loop of lines 728-731, which copies the rest of the source file. *)
Fixpoint copy_rest (fuel : nat) (dstFile : string) (srcFile : list byte)
    (fs : gmap string (list byte)) : option (gmap string (list byte)) :=
  match fuel with
  | O => None
  | S fuel' =>
      let '(readBuffer, srcFile') := fread srcFile readBuffer_size in
      let readSize := u32 (Z.of_nat (length readBuffer)) in
      if readSize =? 0 then Some fs
      else copy_rest fuel' dstFile srcFile'
             (fwrite dstFile (U8.range readBuffer 0 readSize) fs)
  end.

Local Open Scope prog_scope.

(** Lines 664-734: from the creation of the destination file on. *)
Definition create_file_write (srcPath dstPath Fname : string)
    (srcFile : list byte) : M bool :=
  verbose <- member mVerbose ;;
  (if verbose then
     write [" " +:+ sgr "90" +:+ "Creating " +:+ sgr "33" +:+ DQ; dstPath;
            DQ +:+ sgr "90" +:+ "... "]
   else ret tt) ;;
  dstFile <- fopen_create_always dstPath srcPath ;;
  (if verbose then write [sgr "90" +:+ "Done." +:+ sgr "0" +:+ NL]
   else ret tt) ;;
  let '(more, firstCodeLine, srcFile) := freadline srcFile in
  if negb more then
    write [sgr "1;31" +:+ "Source file "; Fname;
           " is empty." +:+ sgr "0" +:+ NL] ;;
    ret true
  else
    mCommentPrefix <- member mCommentPrefix ;;
    mReplace <- member mReplace ;;
    mNotice <- member mNotice ;;
    skipped <-
      (if U8.starts_with firstCodeLine (U8.c_str mCommentPrefix) && mReplace
       then fueled (skip_comments (S (length srcFile)) mCommentPrefix srcFile)
       else ret (firstCodeLine, srcFile)) ;;
    let '(firstCodeLine, srcFile) := skipped in
    on_files (write_notice (S (length mNotice)) dstFile mCommentPrefix
                           mNotice 0) ;;
    modify (fun st =>
      set_files
        (fwrite dstFile U8.newline
           (fwrite dstFile
              (U8.range firstCodeLine 0 (u32 (Z.of_nat (length firstCodeLine))))
              (files st))) st) ;;
    on_files (copy_rest (S (length srcFile)) dstFile srcFile) ;;
    ret true.

(** Creates the output file, writes the notice to it, and copies the rest of
    the source file to it. *)
Definition create_file (Directories : directory_argument) (Fname : string)
  : M bool :=
  let srcPath := src Directories in
  let srcPath := if negb (empty srcPath) then srcPath +:+ "\" else srcPath in
  let srcPath := srcPath +:+ Fname in
  verbose <- member mVerbose ;;
  (if verbose then
     write [" " +:+ sgr "90" +:+ "Opening  " +:+ sgr "33" +:+ DQ; srcPath;
            DQ +:+ sgr "90" +:+ "... "]
   else ret tt) ;;
  srcFile <- fopen_existing srcPath ;;
  (if verbose then write [sgr "90" +:+ "Done." +:+ sgr "0" +:+ NL]
   else ret tt) ;;
  let dstPath := dst Directories in
  let dstPath := dstPath +:+ "\" in
  let dstPath := dstPath +:+ Fname in
  let continue := create_file_write srcPath dstPath Fname srcFile in
  always <- member mAlwaysOverwriteFiles ;;
  if negb always then
    present <- get (fun st => fexists dstPath (files st)) ;;
    if present then
      write [sgr "94" +:+ "File " +:+ sgr "93" +:+ DQ; dstPath;
             DQ +:+ sgr "94" +:+ " already exists." +:+ sgr "0" +:+ NL] ;;
      write ["Do you want to overwrite this file and future files? (y/n)"
             +:+ NL] ;;
      answer <- ask_yesno_mCons ;;
      if answer then
        modify (fun st =>
          set_self (set_mAlwaysOverwriteFiles true (self st)) st) ;;
        continue
      else ret false
    else continue
  else continue.

(** ** The constructors *)

(** [console::console()], with the input the user is going to type. *)
Definition console_new (input : list string) : console :=
  {| written := []; pending := input; mLastRead := "" |}.

(** [char8_t mCommentPrefix[16] = u8"// "]. *)
Definition default_comment_prefix : list byte :=
  U8.lit "// " ++ replicate 13 U8.NUL.

(** [instance::instance()], with the default member initialisers. *)
Definition instance_new (input : list string) : instance :=
  {| mCons :=
       console_write
         (sgr "1;4;32" +:+ "copynotice (Source Code Notice Writer) v1.0.1"
          +:+ sgr "0;90" +:+ NL +:+ "A tool by Will Daisey" +:+ sgr "0" +:+ NL)
         (console_new input);
     mRecurse := false;
     mVerbose := false;
     mReplace := false;
     mCommentPrefix := default_comment_prefix;
     mDirectories := [];
     mExtensions := [];
     mNotice := [];
     mAlwaysOverwriteFiles := false |}.

(** [std::to_wstring] of a [std::uint32_t]. *)
Definition to_wstring (n : Z) : string :=
  DecimalString.NilZero.string_of_uint (N.to_uint (Z.to_N n)).

(** [attributes & flag], as a condition. *)
Definition has_attribute (attributes flag : Z) : bool :=
  negb (Z.land attributes flag =? 0).

(** [cFileName[i]]: the character, or the terminating null at the end. *)
Definition wchar_at (s : string) (i : nat) : ascii :=
  match String.get i s with Some c => c | None => Ascii.zero end.

(** The condition of line 533: the entry is the current or the parent
    directory. *)
Definition is_dot_entry (cFileName : string) : bool :=
  Ascii.eqb (wchar_at cFileName 0) "."
  && (Ascii.eqb (wchar_at cFileName 1) Ascii.zero
      || (Ascii.eqb (wchar_at cFileName 1) "."
          && Ascii.eqb (wchar_at cFileName 2) Ascii.zero)).

Section Enumeration.

(** The host's directory enumeration: what [FindFirstFileW] and
    [FindNextFileW] deliver for a search string, given the files there are
    when the enumeration starts. *)
Variable FindFiles : gmap string (list byte) -> string -> enumeration.

(** ** [program::instance::iterate] *)

(** The do-while loop of lines 601-615 over the entries found. *)
Fixpoint iterate_entries (Directories : directory_argument)
    (found : list WIN32_FIND_DATAW) (filesCreated : Z) : M Z :=
  match found with
  | [] => ret filesCreated
  | findData :: found' =>
      filesCreated <-
        (if has_attribute (dwFileAttributes findData) FILE_ATTRIBUTE_HIDDEN
         then ret filesCreated
         else if has_attribute (dwFileAttributes findData)
                               FILE_ATTRIBUTE_DIRECTORY
         then ret filesCreated
         else
           created <- create_file Directories (cFileName findData) ;;
           if (created : bool) then ret (u32 (filesCreated + 1))
           else ret filesCreated) ;;
      iterate_entries Directories found' filesCreated
  end.

(** Iterates through the [Directories.src] directory, targeting files with
    the given extension, then calls [create_file] for each target file.
    Returns the number of files created. *)
Definition iterate (Directories : directory_argument) (Extension : string)
  : M Z :=
  let targetFilename := src Directories in
  let targetFilename :=
    if negb (empty (src Directories)) then targetFilename +:+ "\"
    else targetFilename in
  let targetFilename := targetFilename +:+ "*." in
  let targetFilename := targetFilename +:+ Extension in
  verbose <- member mVerbose ;;
  (if verbose then
     write [NL +:+ sgr "32" +:+ "Executing for target: " +:+ sgr "33" +:+ DQ;
            targetFilename; DQ +:+ NL]
   else ret tt) ;;
  found <- get (fun st => FindFiles (files st) targetFilename) ;;
  match entries found with
  | [] =>
      let error := last_error found in
      if error =? ERROR_FILE_NOT_FOUND then
        write [sgr "32" +:+ "Could not find a target file for target: "
               +:+ sgr "33" +:+ DQ; targetFilename; DQ +:+ NL] ;;
        ret 0
      else throw error
  | _ :: _ =>
      filesCreated <- iterate_entries Directories (entries found) 0 ;;
      let errorCode := last_error found in
      if errorCode =? ERROR_NO_MORE_FILES then
        write [sgr "32;1" +:+ "Finished target " +:+ DQ; targetFilename;
               DQ +:+ ": Created "; to_wstring filesCreated;
               " file(s)" +:+ sgr "0" +:+ NL] ;;
        ret filesCreated
      else throw errorCode
  end.

(** ** [program::instance::execute] *)

Fixpoint execute_extensions (directories : directory_argument)
    (extensions : list string) (filesCreated : Z) : M Z :=
  match extensions with
  | [] => ret filesCreated
  | extension :: extensions' =>
      n <- iterate directories extension ;;
      execute_extensions directories extensions' (u32 (filesCreated + n))
  end.

Fixpoint execute_directories (all : list directory_argument)
    (extensions : list string) (filesCreated : Z) : M Z :=
  match all with
  | [] => ret filesCreated
  | directories :: all' =>
      filesCreated <- execute_extensions directories extensions filesCreated ;;
      execute_directories all' extensions filesCreated
  end.

(** Executes the program; the result is [filesCreated], which the last
    message reports. *)
Definition execute : M Z :=
  write [sgr "0"] ;;
  all <- member mDirectories ;;
  extensions <- member mExtensions ;;
  filesCreated <- execute_directories all extensions 0 ;;
  write [sgr "32;1" +:+ "Done. Created "; to_wstring filesCreated;
         " file(s)" +:+ sgr "0" +:+ NL] ;;
  ret filesCreated.

(** ** [program::instance::target_directories] *)

(** The do-while loop of lines 521-547 over the entries found; [recur] is
    the recursive call of line 545. *)
Fixpoint target_entries
    (recur : directory_argument -> list directory_argument ->
             M (list directory_argument))
    (Directories : directory_argument) (found : list WIN32_FIND_DATAW)
    (NewDirectories : list directory_argument)
  : M (list directory_argument) :=
  match found with
  | [] => ret NewDirectories
  | findData :: found' =>
      NewDirectories <-
        (if negb (has_attribute (dwFileAttributes findData)
                                FILE_ATTRIBUTE_DIRECTORY)
         then ret NewDirectories
         else if has_attribute (dwFileAttributes findData)
                               FILE_ATTRIBUTE_HIDDEN
         then ret NewDirectories
         else if is_dot_entry (cFileName findData)
         then ret NewDirectories
         else
           let newDirectory := Directories in
           let newDirectory :=
             if negb (empty (src newDirectory))
             then {| src := src newDirectory +:+ "\";
                     dst := dst newDirectory |}
             else newDirectory in
           let newDirectory :=
             {| src := src newDirectory +:+ cFileName findData;
                dst := dst newDirectory |} in
           let newDirectory :=
             {| src := src newDirectory;
                dst := dst newDirectory +:+ "\" |} in
           let newDirectory :=
             {| src := src newDirectory;
                dst := dst newDirectory +:+ cFileName findData |} in
           recur newDirectory (NewDirectories ++ [newDirectory])) ;;
      target_entries recur Directories found' NewDirectories
  end.

(** Adds the subdirectories of [Directories.src], with theirs, to
    [NewDirectories].  [depth] bounds the nesting of the recursion, which
    the source leaves to the depth of the directory tree. *)
Fixpoint target_directories (depth : nat) (Directories : directory_argument)
    (NewDirectories : list directory_argument)
  : M (list directory_argument) :=
  write [sgr "90" +:+ "Target directory: " +:+ sgr "33" +:+ DQ;
         src Directories;
         DQ +:+ sgr "90" +:+ ". Output directory: " +:+ sgr "33" +:+ DQ;
         dst Directories; DQ +:+ sgr "0" +:+ NL] ;;
  recurse <- member mRecurse ;;
  if negb recurse then ret NewDirectories
  else
    match depth with
    | O => fun _ => OutOfFuel
    | S depth' =>
        let searchString :=
          src Directories +:+ (if empty (src Directories) then "*" else "\*") in
        found <- get (fun st => FindFiles (files st) searchString) ;;
        match entries found with
        | [] => throw (last_error found)
        | _ :: _ =>
            NewDirectories <-
              target_entries (target_directories depth') Directories
                             (entries found) NewDirectories ;;
            let errorCode := last_error found in
            if negb (errorCode =? ERROR_NO_MORE_FILES) then throw errorCode
            else ret NewDirectories
        end
    end.

(** ** [program::instance::init], lines 460-478: the directories to target *)

(** The loop of lines 461-464. *)
Fixpoint init_target (depth : nat) (all : list directory_argument)
    (newDirectories : list directory_argument)
  : M (list directory_argument) :=
  match all with
  | [] => ret newDirectories
  | directories :: all' =>
      newDirectories <- target_directories depth directories newDirectories ;;
      init_target depth all' newDirectories
  end.

(** The loop of lines 469-476: whether a targeted directory has the source
    of [newDirectoryArg]; every one that has is reported. *)
Fixpoint init_already_targeted (newDirectoryArg : directory_argument)
    (all : list directory_argument) (alreadyTargeted : bool) : M bool :=
  match all with
  | [] => ret alreadyTargeted
  | directories :: all' =>
      alreadyTargeted <-
        (if String.eqb (src directories) (src newDirectoryArg) then
           write [sgr "90" +:+ "Directory " +:+ sgr "33" +:+ DQ;
                  src newDirectoryArg;
                  DQ +:+ sgr "90" +:+ " is already targeted." +:+ NL] ;;
           ret true
         else ret alreadyTargeted) ;;
      init_already_targeted newDirectoryArg all' alreadyTargeted
  end.

(** The loop of lines 466-478. *)
Fixpoint init_merge (newDirectories : list directory_argument) : M unit :=
  match newDirectories with
  | [] => ret tt
  | newDirectoryArg :: newDirectories' =>
      all <- member mDirectories ;;
      alreadyTargeted <- init_already_targeted newDirectoryArg all false ;;
      (if negb alreadyTargeted then
         modify (fun st =>
           set_self (set_mDirectories (mDirectories (self st)
                                       ++ [newDirectoryArg]) (self st)) st)
       else ret tt) ;;
      init_merge newDirectories'
  end.

(** The expansion of the directories at the end of [init], once the
    arguments are read. *)
Definition init_directories (depth : nat) : M unit :=
  all <- member mDirectories ;;
  newDirectories <- init_target depth all [] ;;
  init_merge newDirectories.

End Enumeration.

(** ** The notions of the specification

    These follow the words of the specification, not the code: the notice
    as CRLF-separated segments, the notice block, the lines of a source
    file, and the source without its leading comment lines. *)

Module Spec.

Definition push (b : byte) (segments : list (list byte)) : list (list byte) :=
  match segments with
  | [] => [[b]]
  | segment :: segments' => (b :: segment) :: segments'
  end.

(** The segments of a text between its CRLF separators: one more than
    there are separators, the last one empty when the text ends with a
    CRLF. *)
Fixpoint split_crlf (text : list byte) : list (list byte) :=
  match text with
  | [] => [[]]
  | b :: text' =>
      match text' with
      | c :: text'' =>
          if Byte.eqb b U8.CR && Byte.eqb c U8.LF
          then [] :: split_crlf text''
          else push b (split_crlf text')
      | [] => push b (split_crlf text')
      end
  end.

(** The segments joined again, with a CRLF between two of them. *)
Fixpoint join_crlf (segments : list (list byte)) : list byte :=
  match segments with
  | [] => []
  | [segment] => segment
  | segment :: segments' => segment ++ U8.newline ++ join_crlf segments'
  end.

(** Whether there is a CRLF in a text. *)
Fixpoint has_crlf (text : list byte) : bool :=
  match text with
  | [] => false
  | a :: text' =>
      match text' with
      | b :: _ => (Byte.eqb a U8.CR && Byte.eqb b U8.LF) || has_crlf text'
      | [] => false
      end
  end.

(** A segment has no CRLF in it. *)
Definition crlf_free (segment : list byte) : Prop :=
  has_crlf segment = false.

(** One comment line of the notice block. *)
Definition comment_line (prefix segment : list byte) : list byte :=
  prefix ++ segment ++ U8.newline.

(** The notice block: for each segment of the notice, in order, the prefix,
    the segment and a CRLF. *)
Definition notice_block (prefix notice : list byte) : list byte :=
  concat (map (comment_line prefix) (split_crlf notice)).

Definition push_line (b : byte) (ls : list (list byte * list byte))
  : list (list byte * list byte) :=
  match ls with
  | [] => [([b], [])]
  | (line, terminator) :: ls' => (b :: line, terminator) :: ls'
  end.

(** The lines of a file, each with its terminator: a CRLF, a bare LF, or
    nothing for a last line that the end of the file ends. *)
Fixpoint lines (content : list byte) : list (list byte * list byte) :=
  match content with
  | [] => []
  | b :: content' =>
      if Byte.eqb b U8.LF then ([], [U8.LF]) :: lines content'
      else
        match content' with
        | c :: content'' =>
            if Byte.eqb b U8.CR && Byte.eqb c U8.LF
            then ([], U8.newline) :: lines content''
            else push_line b (lines content')
        | [] => push_line b (lines content')
        end
  end.

(** A line terminator: a CRLF, a bare LF, or nothing at the end of the
    file. *)
Definition terminator (t : list byte) : Prop :=
  t = U8.newline \/ t = [U8.LF] \/ t = [].

(** The bytes of some lines with their terminators. *)
Definition unlines (ls : list (list byte * list byte)) : list byte :=
  concat (map (fun l => fst l ++ snd l) ls).

(** The lines without the leading ones that start with the prefix. *)
Fixpoint drop_comments (prefix : list byte)
    (ls : list (list byte * list byte)) : list (list byte * list byte) :=
  match ls with
  | [] => []
  | l :: ls' =>
      if U8.starts_with (fst l) prefix then drop_comments prefix ls' else ls
  end.

(** The source content with all leading prefix-prefixed lines stripped. *)
Definition strip_comments (prefix content : list byte) : list byte :=
  unlines (drop_comments prefix (lines content)).

End Spec.

(** ** Notions for the statements *)

(** *** Paths *)

(** The paths of lines 628-634 and 642-644. *)
Definition srcPath (Directories : directory_argument) (Fname : string)
  : string :=
  (if negb (empty (src Directories)) then src Directories +:+ "\"
   else src Directories) +:+ Fname.

Definition dstPath (Directories : directory_argument) (Fname : string)
  : string :=
  (dst Directories +:+ "\") +:+ Fname.

(** The search string of lines 575-580. *)
Definition targetFilename (Directories : directory_argument)
    (Extension : string) : string :=
  (((if negb (empty (src Directories)) then src Directories +:+ "\"
     else src Directories) +:+ "*.") +:+ Extension).

(** The search string of line 512. *)
Definition searchString (Directories : directory_argument) : string :=
  src Directories +:+ (if empty (src Directories) then "*" else "\*").

(** The pair for a child of a pair: the name of the child, after a path
    separator, on the source and on the destination. *)
Definition child (Directories : directory_argument) (name : string)
  : directory_argument :=
  {| src := (if negb (empty (src Directories)) then src Directories +:+ "\"
             else src Directories) +:+ name;
     dst := (dst Directories +:+ "\") +:+ name |}.

(** *** What [create_file] keeps of the source *)

(** The lines from the first code line on, as the reads of lines 673-693
    leave them: all lines, or with [mReplace] and a first line that is a
    comment, the lines after the leading comment lines. *)
Definition kept_lines (prefix : list byte) (replace : bool)
    (content : list byte) : list (list byte * list byte) :=
  match Spec.lines content with
  | [] => []
  | l :: ls =>
      if U8.starts_with (fst l) prefix && replace
      then Spec.drop_comments prefix ls
      else l :: ls
  end.

(** The first code line and the bytes after its terminator (an empty line
    and no bytes when no line is kept). *)
Definition retained (prefix : list byte) (replace : bool)
    (content : list byte) : list byte * list byte :=
  match kept_lines prefix replace content with
  | [] => ([], [])
  | l :: ls => (fst l, Spec.unlines ls)
  end.

(** *** The console and the user *)

(** The console after more output. *)
Definition logged (out : list string) (c : console) : console :=
  {| written := written c ++ out; pending := pending c;
     mLastRead := mLastRead c |}.

(** The state after more console output. *)
Definition st_logged (out : list string) (st : state) : state :=
  set_self (set_mCons (logged out (mCons (self st))) (self st)) st.

(** The answer the user gives to a yes-or-no question: the first of the
    lines typed that is one of [y], [yes], [n], [no]. *)
Fixpoint answer (input : list string) : option bool :=
  match input with
  | [] => None
  | line :: input' =>
      if String.eqb line "y" || String.eqb line "yes" then Some true
      else if String.eqb line "n" || String.eqb line "no" then Some false
      else answer input'
  end.

(** The rewrite is not held back: the policy is to always overwrite, or
    there is no file at the destination, or the user is going to answer the
    question with yes. *)
Definition overwrite_allowed (Directories : directory_argument)
    (Fname : string) (st : state) : Prop :=
  mAlwaysOverwriteFiles (self st) = true
  \/ files st !! dstPath Directories Fname = None
  \/ answer (pending (mCons (self st))) = Some true.

(** A computation keeps the policy to always overwrite. *)
Definition sticky {A} (m : M A) : Prop :=
  forall st a st',
    m st = Ok a st' ->
    mAlwaysOverwriteFiles (self st) = true ->
    mAlwaysOverwriteFiles (self st') = true.

(** *** Directory entries *)

(** A string that a null-terminated array can hold: no character of it is
    the null character. *)
Fixpoint c_string (s : string) : bool :=
  match s with
  | EmptyString => true
  | String c s' => negb (Ascii.eqb c Ascii.zero) && c_string s'
  end.

(** An entry that [iterate] hands to [create_file]: neither hidden nor a
    directory. *)
Definition plain_file (findData : WIN32_FIND_DATAW) : Prop :=
  has_attribute (dwFileAttributes findData) FILE_ATTRIBUTE_HIDDEN = false
  /\ has_attribute (dwFileAttributes findData) FILE_ATTRIBUTE_DIRECTORY
     = false.

(** An entry that is a directory, is not hidden, and is neither [.] nor
    [..]. *)
Definition subdirectory (findData : WIN32_FIND_DATAW) : bool :=
  has_attribute (dwFileAttributes findData) FILE_ATTRIBUTE_DIRECTORY
  && negb (has_attribute (dwFileAttributes findData) FILE_ATTRIBUTE_HIDDEN)
  && negb (String.eqb (cFileName findData) "."
           || String.eqb (cFileName findData) "..").

(** The enumeration of a directory succeeds and has no subdirectory in
    it. *)
Definition leaf (FindFiles : gmap string (list byte) -> string -> enumeration)
    (fs : gmap string (list byte)) (Directories : directory_argument)
  : Prop :=
  exists findData found,
    FindFiles fs (searchString Directories)
    = {| entries := findData :: found; last_error := ERROR_NO_MORE_FILES |}
    /\ Forall (fun e => c_string (cFileName e) = true) (findData :: found)
    /\ Forall (fun e => subdirectory e = false) (findData :: found).

(** ** A small machine, for examples

    One source directory [in] with a file [a.c], an output directory [out],
    the default comment prefix. *)

Module Example.

Definition Directories : directory_argument := {| src := "in"; dst := "out" |}.

Definition program (notice : list byte) (replace always : bool)
    (input : list string) : instance :=
  {| mCons := console_new input;
     mRecurse := false;
     mVerbose := false;
     mReplace := replace;
     mCommentPrefix := default_comment_prefix;
     mDirectories := [Directories];
     mExtensions := ["c"];
     mNotice := notice;
     mAlwaysOverwriteFiles := always |}.

(** The machine with the source [in\a.c] and no output yet. *)
Definition fresh (notice content : list byte) (replace : bool) : state :=
  {| self := program notice replace false [];
     files := {[ "in\a.c" := content ]} |}.

(** The machine with the source [in\a.c] and an earlier output [out\a.c]. *)
Definition rerun (notice content old : list byte) (replace always : bool)
    (input : list string) : state :=
  {| self := program notice replace always input;
     files := <[ "out\a.c" := old ]> {[ "in\a.c" := content ]} |}.

(** The entry of [a.c] in an enumeration: a plain file. *)
Definition a_c : WIN32_FIND_DATAW :=
  {| dwFileAttributes := 0x20; cFileName := "a.c" |}.

(** A directory [A] with the entries [.], [..], a hidden directory [H], a
    file [f.c] and the directories [B] and [C], which are empty. *)
Definition dot : WIN32_FIND_DATAW :=
  {| dwFileAttributes := 0x10; cFileName := "." |}.
Definition dotdot : WIN32_FIND_DATAW :=
  {| dwFileAttributes := 0x10; cFileName := ".." |}.
Definition H : WIN32_FIND_DATAW :=
  {| dwFileAttributes := 0x12; cFileName := "H" |}.
Definition f_c : WIN32_FIND_DATAW :=
  {| dwFileAttributes := 0x20; cFileName := "f.c" |}.
Definition B : WIN32_FIND_DATAW :=
  {| dwFileAttributes := 0x10; cFileName := "B" |}.
Definition C : WIN32_FIND_DATAW :=
  {| dwFileAttributes := 0x10; cFileName := "C" |}.

Definition tree (fs : gmap string (list byte)) (search : string)
  : enumeration :=
  if String.eqb search "A\*"
  then {| entries := [dot; dotdot; H; f_c; B; C];
          last_error := ERROR_NO_MORE_FILES |}
  else if String.eqb search "A\B\*" || String.eqb search "A\C\*"
  then {| entries := [dot; dotdot]; last_error := ERROR_NO_MORE_FILES |}
  else {| entries := []; last_error := 3 |}.

Definition A : directory_argument := {| src := "A"; dst := "out" |}.

(** The program told to target [A], with or without [/recurse]. *)
Definition targeting (recurse : bool) : state :=
  {| self :=
       {| mCons := console_new [];
          mRecurse := recurse;
          mVerbose := false;
          mReplace := false;
          mCommentPrefix := default_comment_prefix;
          mDirectories := [A];
          mExtensions := ["c"];
          mNotice := U8.lit "N";
          mAlwaysOverwriteFiles := false |};
     files := ∅ |}.

End Example.

(** * More of the program: the command line, the console input *)

(** ** The argument names *)

(** A sorted array of acceptable command-line arguments. *)
Definition argument_names : list string :=
  ["dir"; "ext"; "note"; "notef"; "recurse"; "replace"; "syntax"; "verbose"].

(** [std::lower_bound] with the order of [std::wstring_view]: the number of
    leading elements that are less than the value, which is the partition
    point the standard asks for when the range is sorted. *)
Fixpoint lower_bound (names : list string) (value : string) : nat :=
  match names with
  | [] => O
  | name :: names' =>
      if String.ltb name value then S (lower_bound names' value) else O
  end.

(** [static_cast<argument_name_id>], an enumeration over [std::uint8_t]. *)
Definition u8 (z : Z) : Z := z mod 2 ^ 8.

(** [argument_name_id::unknown]. *)
Definition unknown : Z := 0.

(** Returns a unique value for the given argument name, [unknown] if the
    name was not found in the [argument_names] array. *)
Definition find_argument_name_id (String : string) : Z :=
  let it := lower_bound argument_names String in
  match argument_names !! it with
  | None => unknown
  | Some name =>
      if negb (String.eqb name String) then unknown
      else u8 (Z.of_nat it + 1)
  end.

(** The loop of [get_max_argument_name_length]. *)
Fixpoint max_size (names : list string) (maxSize : nat) : nat :=
  match names with
  | [] => maxSize
  | p :: names' =>
      max_size names'
        (if (maxSize <? String.length p)%nat then String.length p else maxSize)
  end.

Definition get_max_argument_name_length : nat := max_size argument_names 0.

(** [argName] and [argNameLen] after the loop of lines 288-292: the
    characters of [arg] from the second one on, as many as [argName]
    holds. *)
Fixpoint leading (n : nat) (s : string) : string :=
  match n, s with
  | S n', String c s' => String c (leading n' s')
  | _, _ => EmptyString
  end.

Definition argName (arg : string) : string :=
  match arg with
  | EmptyString => EmptyString
  | String _ arg' => leading get_max_argument_name_length arg'
  end.

(** ** Wide strings, continued *)

(** [std::wstring::ends_with]. *)
Fixpoint ends_with (s suffix : string) : bool :=
  String.eqb s suffix
  || match s with
     | EmptyString => false
     | String _ s' => ends_with s' suffix
     end.

Fixpoint occurs (c : ascii) (chars : string) : bool :=
  match chars with
  | EmptyString => false
  | String d chars' => Ascii.eqb c d || occurs c chars'
  end.

(** [s.find_first_of(chars) != s.npos]. *)
Fixpoint find_first_of (s chars : string) : bool :=
  match s with
  | EmptyString => false
  | String c s' => occurs c chars || find_first_of s' chars
  end.

(** [arg[0] == L'/']. *)
Definition is_name (arg : string) : bool := Ascii.eqb (wchar_at arg 0) "/".

(** ** More setters *)

Definition set_mRecurse (b : bool) (I : instance) : instance :=
  {| mCons := mCons I; mRecurse := b; mVerbose := mVerbose I;
     mReplace := mReplace I; mCommentPrefix := mCommentPrefix I;
     mDirectories := mDirectories I; mExtensions := mExtensions I;
     mNotice := mNotice I;
     mAlwaysOverwriteFiles := mAlwaysOverwriteFiles I |}.

Definition set_mVerbose (b : bool) (I : instance) : instance :=
  {| mCons := mCons I; mRecurse := mRecurse I; mVerbose := b;
     mReplace := mReplace I; mCommentPrefix := mCommentPrefix I;
     mDirectories := mDirectories I; mExtensions := mExtensions I;
     mNotice := mNotice I;
     mAlwaysOverwriteFiles := mAlwaysOverwriteFiles I |}.

Definition set_mReplace (b : bool) (I : instance) : instance :=
  {| mCons := mCons I; mRecurse := mRecurse I; mVerbose := mVerbose I;
     mReplace := b; mCommentPrefix := mCommentPrefix I;
     mDirectories := mDirectories I; mExtensions := mExtensions I;
     mNotice := mNotice I;
     mAlwaysOverwriteFiles := mAlwaysOverwriteFiles I |}.

Definition set_mCommentPrefix (p : list byte) (I : instance) : instance :=
  {| mCons := mCons I; mRecurse := mRecurse I; mVerbose := mVerbose I;
     mReplace := mReplace I; mCommentPrefix := p;
     mDirectories := mDirectories I; mExtensions := mExtensions I;
     mNotice := mNotice I;
     mAlwaysOverwriteFiles := mAlwaysOverwriteFiles I |}.

Definition set_mExtensions (e : list string) (I : instance) : instance :=
  {| mCons := mCons I; mRecurse := mRecurse I; mVerbose := mVerbose I;
     mReplace := mReplace I; mCommentPrefix := mCommentPrefix I;
     mDirectories := mDirectories I; mExtensions := e;
     mNotice := mNotice I;
     mAlwaysOverwriteFiles := mAlwaysOverwriteFiles I |}.

Definition set_mNotice (n : list byte) (I : instance) : instance :=
  {| mCons := mCons I; mRecurse := mRecurse I; mVerbose := mVerbose I;
     mReplace := mReplace I; mCommentPrefix := mCommentPrefix I;
     mDirectories := mDirectories I; mExtensions := mExtensions I;
     mNotice := n;
     mAlwaysOverwriteFiles := mAlwaysOverwriteFiles I |}.

(** [std::u8string::empty]. *)
Definition no_bytes (s : list byte) : bool :=
  match s with [] => true | _ :: _ => false end.

(** A change of the members of the instance. *)
Definition update (f : instance -> instance) : M unit :=
  modify (fun st => set_self (f (self st)) st).

(** A change of the last element, which a reference to the result of
    [emplace_back] names. *)
Fixpoint at_back {A} (f : A -> A) (l : list A) : list A :=
  match l with
  | [] => []
  | [x] => [f x]
  | x :: l' => x :: at_back f l'
  end.

(** ** [program::echo_command_line] *)

Fixpoint echo_arguments (i : Z) (Args : list string) : M unit :=
  match Args with
  | [] => ret tt
  | arg :: Args' =>
      write ["Argument "; to_wstring i; ": " +:+ DQ; arg; DQ +:+ NL] ;;
      echo_arguments (i + 1) Args'
  end.

Definition echo_command_line (Args : list string) : M unit :=
  echo_arguments 0 Args.

(** ** [program::instance::init], lines 259-458: the arguments *)

(** The message of lines 263-276. *)
Definition usage : string :=
  sgr "1;31" +:+ "No arguments specified." +:+ NL +:+ NL
  +:+ sgr "0;1;4" +:+ "Available arguments:" +:+ sgr "24" +:+ NL
  +:+ sgr "1" +:+ "/dir       " +:+ sgr "34" +:+ "[src] [dst]" +:+ sgr "0"
  +:+ " src: A path to a directory to search. dst: A path to a directory to place output files. You may use this argument multiple times."
  +:+ NL
  +:+ sgr "1" +:+ "/ext       " +:+ sgr "34" +:+ "[name]" +:+ sgr "0"
  +:+ " A target file extension. You may use this argument multiple times."
  +:+ NL
  +:+ sgr "1" +:+ "/note      " +:+ sgr "34" +:+ "[str]" +:+ sgr "0"
  +:+ " Specifies the notice to write into the output files." +:+ NL
  +:+ sgr "1" +:+ "/notef     " +:+ sgr "34" +:+ "[name]" +:+ sgr "0"
  +:+ " Specifies the name of a text file which contains the notice to write into the output files."
  +:+ NL
  +:+ sgr "1" +:+ "/recurse   " +:+ sgr "0" +:+ "Searches through subdirectories."
  +:+ NL
  +:+ sgr "1" +:+ "/verbose   " +:+ sgr "0" +:+ "Logs extended information."
  +:+ NL
  +:+ sgr "1" +:+ "/syntax    " +:+ sgr "34" +:+ "[prefix] " +:+ sgr "0"
  +:+ "Sets the prefix used to indicate a comment. By default, the comment prefix is set to "
  +:+ DQ +:+ "// " +:+ DQ +:+ "." +:+ NL
  +:+ sgr "1" +:+ "/replace   " +:+ sgr "0"
  +:+ "If a comment is already present at the beginning of a source file, it is replaced."
  +:+ NL
  +:+ sgr "90" +:+ "Arguments " +:+ sgr "0" +:+ "/note" +:+ sgr "90" +:+ " and "
  +:+ sgr "0" +:+ "/notef" +:+ sgr "90" +:+ " are mutually exclusive." +:+ NL
  +:+ NL +:+ sgr "1" +:+ "Example:" +:+ sgr "0" +:+ " copynotice /dir " +:+ DQ
  +:+ "program\code" +:+ DQ +:+ " " +:+ DQ +:+ "temp" +:+ DQ +:+ " /note "
  +:+ DQ +:+ "Written by John Doe." +:+ DQ +:+ " /ext " +:+ DQ +:+ "h" +:+ DQ
  +:+ " /ext " +:+ DQ +:+ "c" +:+ DQ +:+ " /verbose" +:+ NL +:+ NL.

(** The start of every error message. *)
Definition error : string := sgr "1;31" +:+ "Error: ".

(** [sizeof(mCommentPrefix) - 1]. *)
Definition maxCommentLength : Z := 15.

(** [std::memcpy(mCommentPrefix, subargument.data(), subargument.size() + 1)]:
    the bytes of the subargument and the null that ends them, over the
    start of the array. *)
Definition memcpy_prefix (array subargument : list byte) : list byte :=
  (subargument ++ [U8.NUL]) ++ drop (S (length subargument)) array.

Section CommandLine.

(** Modelled from the spec: [wdul::utf16_to_utf8], which is declared in
    [wdul/strconv.hpp] and is not part of the sources: the bytes of a wide
    string (the notice and the comment prefix are byte sequences). *)
Variable utf16_to_utf8 : string -> list byte.

(** The case [dir] of the switch.  [rest] holds the arguments after the
    name; [continue] is the rest of the loop. *)
Definition init_dir (continue : list string -> M bool) (rest : list string)
  : M bool :=
  match rest with
  | [] =>
      write [error +:+ "Argument " +:+ DQ +:+ "dir" +:+ DQ
             +:+ ": expected 2 subarguments, got 0." +:+ NL] ;;
      ret false
  | subargument1 :: rest1 =>
      if is_name subargument1 then
        write [error +:+ "Argument " +:+ DQ +:+ "dir" +:+ DQ
               +:+ ": expected 2 subarguments, got 0." +:+ NL] ;;
        ret false
      else
        update (fun I =>
          set_mDirectories
            (mDirectories I ++ [{| src := subargument1; dst := "" |}]) I) ;;
        if ends_with subargument1 "\" || ends_with subargument1 "/" then
          write [error +:+ "Argument " +:+ DQ +:+ "dir" +:+ DQ
                 +:+ ": subargument 1 (src): do not use a trailing slash."
                 +:+ NL] ;;
          ret false
        else
          match rest1 with
          | [] =>
              write [error +:+ "Argument " +:+ DQ +:+ "dir" +:+ DQ
                     +:+ ": expected 2 subarguments, got 1." +:+ NL] ;;
              ret false
          | subargument2 :: rest2 =>
              if is_name subargument2 then
                write [error +:+ "Argument " +:+ DQ +:+ "dir" +:+ DQ
                       +:+ ": expected 2 subarguments, got 1." +:+ NL] ;;
                ret false
              else
                update (fun I =>
                  set_mDirectories
                    (at_back (fun dir => {| src := src dir;
                                            dst := subargument2 |})
                             (mDirectories I)) I) ;;
                if empty subargument2 then
                  write [error +:+ "Argument " +:+ DQ +:+ "dir" +:+ DQ
                         +:+ ": subargument 2 (dst): argument cannot be empty."
                         +:+ NL] ;;
                  ret false
                else if ends_with subargument2 "\"
                        || ends_with subargument2 "/" then
                  write [error +:+ "Argument " +:+ DQ +:+ "dir" +:+ DQ
                         +:+ ": subargument 2 (dst): do not use a trailing slash."
                         +:+ NL] ;;
                  ret false
                else if find_first_of subargument1 ("<>:" +:+ DQ +:+ "|?*") then
                  write [error +:+ "Argument " +:+ DQ +:+ "dir" +:+ DQ
                         +:+ ": subargument " +:+ DQ; subargument1;
                         DQ +:+ " contains an illegal character." +:+ NL] ;;
                  ret false
                else if find_first_of subargument2 ("<>:" +:+ DQ +:+ "|?*") then
                  write [error +:+ "Argument " +:+ DQ +:+ "dir" +:+ DQ
                         +:+ ": subargument " +:+ DQ; subargument2;
                         DQ +:+ " contains an illegal character." +:+ NL] ;;
                  ret false
                else continue rest2
          end
  end.

(** The case [ext]. *)
Definition init_ext (continue : list string -> M bool) (rest : list string)
  : M bool :=
  match rest with
  | [] =>
      write [error +:+ "Argument " +:+ DQ +:+ "ext" +:+ DQ
             +:+ " must be followed by a subargument." +:+ NL] ;;
      ret false
  | subargument :: rest1 =>
      if is_name subargument then
        write [error +:+ "Argument " +:+ DQ +:+ "ext" +:+ DQ
               +:+ " must be followed by a subargument." +:+ NL] ;;
        ret false
      else
        let extensionLen := Z.of_nat (String.length subargument) in
        if 15 <? extensionLen then
          write [error +:+ "Argument " +:+ DQ +:+ "ext" +:+ DQ
                 +:+ ": extension too long." +:+ NL] ;;
          ret false
        else if extensionLen =? 0 then
          write [error +:+ "Argument " +:+ DQ +:+ "ext" +:+ DQ
                 +:+ ": extension cannot be blank." +:+ NL] ;;
          ret false
        else
          update (fun I =>
            set_mExtensions (mExtensions I ++ [subargument]) I) ;;
          if find_first_of subargument ("<>:" +:+ DQ +:+ "/\|?*.") then
            write [error +:+ "Extension " +:+ DQ; subargument;
                   DQ +:+ " contains an illegal character." +:+ NL] ;;
            ret false
          else continue rest1
  end.

(** The case [note]. *)
Definition init_note (continue : list string -> M bool) (rest : list string)
  : M bool :=
  match rest with
  | [] =>
      write [error +:+ "Argument " +:+ DQ +:+ "note" +:+ DQ
             +:+ " must be followed by a subargument." +:+ NL] ;;
      ret false
  | subargument :: rest1 =>
      if is_name subargument then
        write [error +:+ "Argument " +:+ DQ +:+ "note" +:+ DQ
               +:+ " must be followed by a subargument." +:+ NL] ;;
        ret false
      else
        notice <- member mNotice ;;
        if negb (no_bytes notice) then
          write [error +:+ "Notice string already supplied." +:+ NL] ;;
          ret false
        else
          update (set_mNotice (utf16_to_utf8 subargument)) ;;
          continue rest1
  end.

(** The case [notef]: the notice is the content of a file, as many bytes
    of it as the size of the file, cast to [std::uint32_t], says. *)
Definition init_notef (continue : list string -> M bool) (rest : list string)
  : M bool :=
  match rest with
  | [] =>
      write [error +:+ "Argument " +:+ DQ +:+ "notef" +:+ DQ
             +:+ " must be followed by a subargument." +:+ NL] ;;
      ret false
  | subargument :: rest1 =>
      if is_name subargument then
        write [error +:+ "Argument " +:+ DQ +:+ "notef" +:+ DQ
               +:+ " must be followed by a subargument." +:+ NL] ;;
        ret false
      else
        notice <- member mNotice ;;
        if negb (no_bytes notice) then
          write [error +:+ "Notice string already supplied." +:+ NL] ;;
          ret false
        else
          f <- fopen_existing subargument ;;
          let size := Z.of_nat (length f) in
          update (set_mNotice (U8.range f 0 (u32 size))) ;;
          continue rest1
  end.

(** The case [syntax]. *)
Definition init_syntax (continue : list string -> M bool) (rest : list string)
  : M bool :=
  match rest with
  | [] =>
      write [error +:+ "Argument " +:+ DQ +:+ "syntax" +:+ DQ
             +:+ " must be followed by a subargument." +:+ NL] ;;
      ret false
  | arg :: rest1 =>
      if is_name arg then
        write [error +:+ "Argument " +:+ DQ +:+ "syntax" +:+ DQ
               +:+ " must be followed by a subargument." +:+ NL] ;;
        ret false
      else
        let subargument := utf16_to_utf8 arg in
        if maxCommentLength <? Z.of_nat (length subargument) then
          write [error +:+ "Argument " +:+ DQ +:+ "syntax" +:+ DQ
                 +:+ ": subargument cannot exceed ";
                 to_wstring maxCommentLength; " characters." +:+ NL] ;;
          ret false
        else if no_bytes subargument then
          write [error +:+ "Argument " +:+ DQ +:+ "syntax" +:+ DQ
                 +:+ ": subargument must not be blank." +:+ NL] ;;
          ret false
        else
          update (fun I =>
            set_mCommentPrefix (memcpy_prefix (mCommentPrefix I) subargument)
                               I) ;;
          continue rest1
  end.

(** The body of the loop of lines 280-458 for the argument [arg], before
    the arguments [rest]. *)
Definition init_argument (ArgV : list string)
    (continue : list string -> M bool) (arg : string) (rest : list string)
  : M bool :=
  if negb (is_name arg) then
    write [error +:+ "Expected argument name, got " +:+ DQ; arg;
           DQ +:+ ". Argument names must start with a forward slash." +:+ NL] ;;
    ret false
  else
    let id := find_argument_name_id (argName arg) in
    if id =? unknown then
      write [error +:+ "Unknown argument " +:+ DQ; argName arg; DQ +:+ NL] ;;
      ret false
    else if id =? find_argument_name_id "dir" then init_dir continue rest
    else if id =? find_argument_name_id "ext" then init_ext continue rest
    else if id =? find_argument_name_id "note" then init_note continue rest
    else if id =? find_argument_name_id "notef" then init_notef continue rest
    else if id =? find_argument_name_id "recurse" then
      recurse <- member mRecurse ;;
      if recurse then
        write [error +:+ "/recurse already set." +:+ NL] ;; ret false
      else update (set_mRecurse true) ;; continue rest
    else if id =? find_argument_name_id "verbose" then
      verbose <- member mVerbose ;;
      if verbose then
        write [error +:+ "/verbose already set." +:+ NL] ;; ret false
      else
        update (set_mVerbose true) ;;
        write [sgr "90"] ;;
        echo_command_line ArgV ;;
        continue rest
    else if id =? find_argument_name_id "syntax" then init_syntax continue rest
    else if id =? find_argument_name_id "replace" then
      replace <- member mReplace ;;
      if replace then
        write [error +:+ "/replace already set." +:+ NL] ;; ret false
      else update (set_mReplace true) ;; continue rest
    else
      write [error +:+ "Behaviour not implemented for argument " +:+ DQ;
             argName arg; DQ +:+ NL] ;;
      ret false.

(** The loop of lines 280-458 over the arguments that are left.  Every round
    takes the name and its subarguments from them; [fuel] is one more than
    their number. *)
Fixpoint init_loop (fuel : nat) (ArgV : list string) (rest : list string)
  : M bool :=
  match fuel with
  | O => fun _ => OutOfFuel
  | S fuel' =>
      match rest with
      | [] => ret true
      | arg :: rest' => init_argument ArgV (init_loop fuel' ArgV) arg rest'
      end
  end.

(** [init] up to line 458: the arguments are read into the members; the
    result is whether the arguments are accepted. *)
Definition init_arguments (ArgV : list string) : M bool :=
  let ArgC := Z.of_nat (length ArgV) in
  if ArgC <? 2 then write [usage] ;; ret false
  else init_loop (S (length ArgV)) ArgV (drop 1 ArgV).

End CommandLine.

(** ** [program::console::read]

    The input handle is what its calls of [read] deliver, one string of at
    most [mWchBufferSize] characters per call. *)

Definition mWchBufferSize : Z := 128.

Definition CRLF : string := String "013"%char (String "010"%char EmptyString).

Fixpoint nulls (n : nat) : string :=
  match n with
  | O => EmptyString
  | S n' => String Ascii.zero (nulls n')
  end.

(** [std::wstring::resize]: the first [n] characters, or the string and
    null characters up to [n]. *)
Definition resize (s : string) (n : Z) : string :=
  leading (Z.to_nat n) s +:+ nulls (Z.to_nat n - String.length s).

(** The loop of lines 93-97.  The result is [Str], [numRead] and the input
    that is left; with no input left the read never returns ([None]). *)
Fixpoint read_chunks (input : list string) (Str : string)
  : option (string * Z * list string) :=
  match input with
  | [] => None
  | chunk :: input' =>
      let numRead := u32 (Z.of_nat (String.length chunk)) in
      let Str := Str +:+ chunk in
      if numRead =? mWchBufferSize then read_chunks input' Str
      else Some (Str, numRead, input')
  end.

(** [console::read(std::wstring&)]: reads from standard input to the
    specified string, whose previous contents are not cleared.  The result
    is the output written, the string and the input that is left. *)
Definition console_read (output input : list string) (Str : string)
  : option (list string * string * list string) :=
  let output := output ++ [sgr "0" +:+ "> "] in
  match read_chunks input Str with
  | None => None
  | Some (Str, numRead, input') =>
      Some (output,
            if ends_with Str CRLF then resize Str (u32 (numRead - 2)) else Str,
            input')
  end.

(** ** Notions for the further statements *)

(** *** What [init] requires of its arguments *)

(** The path ends with a backslash or a forward slash. *)
Definition trailing_slash (path : string) : Prop :=
  exists before, path = before +:+ "\" \/ path = before +:+ "/".

(** One of the characters [chars] is in the string. *)
Definition has_character (chars s : string) : Prop :=
  exists c, In c (list_ascii_of_string s) /\ In c (list_ascii_of_string chars).

(** A pair of directories that [init] accepts. *)
Definition valid_directory (d : directory_argument) : Prop :=
  ~ trailing_slash (src d)
  /\ ~ trailing_slash (dst d)
  /\ dst d <> EmptyString
  /\ ~ has_character ("<>:" +:+ DQ +:+ "|?*") (src d)
  /\ ~ has_character ("<>:" +:+ DQ +:+ "|?*") (dst d).

(** An extension that [init] accepts. *)
Definition valid_extension (e : string) : Prop :=
  (1 <= String.length e <= 15)%nat
  /\ ~ has_character ("<>:" +:+ DQ +:+ "/\|?*.") e.

(** The members that [init] fills are as it requires them: the
    directories, the extensions, and a comment prefix that ends within its
    array. *)
Definition configured (I : instance) : Prop :=
  Forall valid_directory (mDirectories I)
  /\ Forall valid_extension (mExtensions I)
  /\ length (mCommentPrefix I) = 16%nat
  /\ (length (U8.c_str (mCommentPrefix I)) <= 15)%nat.

(** *** What a call leaves as it is *)

(** The files, the overwrite policy and the console input are as before;
    the console output has grown. *)
Definition untouched (st st' : state) : Prop :=
  files st' = files st
  /\ mAlwaysOverwriteFiles (self st') = mAlwaysOverwriteFiles (self st)
  /\ pending (mCons (self st')) = pending (mCons (self st))
  /\ mLastRead (mCons (self st')) = mLastRead (mCons (self st))
  /\ exists out, written (mCons (self st')) = written (mCons (self st)) ++ out.

(** The members that the command line sets are as before. *)
Definition same_configuration (st st' : state) : Prop :=
  mRecurse (self st') = mRecurse (self st)
  /\ mVerbose (self st') = mVerbose (self st)
  /\ mReplace (self st') = mReplace (self st)
  /\ mCommentPrefix (self st') = mCommentPrefix (self st)
  /\ mDirectories (self st') = mDirectories (self st)
  /\ mExtensions (self st') = mExtensions (self st)
  /\ mNotice (self st') = mNotice (self st).

(** One round of the loop of [init]: in every state the body rejects the
    arguments, or leaves by the exception of a file that cannot be opened,
    or goes on with arguments that are left. *)
Definition reads_on (continue : list string -> M bool) (rest : list string)
    (body : M bool) : Prop :=
  forall st,
    exists st2,
      untouched st st2
      /\ (body st = Ok false st2
          \/ body st = Throw ERROR_FILE_NOT_FOUND
          \/ exists rest',
               (length rest' <= length rest)%nat
               /\ (configured (self st) -> configured (self st2))
               /\ body st = continue rest' st2).

(** *** The entries of an enumeration *)

(** An entry that [iterate] hands to [create_file], as a condition. *)
Definition plain (findData : WIN32_FIND_DATAW) : bool :=
  negb (has_attribute (dwFileAttributes findData) FILE_ATTRIBUTE_HIDDEN)
  && negb (has_attribute (dwFileAttributes findData) FILE_ATTRIBUTE_DIRECTORY).

(** *** The pairs below a pair *)

(** The pair that a path of child names leads to from [Directories], none
    of the names being [.] or [..]: the same names on the source and on the
    destination. *)
Definition below (Directories d : directory_argument) : Prop :=
  exists names,
    names <> []
    /\ Forall (fun name => is_dot_entry name = false) names
    /\ d = fold_left child names Directories.


(** * Properties *)

(** ** The primitives on small inputs *)

Example find_first :
  U8.find (U8.lit "ab" ++ U8.newline ++ U8.lit "c" ++ U8.newline) 0 = Some 2.
Proof. reflexivity. Qed.

Example find_next :
  U8.find (U8.lit "ab" ++ U8.newline ++ U8.lit "c" ++ U8.newline) 4 = Some 5.
Proof. reflexivity. Qed.

Example find_at_end :
  U8.find (U8.lit "ab" ++ U8.newline ++ U8.lit "c" ++ U8.newline) 7 = None.
Proof. reflexivity. Qed.

Example c_str_default : U8.c_str default_comment_prefix = U8.lit "// ".
Proof. reflexivity. Qed.

Example split_crlf_two :
  Spec.split_crlf (U8.lit "a" ++ U8.newline ++ U8.lit "b")
  = [U8.lit "a"; U8.lit "b"].
Proof. reflexivity. Qed.

Example split_crlf_trailing_empty :
  Spec.split_crlf (U8.lit "a" ++ U8.newline) = [U8.lit "a"; []].
Proof. reflexivity. Qed.

Example freadline_crlf :
  freadline (U8.lit "ab" ++ U8.newline ++ U8.lit "c")
  = (true, U8.lit "ab", U8.lit "c").
Proof. reflexivity. Qed.

Example freadline_lf :
  freadline (U8.lit "ab" ++ [U8.LF] ++ U8.lit "c")
  = (true, U8.lit "ab", U8.lit "c").
Proof. reflexivity. Qed.

Example freadline_last : freadline (U8.lit "c") = (true, U8.lit "c", []).
Proof. reflexivity. Qed.

Example freadline_end : freadline [] = (false, [], []).
Proof. reflexivity. Qed.

Example lines_mixed :
  Spec.lines (U8.lit "a" ++ U8.newline ++ U8.lit "b" ++ [U8.LF] ++ U8.lit "c")
  = [(U8.lit "a", U8.newline); (U8.lit "b", [U8.LF]); (U8.lit "c", [])].
Proof. reflexivity. Qed.

Example ask_yesno_retries :
  fst <$> ask_yesno (console_new ["maybe"; "Y"; "y"]) = Some true.
Proof. reflexivity. Qed.

Example ask_yesno_waits : ask_yesno (console_new ["maybe"]) = None.
Proof. reflexivity. Qed.

Example is_dot_entry_dotdot : is_dot_entry ".." = true.
Proof. reflexivity. Qed.

Example is_dot_entry_dotfile : is_dot_entry ".git" = false.
Proof. reflexivity. Qed.

Example subdirectory_hidden : subdirectory Example.H = false.
Proof. reflexivity. Qed.

(** ** Arithmetic on [std::uint32_t] *)

Lemma u32_small z : 0 <= z < 2 ^ 32 -> u32 z = z.
Proof. intros H. unfold u32. apply Z.mod_small. exact H. Qed.

(** ** Writing to a file *)

Lemma fwrite_insert h c b (fs : gmap string (list byte)) :
  fwrite h b (<[h := c]> fs) = <[h := c ++ b]> fs.
Proof.
  unfold fwrite. rewrite lookup_insert_eq. simpl. apply insert_insert_eq.
Qed.


(** ** The notice loop writes the notice block *)

Lemma starts_with_LF c s :
  U8.starts_with (c :: s) [U8.LF] = Byte.eqb c U8.LF.
Proof. destruct s; simpl; apply andb_true_r. Qed.

Lemma scan_None s i : U8.scan s i = None -> Spec.split_crlf s = [s].
Proof.
  revert i. induction s as [|b s IH]; intros i H; [reflexivity|].
  cbn [U8.scan] in H. destruct s as [|c s].
  - reflexivity.
  - rewrite starts_with_LF in H. cbn [Spec.split_crlf].
    destruct (Byte.eqb b U8.CR && Byte.eqb c U8.LF); [discriminate|].
    apply IH in H. cbn [Spec.split_crlf] in H. rewrite H. reflexivity.
Qed.

Lemma scan_Some s i p :
  U8.scan s i = Some p ->
  exists n : nat,
    p = i + Z.of_nat n /\ (n + 2 <= length s)%nat /\
    Spec.split_crlf s = take n s :: Spec.split_crlf (drop (n + 2) s).
Proof.
  revert i. induction s as [|b s IH]; intros i H; [discriminate|].
  cbn [U8.scan] in H. destruct s as [|c s].
  - cbn in H. rewrite andb_false_r in H. discriminate.
  - rewrite starts_with_LF in H.
    destruct (Byte.eqb b U8.CR && Byte.eqb c U8.LF) eqn:E.
    + exists 0%nat. inversion H; subst p. split; [lia|].
      split; [simpl; lia|]. cbn [Spec.split_crlf]. rewrite E. reflexivity.
    + destruct (IH _ H) as (n & -> & Hn & Hs). exists (S n).
      split; [lia|]. split; [simpl in *; lia|].
      change (Spec.split_crlf (b :: c :: s))
        with (if Byte.eqb b U8.CR && Byte.eqb c U8.LF
              then [] :: Spec.split_crlf s
              else Spec.push b (Spec.split_crlf (c :: s))).
      rewrite E, Hs. reflexivity.
Qed.

Lemma find_in_range s (o : nat) :
  (o <= length s)%nat ->
  U8.find s (Z.of_nat o) = U8.scan (drop o s) (Z.of_nat o).
Proof.
  intros H. unfold U8.find.
  destruct (Z.ltb_spec (Z.of_nat (length s)) (Z.of_nat o)); [lia|].
  by rewrite Nat2Z.id.
Qed.

Lemma range_take_drop s (o n : nat) :
  U8.range s (Z.of_nat o) (Z.of_nat n) = take n (drop o s).
Proof. unfold U8.range. by rewrite !Nat2Z.id. Qed.

(** From a segment start [o], with fuel for the bytes that are left, the
    loop appends the notice block of the rest of the notice. *)
Lemma write_notice_from fuel dstFile prefix notice (o : nat) c
    (fs : gmap string (list byte)) :
  Z.of_nat (length notice) < 2 ^ 32 ->
  (o <= length notice)%nat ->
  (length notice - o < fuel)%nat ->
  write_notice fuel dstFile prefix notice (Z.of_nat o) (<[dstFile := c]> fs)
  = Some (<[dstFile :=
              c ++ Spec.notice_block (U8.c_str prefix) (drop o notice)]> fs).
Proof.
  intros Hlen. revert o c.
  induction fuel as [|fuel IH]; intros o c Ho Hfuel; [lia|].
  cbn [write_notice]. rewrite find_in_range by exact Ho.
  rewrite !fwrite_insert.
  destruct (U8.scan (drop o notice) (Z.of_nat o)) as [p|] eqn:Hscan.
  - destruct (scan_Some _ _ _ Hscan) as (n & -> & Hn & Hsplit).
    rewrite length_drop in Hn.
    rewrite (u32_small (Z.of_nat o + Z.of_nat n)) by lia.
    rewrite (u32_small (Z.of_nat (length notice))) by lia.
    replace (Z.of_nat o + Z.of_nat n - Z.of_nat o) with (Z.of_nat n) by lia.
    rewrite (u32_small (Z.of_nat n)) by lia.
    rewrite (u32_small (Z.of_nat o + Z.of_nat n + 2)) by lia.
    destruct (Z.eqb_spec (Z.of_nat o + Z.of_nat n) (Z.of_nat (length notice)));
      [lia|].
    replace (Z.of_nat o + Z.of_nat n + 2) with (Z.of_nat (o + n + 2)) by lia.
    rewrite IH by lia. f_equal. f_equal.
    unfold Spec.notice_block. rewrite Hsplit. cbn [map concat].
    rewrite drop_drop, range_take_drop. unfold Spec.comment_line.
    rewrite <- !app_assoc.
    replace (o + (n + 2))%nat with (o + n + 2)%nat by lia. reflexivity.
  - rewrite (u32_small (Z.of_nat (length notice))) by lia.
    rewrite Z.eqb_refl. f_equal. f_equal.
    unfold Spec.notice_block. rewrite (scan_None _ _ Hscan). cbn [map concat].
    replace (Z.of_nat (length notice) - Z.of_nat o)
      with (Z.of_nat (length notice - o)) by lia.
    rewrite u32_small by lia. rewrite range_take_drop.
    rewrite take_ge by (rewrite length_drop; lia).
    unfold Spec.comment_line. rewrite app_nil_r, <- !app_assoc. reflexivity.
Qed.

(** ** The copy loop copies the rest of the source *)

Lemma copy_rest_all fuel dstFile srcFile c (fs : gmap string (list byte)) :
  (length srcFile < fuel)%nat ->
  copy_rest fuel dstFile srcFile (<[dstFile := c]> fs)
  = Some (<[dstFile := c ++ srcFile]> fs).
Proof.
  revert srcFile c.
  induction fuel as [|fuel IH]; intros srcFile c Hfuel; [lia|].
  cbn [copy_rest fread]. change (Z.to_nat readBuffer_size) with 64%nat.
  rewrite u32_small
    by (rewrite length_take; change (2 ^ 32) with 4294967296; lia).
  destruct (Z.eqb_spec (Z.of_nat (length (take 64 srcFile))) 0) as [E|E].
  - rewrite length_take in E. destruct srcFile; [|simpl in E; lia].
    by rewrite app_nil_r.
  - rewrite fwrite_insert.
    change 0 with (Z.of_nat 0). rewrite range_take_drop, drop_0.
    rewrite take_ge by lia. rewrite length_take in E.
    rewrite IH by (rewrite length_drop; lia).
    by rewrite <- app_assoc, take_drop.
Qed.

(** ** Reading lines *)

Lemma list_pair_ind {A} (P : list A -> Prop) :
  P [] -> (forall a, P [a]) ->
  (forall a b l, P l -> P (b :: l) -> P (a :: b :: l)) ->
  forall l, P l.
Proof.
  intros H0 H1 H2 l.
  assert (P l /\ forall a, P (a :: l)) as [H _]; [|exact H].
  induction l as [|b l [IH1 IH2]]; split; auto.
Qed.

Lemma unlines_push_line b ls :
  Spec.unlines (Spec.push_line b ls) = b :: Spec.unlines ls.
Proof. destruct ls as [|[l t] ls]; reflexivity. Qed.

Lemma lines_cons2 a b l :
  Spec.lines (a :: b :: l)
  = if Byte.eqb a U8.LF then ([], [U8.LF]) :: Spec.lines (b :: l)
    else if Byte.eqb a U8.CR && Byte.eqb b U8.LF
         then ([], U8.newline) :: Spec.lines l
         else Spec.push_line a (Spec.lines (b :: l)).
Proof. reflexivity. Qed.

Lemma unlines_cons l t ls :
  Spec.unlines ((l, t) :: ls) = l ++ t ++ Spec.unlines ls.
Proof. unfold Spec.unlines. cbn [map concat fst snd]. by rewrite app_assoc. Qed.

Lemma unlines_lines content : Spec.unlines (Spec.lines content) = content.
Proof.
  induction content as [|a|a b l IH1 IH2] using list_pair_ind.
  - reflexivity.
  - cbn. destruct (Byte.eqb a U8.LF) eqn:E; [|reflexivity].
    apply byte_dec_bl in E. by subst.
  - rewrite lines_cons2. destruct (Byte.eqb a U8.LF) eqn:E.
    + apply byte_dec_bl in E. subst. by rewrite unlines_cons, IH2.
    + destruct (Byte.eqb a U8.CR && Byte.eqb b U8.LF) eqn:E'.
      * apply andb_prop in E' as [Ea Eb].
        apply byte_dec_bl in Ea, Eb. subst. by rewrite unlines_cons, IH1.
      * by rewrite unlines_push_line, IH2.
Qed.

Lemma read_line_cons2 a b h :
  read_line (a :: b :: h)
  = if Byte.eqb a U8.LF then ([], b :: h)
    else if Byte.eqb a U8.CR && Byte.eqb b U8.LF then ([], h)
         else (a :: fst (read_line (b :: h)), snd (read_line (b :: h))).
Proof.
  change (read_line (a :: b :: h))
    with (if Byte.eqb a U8.LF then ([], b :: h)
          else if Byte.eqb a U8.CR && U8.starts_with (b :: h) [U8.LF]
               then ([], drop 1 (b :: h))
               else let '(line, rest) := read_line (b :: h) in
                    (a :: line, rest)).
  rewrite starts_with_LF. by destruct (read_line (b :: h)).
Qed.

Lemma lines_read_line b h :
  exists t,
    Spec.lines (b :: h)
    = (fst (read_line (b :: h)), t) :: Spec.lines (snd (read_line (b :: h))).
Proof.
  revert b. induction h as [|c h IH]; intros b.
  - cbn. destruct (Byte.eqb b U8.LF); [by eexists|].
    rewrite andb_false_r. by eexists.
  - rewrite lines_cons2, read_line_cons2.
    destruct (Byte.eqb b U8.LF); [by eexists|].
    destruct (Byte.eqb b U8.CR && Byte.eqb c U8.LF); [by eexists|].
    destruct (IH c) as [t Ht]. rewrite Ht. by exists t.
Qed.

Lemma read_line_length b h :
  (length (snd (read_line (b :: h))) <= length h)%nat.
Proof.
  revert b. induction h as [|c h IH]; intros b.
  - cbn. destruct (Byte.eqb b U8.LF); [simpl; lia|].
    rewrite andb_false_r. simpl. lia.
  - rewrite read_line_cons2. destruct (Byte.eqb b U8.LF); [simpl; lia|].
    destruct (Byte.eqb b U8.CR && Byte.eqb c U8.LF); [simpl; lia|].
    specialize (IH c). simpl in *. lia.
Qed.

(** With fuel for the bytes that are left, the loop that skips comments
    ends, on the first line that is not a comment or at the end of the
    file. *)
Lemma skip_comments_lines fuel prefix srcFile :
  (length srcFile < fuel)%nat ->
  skip_comments fuel prefix srcFile
  = Some match Spec.drop_comments (U8.c_str prefix) (Spec.lines srcFile) with
         | [] => ([], [])
         | l :: ls => (fst l, Spec.unlines ls)
         end.
Proof.
  revert srcFile.
  induction fuel as [|fuel IH]; intros srcFile Hfuel; [lia|].
  destruct srcFile as [|b h]; [reflexivity|].
  cbn [skip_comments freadline].
  destruct (lines_read_line b h) as [t Ht]. rewrite Ht.
  pose proof (read_line_length b h) as Hlen.
  destruct (read_line (b :: h)) as [l r]. cbn [fst snd] in *.
  cbn [Spec.drop_comments fst].
  destruct (U8.starts_with l (U8.c_str prefix)); cbn [negb].
  - apply IH. simpl in Hfuel. lia.
  - by rewrite unlines_lines.
Qed.

(** ** Running the primitives *)

Lemma logged_nil c : logged [] c = c.
Proof. destruct c. unfold logged. cbn. by rewrite app_nil_r. Qed.

Lemma logged_logged a b c : logged b (logged a c) = logged (a ++ b) c.
Proof. unfold logged. cbn. by rewrite app_assoc. Qed.

Lemma fold_console_write chain c :
  fold_left (fun c Sv => console_write Sv c) chain c = logged chain c.
Proof.
  revert c. induction chain as [|Sv chain IH]; intros c; cbn [fold_left].
  - by rewrite logged_nil.
  - rewrite IH. unfold console_write, logged. cbn. by rewrite <- app_assoc.
Qed.

Lemma set_mCons_id I : set_mCons (mCons I) I = I.
Proof. by destruct I. Qed.

Lemma st_logged_nil st : st_logged [] st = st.
Proof.
  unfold st_logged. rewrite logged_nil, set_mCons_id. by destruct st.
Qed.

Lemma st_logged_logged a b st :
  st_logged b (st_logged a st) = st_logged (a ++ b) st.
Proof. unfold st_logged. cbn. by rewrite logged_logged. Qed.

Lemma write_run chain st : write chain st = Ok tt (st_logged chain st).
Proof. unfold write, modify, st_logged. by rewrite fold_console_write. Qed.


Lemma verbose_run (b : bool) chain st :
  exists out, (if b then write chain else ret tt) st = Ok tt (st_logged out st).
Proof.
  destruct b.
  - exists chain. apply write_run.
  - exists []. by rewrite st_logged_nil.
Qed.

Lemma st_logged_set_files out fs st :
  st_logged out (set_files fs st) = set_files fs (st_logged out st).
Proof. reflexivity. Qed.


Ltac run_writes :=
  rewrite ?write_run, ?st_logged_set_files, ?st_logged_logged;
  cbn [app].

Lemma create_file_write_empty srcP dstP Fname st :
  srcP <> dstP ->
  exists out,
    create_file_write srcP dstP Fname [] st
    = Ok true (set_files (<[dstP := []]> (files st))
                 (st_logged (out ++ [sgr "1;31" +:+ "Source file "; Fname;
                                     " is empty." +:+ sgr "0" +:+ NL]) st)).
Proof.
  intros Hne. unfold create_file_write.
  unfold bind, member, get, ret, fopen_create_always.
  apply String.eqb_neq in Hne. rewrite String.eqb_sym, Hne.
  destruct (mVerbose (self st)); run_writes; cbn [freadline negb];
    run_writes; [eexists [_; _; _; _] | exists []]; reflexivity.
Qed.

Lemma freadline_cons b h :
  freadline (b :: h)
  = (true, fst (read_line (b :: h)), snd (read_line (b :: h))).
Proof. unfold freadline. by destruct (read_line (b :: h)). Qed.

Lemma retained_cons prefix replace b h :
  retained prefix replace (b :: h)
  = if U8.starts_with (fst (read_line (b :: h))) prefix && replace
    then match Spec.drop_comments prefix
                 (Spec.lines (snd (read_line (b :: h)))) with
         | [] => ([], [])
         | l :: ls => (fst l, Spec.unlines ls)
         end
    else read_line (b :: h).
Proof.
  unfold retained, kept_lines.
  destruct (lines_read_line b h) as [t ->]. cbn [fst].
  destruct (U8.starts_with _ prefix && replace); [reflexivity|].
  rewrite unlines_lines. by destruct (read_line (b :: h)).
Qed.

Lemma skipped_run prefix replace b h st :
  (if U8.starts_with (fst (read_line (b :: h))) (U8.c_str prefix) && replace
   then fueled (skip_comments (S (length (snd (read_line (b :: h))))) prefix
                              (snd (read_line (b :: h))))
   else ret (fst (read_line (b :: h)), snd (read_line (b :: h)))) st
  = Ok (retained (U8.c_str prefix) replace (b :: h)) st.
Proof.
  rewrite retained_cons.
  destruct (U8.starts_with _ (U8.c_str prefix) && replace).
  - rewrite skip_comments_lines by lia. reflexivity.
  - by destruct (read_line (b :: h)).
Qed.

Lemma write_notice_run dstFile prefix notice c
    (fs : gmap string (list byte)) :
  Z.of_nat (length notice) < 2 ^ 32 ->
  write_notice (S (length notice)) dstFile prefix notice 0
               (<[dstFile := c]> fs)
  = Some (<[dstFile := c ++ Spec.notice_block (U8.c_str prefix) notice]> fs).
Proof.
  intros H. change 0 with (Z.of_nat 0).
  rewrite write_notice_from by (exact H || lia). by rewrite drop_0.
Qed.

Lemma range_all s :
  Z.of_nat (length s) < 2 ^ 32 ->
  U8.range s 0 (u32 (Z.of_nat (length s))) = s.
Proof.
  intros H. rewrite u32_small by lia. change 0 with (Z.of_nat 0).
  rewrite range_take_drop, drop_0. by rewrite take_ge.
Qed.

(** The rewrite of a source that is not empty, given what the notice loop
    appends ([ox], or nothing when it runs out of fuel). *)
Lemma create_file_write_run srcP dstP Fname b h st ox :
  (forall dstFile c (fs : gmap string (list byte)),
     write_notice (S (length (mNotice (self st)))) dstFile
                  (mCommentPrefix (self st)) (mNotice (self st)) 0
                  (<[dstFile := c]> fs)
     = (fun x => <[dstFile := c ++ x]> fs) <$> ox) ->
  srcP <> dstP ->
  exists out,
    create_file_write srcP dstP Fname (b :: h) st
    = match ox with
      | Some x =>
          let kept := retained (U8.c_str (mCommentPrefix (self st)))
                               (mReplace (self st)) (b :: h) in
          Ok true
            (set_files
               (<[dstP :=
                    x ++ U8.range (fst kept) 0
                                  (u32 (Z.of_nat (length (fst kept))))
                      ++ U8.newline ++ snd kept]> (files st))
               (st_logged out st))
      | None => OutOfFuel
      end.
Proof.
  intros Hox Hne. unfold create_file_write.
  unfold bind at 1. unfold member at 1, get at 1.
  unfold bind at 1.
  destruct (verbose_run (mVerbose (self st))
    [" " +:+ sgr "90" +:+ "Creating " +:+ sgr "33" +:+ DQ; dstP;
     DQ +:+ sgr "90" +:+ "... "] st) as [out1 ->].
  unfold bind at 1. unfold fopen_create_always.
  apply String.eqb_neq in Hne. rewrite String.eqb_sym, Hne.
  unfold bind at 1.
  destruct (verbose_run (mVerbose (self st))
    [sgr "90" +:+ "Done." +:+ sgr "0" +:+ NL]
    (set_files (<[dstP:=[]]> (files (st_logged out1 st)))
               (st_logged out1 st))) as [out2 ->].
  rewrite freadline_cons. cbn [negb].
  rewrite st_logged_set_files, st_logged_logged.
  exists (out1 ++ out2).
  unfold bind at 1, member at 1, get at 1.
  unfold bind at 1, member at 1, get at 1.
  unfold bind at 1, member at 1, get at 1.
  unfold bind at 1. cbn [self files set_files set_self st_logged set_mCons
                         mCommentPrefix mReplace mNotice].
  rewrite skipped_run. cbv zeta.
  destruct (retained _ _ (b :: h)) as [l r]. cbn [fst snd] in *.
  unfold bind, on_files, modify, ret. cbn [files set_files self].
  rewrite Hox. destruct ox as [x|]; cbn [fmap option_fmap option_map];
    [|reflexivity].
  cbn [files set_files self].
  rewrite !fwrite_insert, copy_rest_all by lia.
  cbn [files set_files self app]. by rewrite <- !app_assoc.
Qed.

Lemma create_file_write_lines srcP dstP Fname b h st :
  srcP <> dstP ->
  Z.of_nat (length (mNotice (self st))) < 2 ^ 32 ->
  Z.of_nat (length (fst (retained (U8.c_str (mCommentPrefix (self st)))
                                  (mReplace (self st)) (b :: h)))) < 2 ^ 32 ->
  exists out,
    create_file_write srcP dstP Fname (b :: h) st
    = Ok true
        (set_files
           (<[dstP :=
                Spec.notice_block (U8.c_str (mCommentPrefix (self st)))
                                  (mNotice (self st))
                ++ fst (retained (U8.c_str (mCommentPrefix (self st)))
                                 (mReplace (self st)) (b :: h))
                ++ U8.newline
                ++ snd (retained (U8.c_str (mCommentPrefix (self st)))
                                 (mReplace (self st)) (b :: h))]> (files st))
           (st_logged out st)).
Proof.
  intros Hne Hnotice Hline.
  destruct (create_file_write_run srcP dstP Fname b h st
              (Some (Spec.notice_block (U8.c_str (mCommentPrefix (self st)))
                                       (mNotice (self st)))))
    as [out ->]; [|exact Hne|].
  - intros dstFile c fs. by rewrite write_notice_run.
  - exists out. cbv zeta. by rewrite range_all.
Qed.

(** ** The question before overwriting *)

Lemma ask_yesno_on_answer input c :
  fst <$> ask_yesno_on input c = answer input.
Proof.
  revert c. induction input as [|line input IH]; intros c; [reflexivity|].
  cbn [ask_yesno_on answer mLastRead].
  destruct (String.eqb line "y" || String.eqb line "yes"); [reflexivity|].
  destruct (String.eqb line "n" || String.eqb line "no"); [reflexivity|].
  apply IH.
Qed.

Lemma ask_yesno_answer c : fst <$> ask_yesno c = answer (pending c).
Proof. apply ask_yesno_on_answer. Qed.

(** ** The ways through [create_file] *)

Lemma create_file_throw Directories Fname st :
  files st !! srcPath Directories Fname = None ->
  create_file Directories Fname st = Throw ERROR_FILE_NOT_FOUND.
Proof.
  intros Hsrc. unfold create_file. fold (srcPath Directories Fname).
  unfold bind at 1, member at 1, get at 1. unfold bind at 1.
  destruct (verbose_run (mVerbose (self st))
    [" " +:+ sgr "90" +:+ "Opening  " +:+ sgr "33" +:+ DQ;
     srcPath Directories Fname; DQ +:+ sgr "90" +:+ "... "] st) as [out ->].
  unfold bind at 1, fopen_existing. cbn [files st_logged set_self].
  by rewrite Hsrc.
Qed.

Lemma create_file_opened Directories Fname st content :
  files st !! srcPath Directories Fname = Some content ->
  exists out,
    create_file Directories Fname st
    = (let continue :=
         create_file_write (srcPath Directories Fname)
                           (dstPath Directories Fname) Fname content in
       always <- member mAlwaysOverwriteFiles ;;
       if negb always then
         present <- get (fun st =>
                           fexists (dstPath Directories Fname) (files st)) ;;
         if present then
           write [sgr "94" +:+ "File " +:+ sgr "93" +:+ DQ;
                  dstPath Directories Fname;
                  DQ +:+ sgr "94" +:+ " already exists." +:+ sgr "0" +:+ NL] ;;
           write ["Do you want to overwrite this file and future files? (y/n)"
                  +:+ NL] ;;
           answer <- ask_yesno_mCons ;;
           if answer then
             modify (fun st =>
               set_self (set_mAlwaysOverwriteFiles true (self st)) st) ;;
             continue
           else ret false
         else continue
       else continue)%prog (st_logged out st).
Proof.
  intros Hsrc. unfold create_file.
  fold (srcPath Directories Fname). fold (dstPath Directories Fname).
  unfold bind at 1, member at 1, get at 1. unfold bind at 1.
  destruct (verbose_run (mVerbose (self st))
    [" " +:+ sgr "90" +:+ "Opening  " +:+ sgr "33" +:+ DQ;
     srcPath Directories Fname; DQ +:+ sgr "90" +:+ "... "] st) as [out1 ->].
  unfold bind at 1, fopen_existing. cbn [files st_logged set_self].
  rewrite Hsrc. fold (st_logged out1 st).
  unfold bind at 1.
  destruct (verbose_run (mVerbose (self st))
    [sgr "90" +:+ "Done." +:+ sgr "0" +:+ NL] (st_logged out1 st))
    as [out2 ->].
  rewrite st_logged_logged. by exists (out1 ++ out2).
Qed.

Lemma create_file_proceeds Directories Fname st content :
  files st !! srcPath Directories Fname = Some content ->
  mAlwaysOverwriteFiles (self st) = true
  \/ files st !! dstPath Directories Fname = None ->
  exists out,
    create_file Directories Fname st
    = create_file_write (srcPath Directories Fname)
                        (dstPath Directories Fname) Fname content
                        (st_logged out st).
Proof.
  intros Hsrc H. destruct (create_file_opened _ _ _ _ Hsrc) as [out ->].
  exists out. cbv zeta. unfold bind at 1, member at 1, get at 1.
  cbn [self st_logged set_self set_mCons mAlwaysOverwriteFiles].
  destruct (mAlwaysOverwriteFiles (self st)); [reflexivity|].
  destruct H as [H|H]; [discriminate|]. cbn [negb].
  unfold bind at 1, get at 1, fexists. cbn [files set_self st_logged].
  by rewrite H.
Qed.

Lemma create_file_asks Directories Fname st content old :
  files st !! srcPath Directories Fname = Some content ->
  mAlwaysOverwriteFiles (self st) = false ->
  files st !! dstPath Directories Fname = Some old ->
  exists out,
    create_file Directories Fname st
    = match ask_yesno (logged out (mCons (self st))) with
      | None => Blocked
      | Some (true, c) =>
          create_file_write (srcPath Directories Fname)
            (dstPath Directories Fname) Fname content
            (set_self (set_mAlwaysOverwriteFiles true
                         (set_mCons c (self st))) st)
      | Some (false, c) => Ok false (set_self (set_mCons c (self st)) st)
      end.
Proof.
  intros Hsrc Hask Hdst. destruct (create_file_opened _ _ _ _ Hsrc) as [out ->].
  cbv zeta. unfold bind at 1, member at 1, get at 1.
  cbn [self st_logged set_self set_mCons mAlwaysOverwriteFiles].
  rewrite Hask. cbn [negb].
  unfold bind at 1, get at 1, fexists. cbn [files set_self st_logged].
  rewrite Hdst. unfold bind at 1. rewrite write_run.
  unfold bind at 1. rewrite write_run.
  fold (st_logged out st). rewrite !st_logged_logged.
  unfold bind at 1, ask_yesno_mCons.
  cbn [self st_logged set_self set_mCons mCons].
  match goal with |- context [ask_yesno (logged ?o _)] => exists o end.
  destruct (ask_yesno _) as [[[|] c]|]; [|reflexivity..].
  unfold bind at 1, modify. reflexivity.
Qed.

(** ** What the rewrite writes depends on the notice, the prefix, the flag
    and the source only *)

Lemma write_notice_local fuel prefix notice o :
  exists ox : option (list byte),
    forall dstFile c (fs : gmap string (list byte)),
      write_notice fuel dstFile prefix notice o (<[dstFile := c]> fs)
      = (fun x => <[dstFile := c ++ x]> fs) <$> ox.
Proof.
  revert o. induction fuel as [|fuel IH]; intros o.
  - by exists None.
  - cbn [write_notice].
    set (e := match U8.find notice o with
              | Some pos => u32 pos
              | None => u32 (Z.of_nat (length notice))
              end).
    destruct (e =? u32 (Z.of_nat (length notice))).
    + eexists (Some _). intros dstFile c fs. rewrite !fwrite_insert.
      cbn. by rewrite <- !app_assoc.
    + destruct (IH (u32 (e + 2))) as [ox Hox].
      exists ((fun x => U8.c_str prefix
                        ++ U8.range notice o (u32 (e - o))
                        ++ U8.newline ++ x) <$> ox).
      intros dstFile c fs. rewrite !fwrite_insert, Hox.
      destruct ox; cbn; [|reflexivity]. by rewrite <- !app_assoc.
Qed.

Lemma create_file_write_same path Fname srcFile st :
  create_file_write path path Fname srcFile st = Throw ERROR_SHARING_VIOLATION.
Proof.
  unfold create_file_write.
  unfold bind at 1, member at 1, get at 1. unfold bind at 1.
  destruct (verbose_run (mVerbose (self st))
    [" " +:+ sgr "90" +:+ "Creating " +:+ sgr "33" +:+ DQ; path;
     DQ +:+ sgr "90" +:+ "... "] st) as [out ->].
  unfold bind at 1, fopen_create_always. by rewrite String.eqb_refl.
Qed.

Lemma create_file_write_local prefix replace notice content :
  exists r : option (list byte),
    forall srcP dstP Fname st,
      mCommentPrefix (self st) = prefix ->
      mReplace (self st) = replace ->
      mNotice (self st) = notice ->
      srcP <> dstP ->
      match r with
      | Some bytes =>
          exists out,
            create_file_write srcP dstP Fname content st
            = Ok true (set_files (<[dstP := bytes]> (files st))
                                 (st_logged out st))
      | None => create_file_write srcP dstP Fname content st = OutOfFuel
      end.
Proof.
  destruct content as [|b h].
  - exists (Some []). intros srcP dstP Fname st _ _ _ Hne.
    destruct (create_file_write_empty srcP dstP Fname st Hne) as [out ->].
    by eexists.
  - destruct (write_notice_local (S (length notice)) prefix notice 0)
      as [ox Hox].
    exists ((fun x =>
               x ++ U8.range (fst (retained (U8.c_str prefix) replace (b :: h)))
                      0 (u32 (Z.of_nat (length
                           (fst (retained (U8.c_str prefix) replace
                                          (b :: h))))))
                 ++ U8.newline
                 ++ snd (retained (U8.c_str prefix) replace (b :: h)))
            <$> ox).
    intros srcP dstP Fname st <- <- <- Hne.
    destruct (create_file_write_run srcP dstP Fname b h st ox Hox Hne)
      as [out ->].
    destruct ox as [x|]; cbn; [by exists out|reflexivity].
Qed.

(** A call of [create_file_write] that returns has created or truncated
    the destination and has otherwise only written to the console. *)
Lemma create_file_write_inv srcP dstP Fname srcFile st b st' :
  create_file_write srcP dstP Fname srcFile st = Ok b st' ->
  srcP <> dstP /\ b = true /\
  exists bytes out,
    st' = set_files (<[dstP := bytes]> (files st)) (st_logged out st).
Proof.
  intros H. destruct (decide (srcP = dstP)) as [->|Hne].
  - by rewrite create_file_write_same in H.
  - destruct (create_file_write_local (mCommentPrefix (self st))
                (mReplace (self st)) (mNotice (self st)) srcFile) as [r Hr].
    specialize (Hr srcP dstP Fname st eq_refl eq_refl eq_refl Hne).
    destruct r as [bytes|]; [|congruence].
    destruct Hr as [out Hr]. rewrite Hr in H. inversion H; subst. eauto.
Qed.

Lemma ask_yesno_on_written input c a c' :
  ask_yesno_on input c = Some (a, c') ->
  exists out, written c' = written c ++ out.
Proof.
  revert c. induction input as [|line input IH]; intros c H; [discriminate|].
  cbn [ask_yesno_on mLastRead] in H.
  destruct (String.eqb line "y" || String.eqb line "yes").
  { inversion H; subst. cbn. eauto. }
  destruct (String.eqb line "n" || String.eqb line "no").
  { inversion H; subst. cbn. eauto. }
  apply IH in H as [out ->]. cbn. rewrite <- !app_assoc. eauto.
Qed.

(** ** The rewrite, when it is not held back *)

Lemma create_file_goes_ahead Directories Fname st content :
  files st !! srcPath Directories Fname = Some content ->
  overwrite_allowed Directories Fname st ->
  exists st2,
    create_file Directories Fname st
    = create_file_write (srcPath Directories Fname)
                        (dstPath Directories Fname) Fname content st2
    /\ files st2 = files st
    /\ mCommentPrefix (self st2) = mCommentPrefix (self st)
    /\ mReplace (self st2) = mReplace (self st)
    /\ mNotice (self st2) = mNotice (self st)
    /\ exists out,
         written (mCons (self st2)) = written (mCons (self st)) ++ out.
Proof.
  intros Hsrc Hallowed.
  destruct (mAlwaysOverwriteFiles (self st)) eqn:Hflag.
  { destruct (create_file_proceeds _ _ _ _ Hsrc (or_introl Hflag))
      as [out ->].
    eexists. split; [reflexivity|]. cbn. eauto 10. }
  destruct (files st !! dstPath Directories Fname) as [old|] eqn:Hdst.
  2:{ destruct (create_file_proceeds _ _ _ _ Hsrc (or_intror Hdst))
        as [out ->].
      eexists. split; [reflexivity|]. cbn. eauto 10. }
  destruct Hallowed as [H|[H|Hyes]]; [congruence..|].
  destruct (create_file_asks _ _ _ _ _ Hsrc Hflag Hdst) as [out ->].
  pose proof (ask_yesno_answer (logged out (mCons (self st)))) as Ha.
  cbn [pending logged] in Ha. rewrite Hyes in Ha.
  destruct (ask_yesno _) as [[a c]|] eqn:E; [|discriminate].
  cbn in Ha. inversion Ha; subst a.
  eexists. split; [reflexivity|]. cbn.
  repeat (split; [reflexivity|]).
  apply ask_yesno_on_written in E as [out' ->]. cbn.
  rewrite <- app_assoc. eauto.
Qed.

Lemma drop_comments_length prefix ls :
  (length (Spec.unlines (Spec.drop_comments prefix ls))
   <= length (Spec.unlines ls))%nat.
Proof.
  induction ls as [|[l t] ls IH]; [reflexivity|].
  cbn [Spec.drop_comments fst]. destruct (U8.starts_with l prefix); [|lia].
  rewrite unlines_cons, !length_app. lia.
Qed.

Lemma kept_lines_length prefix replace content :
  (length (Spec.unlines (kept_lines prefix replace content))
   <= length content)%nat.
Proof.
  unfold kept_lines. rewrite <- (unlines_lines content) at 2.
  destruct (Spec.lines content) as [|[l t] ls]; [reflexivity|].
  destruct (U8.starts_with _ prefix && replace); [|lia].
  pose proof (drop_comments_length prefix ls).
  rewrite unlines_cons, !length_app. lia.
Qed.

Lemma retained_length prefix replace content :
  (length (fst (retained prefix replace content)) <= length content)%nat.
Proof.
  pose proof (kept_lines_length prefix replace content) as H.
  unfold retained. destruct (kept_lines prefix replace content) as [|[l t] ls].
  - simpl. lia.
  - rewrite unlines_cons, !length_app in H. simpl. lia.
Qed.

Lemma retained_kept prefix replace content l t ls :
  kept_lines prefix replace content = (l, t) :: ls ->
  retained prefix replace content = (l, Spec.unlines ls).
Proof. intros H. unfold retained. by rewrite H. Qed.

(** The destination after a rewrite that is not held back: empty for an
    empty source, and else the notice block, the first code line, a CRLF and
    the bytes after the first code line. *)
Lemma create_file_rewrites Directories Fname st content :
  files st !! srcPath Directories Fname = Some content ->
  srcPath Directories Fname <> dstPath Directories Fname ->
  overwrite_allowed Directories Fname st ->
  Z.of_nat (length (mNotice (self st))) < 2 ^ 32 ->
  Z.of_nat (length content) < 2 ^ 32 ->
  exists st',
    create_file Directories Fname st = Ok true st'
    /\ files st'
       = <[dstPath Directories Fname :=
             match content with
             | [] => []
             | _ :: _ =>
                 let kept := retained (U8.c_str (mCommentPrefix (self st)))
                                      (mReplace (self st)) content in
                 Spec.notice_block (U8.c_str (mCommentPrefix (self st)))
                                   (mNotice (self st))
                 ++ fst kept ++ U8.newline ++ snd kept
             end]> (files st).
Proof.
  intros Hsrc Hne Hallowed Hnotice Hcontent.
  destruct (create_file_goes_ahead _ _ _ _ Hsrc Hallowed)
    as (st2 & -> & Hfiles & Hprefix & Hreplace & Hnot & _).
  destruct content as [|b h].
  - destruct (create_file_write_empty _ _ Fname st2 Hne) as [out ->].
    eexists. split; [reflexivity|]. cbn. by rewrite Hfiles.
  - rewrite <- Hprefix, <- Hreplace, <- Hnot in *.
    destruct (create_file_write_lines _ _ Fname b h st2 Hne Hnotice)
      as [out ->].
    + pose proof (retained_length (U8.c_str (mCommentPrefix (self st2)))
                    (mReplace (self st2)) (b :: h)). lia.
    + eexists. split; [reflexivity|]. cbn. by rewrite Hfiles.
Qed.

(** ** The destination of a source whose first line is not a comment *)

Lemma lines_content content l t ls :
  Spec.lines content = (l, t) :: ls ->
  content = l ++ t ++ Spec.unlines ls /\ content <> [].
Proof.
  intros H. split.
  - by rewrite <- (unlines_lines content), H, unlines_cons.
  - intros ->. discriminate.
Qed.

(** C1, as amended.  For a source file whose first line does not start with
    the comment prefix, the destination is the notice block, the first line,
    a CRLF and the bytes after the terminator of the first line, whatever
    [mReplace] is; it is the notice block followed by the original content
    exactly when the first line ends with a CRLF. *)
Theorem C1_first_line_not_comment Directories Fname st content l t ls :
  files st !! srcPath Directories Fname = Some content ->
  srcPath Directories Fname <> dstPath Directories Fname ->
  overwrite_allowed Directories Fname st ->
  Z.of_nat (length (mNotice (self st))) < 2 ^ 32 ->
  Z.of_nat (length content) < 2 ^ 32 ->
  Spec.lines content = (l, t) :: ls ->
  U8.starts_with l (U8.c_str (mCommentPrefix (self st))) = false ->
  exists st',
    create_file Directories Fname st = Ok true st'
    /\ files st' !! dstPath Directories Fname
       = Some (Spec.notice_block (U8.c_str (mCommentPrefix (self st)))
                                 (mNotice (self st))
               ++ l ++ U8.newline ++ Spec.unlines ls)
    /\ (t = U8.newline <->
        files st' !! dstPath Directories Fname
        = Some (Spec.notice_block (U8.c_str (mCommentPrefix (self st)))
                                  (mNotice (self st))
                ++ content)).
Proof.
  intros Hsrc Hne Hallowed Hnotice Hcontent Hlines Hfirst.
  destruct (create_file_rewrites _ _ _ _ Hsrc Hne Hallowed Hnotice Hcontent)
    as (st' & Hrun & Hfiles).
  destruct (lines_content _ _ _ _ Hlines) as [Hsplit Hnonempty].
  exists st'. split; [exact Hrun|].
  assert (retained (U8.c_str (mCommentPrefix (self st))) (mReplace (self st))
                   content = (l, Spec.unlines ls)) as Hkept.
  { apply retained_kept with t. unfold kept_lines.
    rewrite Hlines. cbn [fst]. by rewrite Hfirst. }
  rewrite Hfiles, lookup_insert_eq.
  destruct content as [|b h]; [done|]. cbv zeta. rewrite Hkept. cbn [fst snd].
  split; [reflexivity|]. rewrite Hsplit. split.
  - by intros ->.
  - intros H. injection H as H'.
    apply app_inv_head, app_inv_head in H'.
    change (U8.CR :: U8.LF :: Spec.unlines ls)
      with (U8.newline ++ Spec.unlines ls) in H'.
    apply app_inv_tail in H'. by symmetry.
Qed.

(** The premises of C1 hold for the file [abc] and a CRLF, and the
    destination is the notice block and the file. *)
Lemma C1_first_line_not_comment_witness :
  exists st',
    create_file Example.Directories "a.c"
      (Example.fresh (U8.lit "N") (U8.lit "abc" ++ U8.newline) true)
    = Ok true st'
    /\ files st' !! "out\a.c"
       = Some (U8.lit "// N" ++ U8.newline ++ U8.lit "abc" ++ U8.newline).
Proof.
  destruct (C1_first_line_not_comment Example.Directories "a.c"
              (Example.fresh (U8.lit "N") (U8.lit "abc" ++ U8.newline) true)
              (U8.lit "abc" ++ U8.newline) (U8.lit "abc") U8.newline [])
    as (st' & Hrun & Hfiles & _).
  - reflexivity.
  - discriminate.
  - right. left. reflexivity.
  - reflexivity.
  - reflexivity.
  - reflexivity.
  - reflexivity.
  - exists st'. split; [exact Hrun|exact Hfiles].
Defined.

(** C1 as it is stated fails: the file [abc], whose only line nothing
    terminates, becomes the notice block, [abc] and a CRLF. *)
Lemma C1_counterexample :
  ~ (forall Directories Fname st content l t ls,
       files st !! srcPath Directories Fname = Some content ->
       srcPath Directories Fname <> dstPath Directories Fname ->
       overwrite_allowed Directories Fname st ->
       Z.of_nat (length (mNotice (self st))) < 2 ^ 32 ->
       Z.of_nat (length content) < 2 ^ 32 ->
       Spec.lines content = (l, t) :: ls ->
       U8.starts_with l (U8.c_str (mCommentPrefix (self st))) = false ->
       exists st',
         create_file Directories Fname st = Ok true st'
         /\ files st' !! dstPath Directories Fname
            = Some (Spec.notice_block (U8.c_str (mCommentPrefix (self st)))
                                      (mNotice (self st))
                    ++ content)).
Proof.
  intros H.
  destruct (H Example.Directories "a.c"
              (Example.fresh (U8.lit "N") (U8.lit "abc") false)
              (U8.lit "abc") (U8.lit "abc") [] [])
    as (st' & Hrun & Hfiles);
    [reflexivity|discriminate|right; left; reflexivity|reflexivity..|].
  vm_compute in Hrun. inversion Hrun; subst st'.
  vm_compute in Hfiles. discriminate Hfiles.
Qed.

(** ** The segments of a notice *)

Lemma split_crlf_cons2 a b text :
  Spec.split_crlf (a :: b :: text)
  = if Byte.eqb a U8.CR && Byte.eqb b U8.LF then [] :: Spec.split_crlf text
    else Spec.push a (Spec.split_crlf (b :: text)).
Proof. reflexivity. Qed.

Lemma has_crlf_cons2 a b text :
  Spec.has_crlf (a :: b :: text)
  = (Byte.eqb a U8.CR && Byte.eqb b U8.LF) || Spec.has_crlf (b :: text).
Proof. reflexivity. Qed.

(** [has_crlf] finds a CRLF exactly when the text has one. *)
Lemma has_crlf_true text :
  Spec.has_crlf text = true <->
  exists before after, text = before ++ U8.newline ++ after.
Proof.
  split.
  - induction text as [|a|a b text IH1 IH2] using list_pair_ind;
      [discriminate..|].
    rewrite has_crlf_cons2. intros H. apply orb_prop in H as [H|H].
    + apply andb_prop in H as [Ea Eb]. apply byte_dec_bl in Ea, Eb. subst.
      by exists [], text.
    + destruct (IH2 H) as (before & after & ->). by exists (a :: before), after.
  - intros (before & after & ->).
    induction before as [|a before IH]; [reflexivity|].
    destruct before as [|b before].
    + change (Spec.has_crlf ([a] ++ U8.newline ++ after))
        with (Spec.has_crlf (a :: U8.CR :: U8.LF :: after)).
      rewrite has_crlf_cons2. apply orb_true_r.
    + change (Spec.has_crlf ((a :: b :: before) ++ U8.newline ++ after))
        with (Spec.has_crlf (a :: b :: (before ++ U8.newline ++ after))).
      rewrite has_crlf_cons2. change (b :: before ++ U8.newline ++ after)
        with ((b :: before) ++ U8.newline ++ after).
      rewrite IH. apply orb_true_r.
Qed.

Lemma crlf_free_tail a segment :
  Spec.crlf_free (a :: segment) -> Spec.crlf_free segment.
Proof.
  unfold Spec.crlf_free. destruct segment as [|b segment]; [done|].
  rewrite has_crlf_cons2. by intros [_ H]%orb_false_elim.
Qed.

Lemma crlf_free_head a b segment :
  Spec.crlf_free (a :: b :: segment) ->
  Byte.eqb a U8.CR && Byte.eqb b U8.LF = false.
Proof.
  unfold Spec.crlf_free. rewrite has_crlf_cons2.
  by intros [H _]%orb_false_elim.
Qed.

(** A segment without a CRLF, a CRLF and more text: the segment is the
    first one of the split. *)
Lemma split_crlf_app segment text :
  Spec.crlf_free segment ->
  Spec.split_crlf (segment ++ U8.newline ++ text)
  = segment :: Spec.split_crlf text.
Proof.
  induction segment as [|a segment IH]; intros Hfree; [reflexivity|].
  destruct segment as [|b segment].
  - change (Spec.split_crlf ([a] ++ U8.newline ++ text))
      with (Spec.split_crlf (a :: U8.CR :: U8.LF :: text)).
    rewrite split_crlf_cons2. cbn [Byte.eqb]. rewrite andb_false_r.
    reflexivity.
  - change ((a :: b :: segment) ++ U8.newline ++ text)
      with (a :: b :: (segment ++ U8.newline ++ text)).
    rewrite split_crlf_cons2, (crlf_free_head _ _ _ Hfree).
    change (b :: segment ++ U8.newline ++ text)
      with ((b :: segment) ++ U8.newline ++ text).
    by rewrite IH by (by apply crlf_free_tail in Hfree).
Qed.

Lemma split_crlf_free segment :
  Spec.crlf_free segment -> Spec.split_crlf segment = [segment].
Proof.
  induction segment as [|a segment IH]; intros Hfree; [reflexivity|].
  destruct segment as [|b segment]; [reflexivity|].
  rewrite split_crlf_cons2, (crlf_free_head _ _ _ Hfree).
  by rewrite IH by (by apply crlf_free_tail in Hfree).
Qed.

(** The split of a text is the only way to write the text as segments
    without a CRLF that CRLFs separate. *)
Lemma split_crlf_join segments :
  segments <> [] ->
  Forall Spec.crlf_free segments ->
  Spec.split_crlf (Spec.join_crlf segments) = segments.
Proof.
  induction segments as [|segment segments IH]; intros Hne Hfree; [done|].
  apply Forall_cons in Hfree as [Hfree Hfrees].
  destruct segments as [|segment' segments].
  - by apply split_crlf_free.
  - change (Spec.join_crlf (segment :: segment' :: segments))
      with (segment ++ U8.newline ++ Spec.join_crlf (segment' :: segments)).
    rewrite split_crlf_app by exact Hfree. by rewrite IH.
Qed.

Lemma join_crlf_push a segments :
  segments <> [] ->
  Spec.join_crlf (Spec.push a segments) = a :: Spec.join_crlf segments.
Proof. destruct segments as [|s [|s' ss]]; done. Qed.

Lemma split_crlf_nonempty text : Spec.split_crlf text <> [].
Proof.
  induction text as [|a|a b text IH1 IH2] using list_pair_ind; [done..|].
  rewrite split_crlf_cons2.
  destruct (Byte.eqb a U8.CR && Byte.eqb b U8.LF); [done|].
  by destruct (Spec.split_crlf (b :: text)).
Qed.

(** The segments of a text, joined, are the text. *)
Lemma join_crlf_split text : Spec.join_crlf (Spec.split_crlf text) = text.
Proof.
  induction text as [|a|a b text IH1 IH2] using list_pair_ind;
    [reflexivity..|].
  rewrite split_crlf_cons2.
  destruct (Byte.eqb a U8.CR && Byte.eqb b U8.LF) eqn:E.
  - apply andb_prop in E as [Ea Eb]. apply byte_dec_bl in Ea, Eb. subst.
    pose proof (split_crlf_nonempty text).
    destruct (Spec.split_crlf text) as [|s ss] eqn:Es; [done|].
    change (Spec.join_crlf ([] :: s :: ss))
      with ([] ++ U8.newline ++ Spec.join_crlf (s :: ss)).
    by rewrite IH1.
  - rewrite join_crlf_push by apply split_crlf_nonempty. by rewrite IH2.
Qed.


Lemma push_app a segments more :
  segments <> [] ->
  Spec.push a (segments ++ more) = Spec.push a segments ++ more.
Proof. by destruct segments. Qed.

(** A text that ends with a CRLF has an empty last segment. *)
Lemma split_crlf_trailing text :
  Spec.split_crlf (text ++ U8.newline) = Spec.split_crlf text ++ [[]].
Proof.
  induction text as [|a|a b text IH1 IH2] using list_pair_ind.
  - reflexivity.
  - change (Spec.split_crlf ([a] ++ U8.newline))
      with (Spec.split_crlf (a :: U8.CR :: [U8.LF])).
    rewrite split_crlf_cons2. cbn [Byte.eqb]. by rewrite andb_false_r.
  - change ((a :: b :: text) ++ U8.newline)
      with (a :: b :: (text ++ U8.newline)).
    rewrite !split_crlf_cons2.
    destruct (Byte.eqb a U8.CR && Byte.eqb b U8.LF).
    + by rewrite IH1.
    + change (b :: text ++ U8.newline) with ((b :: text) ++ U8.newline).
      rewrite IH2. apply push_app, split_crlf_nonempty.
Qed.

(** ** The notice block in the destination *)

(** C2.  For a notice that CRLFs split into the segments [segments], the
    destination of a source that is not empty begins with one line per
    segment, in order, each the comment prefix, the segment and a CRLF; the
    last of them is the prefix alone when the notice ends with a CRLF. *)
Theorem C2_notice_lines Directories Fname st content segments :
  files st !! srcPath Directories Fname = Some content ->
  content <> [] ->
  srcPath Directories Fname <> dstPath Directories Fname ->
  overwrite_allowed Directories Fname st ->
  Z.of_nat (length (mNotice (self st))) < 2 ^ 32 ->
  Z.of_nat (length content) < 2 ^ 32 ->
  segments <> [] ->
  Forall Spec.crlf_free segments ->
  mNotice (self st) = Spec.join_crlf segments ->
  exists st',
    create_file Directories Fname st = Ok true st'
    /\ files st' !! dstPath Directories Fname
       = Some (concat (map (fun segment =>
                              U8.c_str (mCommentPrefix (self st))
                              ++ segment ++ U8.newline) segments)
               ++ fst (retained (U8.c_str (mCommentPrefix (self st)))
                                (mReplace (self st)) content)
               ++ U8.newline
               ++ snd (retained (U8.c_str (mCommentPrefix (self st)))
                                (mReplace (self st)) content))
    /\ (forall text,
          mNotice (self st) = text ++ U8.newline ->
          exists segments', segments = segments' ++ [[]]).
Proof.
  intros Hsrc Hnonempty Hne Hallowed Hnotice Hcontent Hsegs Hfree Hjoin.
  destruct (create_file_rewrites _ _ _ _ Hsrc Hne Hallowed Hnotice Hcontent)
    as (st' & Hrun & Hfiles).
  exists st'. split; [exact Hrun|]. split.
  - rewrite Hfiles, lookup_insert_eq.
    destruct content as [|b h]; [done|]. cbv zeta.
    unfold Spec.notice_block, Spec.comment_line.
    by rewrite Hjoin, split_crlf_join.
  - intros text Htext. exists (Spec.split_crlf text).
    rewrite <- split_crlf_trailing, <- Htext, Hjoin.
    by rewrite split_crlf_join.
Qed.

(** C2 at the notice [N1], CRLF, [N2], CRLF: three comment lines, the last
    one empty. *)
Lemma C2_notice_lines_witness :
  exists st',
    create_file Example.Directories "a.c"
      (Example.fresh (U8.lit "N1" ++ U8.newline ++ U8.lit "N2" ++ U8.newline)
                     (U8.lit "x") false)
    = Ok true st'
    /\ files st' !! "out\a.c"
       = Some (U8.lit "// N1" ++ U8.newline ++ U8.lit "// N2" ++ U8.newline
               ++ U8.lit "// " ++ U8.newline ++ U8.lit "x" ++ U8.newline).
Proof.
  destruct (C2_notice_lines Example.Directories "a.c"
              (Example.fresh
                 (U8.lit "N1" ++ U8.newline ++ U8.lit "N2" ++ U8.newline)
                 (U8.lit "x") false)
              (U8.lit "x") [U8.lit "N1"; U8.lit "N2"; []])
    as (st' & Hrun & Hfiles & _).
  - reflexivity.
  - discriminate.
  - discriminate.
  - right. left. reflexivity.
  - reflexivity.
  - reflexivity.
  - discriminate.
  - repeat constructor.
  - reflexivity.
  - exists st'. split; [exact Hrun|exact Hfiles].
Defined.

(** C9.  With an empty notice the rewrite goes through, and the notice block
    is one line: the comment prefix and a CRLF, before what is kept of the
    source. *)
Theorem C9_empty_notice Directories Fname st content :
  files st !! srcPath Directories Fname = Some content ->
  content <> [] ->
  srcPath Directories Fname <> dstPath Directories Fname ->
  overwrite_allowed Directories Fname st ->
  Z.of_nat (length content) < 2 ^ 32 ->
  mNotice (self st) = [] ->
  exists st',
    create_file Directories Fname st = Ok true st'
    /\ files st' !! dstPath Directories Fname
       = Some ((U8.c_str (mCommentPrefix (self st)) ++ U8.newline)
               ++ fst (retained (U8.c_str (mCommentPrefix (self st)))
                                (mReplace (self st)) content)
               ++ U8.newline
               ++ snd (retained (U8.c_str (mCommentPrefix (self st)))
                                (mReplace (self st)) content)).
Proof.
  intros Hsrc Hnonempty Hne Hallowed Hcontent Hnotice.
  destruct (create_file_rewrites _ _ _ _ Hsrc Hne Hallowed) as (st' & Hrun & Hfiles);
    [by rewrite Hnotice|exact Hcontent|].
  exists st'. split; [exact Hrun|].
  rewrite Hfiles, lookup_insert_eq.
  destruct content as [|b h]; [done|]. cbv zeta. rewrite Hnotice.
  unfold Spec.notice_block, Spec.comment_line. cbn [Spec.split_crlf map concat].
  by rewrite !app_nil_r.
Qed.

(** C9 at the source [x]: the destination is [// ], CRLF, [x], CRLF. *)
Lemma C9_empty_notice_witness :
  exists st',
    create_file Example.Directories "a.c"
      (Example.fresh [] (U8.lit "x") false)
    = Ok true st'
    /\ files st' !! "out\a.c"
       = Some (U8.lit "// " ++ U8.newline ++ U8.lit "x" ++ U8.newline).
Proof.
  destruct (C9_empty_notice Example.Directories "a.c"
              (Example.fresh [] (U8.lit "x") false) (U8.lit "x"))
    as (st' & Hrun & Hfiles).
  - reflexivity.
  - discriminate.
  - discriminate.
  - right. left. reflexivity.
  - reflexivity.
  - reflexivity.
  - exists st'. split; [exact Hrun|exact Hfiles].
Defined.

(** ** The first code line in the destination *)

Lemma unlines_app ls ls' :
  Spec.unlines (ls ++ ls') = Spec.unlines ls ++ Spec.unlines ls'.
Proof. unfold Spec.unlines. by rewrite map_app, concat_app. Qed.

Lemma lines_terminators content :
  Forall (fun l => Spec.terminator (snd l)) (Spec.lines content).
Proof.
  assert (forall b ls, Forall (fun l => Spec.terminator (snd l)) ls ->
            Forall (fun l => Spec.terminator (snd l)) (Spec.push_line b ls))
    as Hpush.
  { intros b [|[l t] ls] H; cbn.
    - constructor; [|constructor]. unfold Spec.terminator. cbn. auto.
    - apply Forall_cons in H as [H Hs]. by constructor. }
  assert (Spec.terminator U8.newline /\ Spec.terminator [U8.LF]
          /\ Spec.terminator []) as (Hcrlf & Hlf & Hnone).
  { unfold Spec.terminator. auto. }
  induction content as [|a|a b text IH1 IH2] using list_pair_ind.
  - constructor.
  - cbn. destruct (Byte.eqb a U8.LF); by repeat constructor.
  - rewrite lines_cons2. destruct (Byte.eqb a U8.LF).
    + by constructor.
    + destruct (Byte.eqb a U8.CR && Byte.eqb b U8.LF).
      * by constructor.
      * by apply Hpush.
Qed.

Lemma drop_comments_suffix prefix ls :
  exists skipped, ls = skipped ++ Spec.drop_comments prefix ls.
Proof.
  induction ls as [|l ls [skipped IH]].
  - by exists [].
  - cbn [Spec.drop_comments]. destruct (U8.starts_with (fst l) prefix).
    + exists (l :: skipped). cbn. by rewrite <- IH.
    + by exists [].
Qed.

Lemma kept_lines_suffix prefix replace content :
  exists skipped,
    Spec.lines content = skipped ++ kept_lines prefix replace content.
Proof.
  unfold kept_lines. destruct (Spec.lines content) as [|l ls]; [by exists []|].
  destruct (U8.starts_with (fst l) prefix && replace); [|by exists []].
  destruct (drop_comments_suffix prefix ls) as [skipped H].
  exists (l :: skipped). cbn. by rewrite <- H.
Qed.

(** C10.  For a source file that is not empty, the destination is the notice
    block, the first code line, a CRLF, and the bytes of the source after
    the terminator of that line, unchanged: the CRLF is written whether the
    line ended, in the source, with a CRLF, with a bare LF or with
    nothing. *)
Theorem C10_first_code_line Directories Fname st content :
  files st !! srcPath Directories Fname = Some content ->
  content <> [] ->
  srcPath Directories Fname <> dstPath Directories Fname ->
  overwrite_allowed Directories Fname st ->
  Z.of_nat (length (mNotice (self st))) < 2 ^ 32 ->
  Z.of_nat (length content) < 2 ^ 32 ->
  exists st',
    create_file Directories Fname st = Ok true st'
    /\ files st' !! dstPath Directories Fname
       = Some (Spec.notice_block (U8.c_str (mCommentPrefix (self st)))
                                 (mNotice (self st))
               ++ fst (retained (U8.c_str (mCommentPrefix (self st)))
                                (mReplace (self st)) content)
               ++ U8.newline
               ++ snd (retained (U8.c_str (mCommentPrefix (self st)))
                                (mReplace (self st)) content))
    /\ (forall l t ls,
          kept_lines (U8.c_str (mCommentPrefix (self st)))
                     (mReplace (self st)) content = (l, t) :: ls ->
          retained (U8.c_str (mCommentPrefix (self st)))
                   (mReplace (self st)) content = (l, Spec.unlines ls)
          /\ Spec.terminator t
          /\ exists skipped, content = skipped ++ l ++ t ++ Spec.unlines ls).
Proof.
  intros Hsrc Hnonempty Hne Hallowed Hnotice Hcontent.
  destruct (create_file_rewrites _ _ _ _ Hsrc Hne Hallowed Hnotice Hcontent)
    as (st' & Hrun & Hfiles).
  exists st'. split; [exact Hrun|]. split.
  - rewrite Hfiles, lookup_insert_eq. by destruct content.
  - intros l t ls Hkept. split; [by apply retained_kept with t|].
    destruct (kept_lines_suffix (U8.c_str (mCommentPrefix (self st)))
                (mReplace (self st)) content) as [skipped Hsuffix].
    rewrite Hkept in Hsuffix. split.
    + pose proof (lines_terminators content) as Hall.
      rewrite Hsuffix in Hall. apply Forall_app in Hall as [_ Hall].
      by apply Forall_cons in Hall as [Hall _].
    + exists (Spec.unlines skipped).
      by rewrite <- (unlines_lines content), Hsuffix, unlines_app,
        unlines_cons.
Qed.

(** C10 at the source [a], LF, [b]: the first line gets a CRLF, and [b]
    follows as it is. *)
Lemma C10_first_code_line_witness :
  exists st',
    create_file Example.Directories "a.c"
      (Example.fresh (U8.lit "N") (U8.lit "a" ++ [U8.LF] ++ U8.lit "b") false)
    = Ok true st'
    /\ files st' !! "out\a.c"
       = Some (U8.lit "// N" ++ U8.newline ++ U8.lit "a" ++ U8.newline
               ++ U8.lit "b").
Proof.
  destruct (C10_first_code_line Example.Directories "a.c"
              (Example.fresh (U8.lit "N")
                             (U8.lit "a" ++ [U8.LF] ++ U8.lit "b") false)
              (U8.lit "a" ++ [U8.LF] ++ U8.lit "b"))
    as (st' & Hrun & Hfiles & _).
  - reflexivity.
  - discriminate.
  - discriminate.
  - right. left. reflexivity.
  - reflexivity.
  - reflexivity.
  - exists st'. split; [exact Hrun|exact Hfiles].
Defined.

(** ** The destination of a source that begins with comment lines *)

(** C3, as amended.  For a source file whose first line starts with the
    comment prefix: with [mReplace] and a line after the leading comment
    lines, the destination is the notice block, that line, a CRLF and the
    bytes after the terminator of that line, which is the notice block and
    the source without its leading comment lines exactly when that line
    ends with a CRLF; without [mReplace], the destination is the notice
    block, the first line, a CRLF and the bytes after the terminator of the
    first line, which is the notice block and the original content exactly
    when the first line ends with a CRLF. *)
Theorem C3_leading_comments Directories Fname st content l1 t1 ls1 :
  files st !! srcPath Directories Fname = Some content ->
  srcPath Directories Fname <> dstPath Directories Fname ->
  overwrite_allowed Directories Fname st ->
  Z.of_nat (length (mNotice (self st))) < 2 ^ 32 ->
  Z.of_nat (length content) < 2 ^ 32 ->
  Spec.lines content = (l1, t1) :: ls1 ->
  U8.starts_with l1 (U8.c_str (mCommentPrefix (self st))) = true ->
  exists st',
    create_file Directories Fname st = Ok true st'
    /\ (mReplace (self st) = true ->
        forall l t ls,
          Spec.drop_comments (U8.c_str (mCommentPrefix (self st)))
                             (Spec.lines content) = (l, t) :: ls ->
          files st' !! dstPath Directories Fname
          = Some (Spec.notice_block (U8.c_str (mCommentPrefix (self st)))
                                    (mNotice (self st))
                  ++ l ++ U8.newline ++ Spec.unlines ls)
          /\ (t = U8.newline <->
              files st' !! dstPath Directories Fname
              = Some (Spec.notice_block (U8.c_str (mCommentPrefix (self st)))
                                        (mNotice (self st))
                      ++ Spec.strip_comments
                           (U8.c_str (mCommentPrefix (self st))) content)))
    /\ (mReplace (self st) = false ->
        files st' !! dstPath Directories Fname
        = Some (Spec.notice_block (U8.c_str (mCommentPrefix (self st)))
                                  (mNotice (self st))
                ++ l1 ++ U8.newline ++ Spec.unlines ls1)
        /\ (t1 = U8.newline <->
            files st' !! dstPath Directories Fname
            = Some (Spec.notice_block (U8.c_str (mCommentPrefix (self st)))
                                      (mNotice (self st))
                    ++ content))).
Proof.
  intros Hsrc Hne Hallowed Hnotice Hcontent Hlines Hfirst.
  destruct (create_file_rewrites _ _ _ _ Hsrc Hne Hallowed Hnotice Hcontent)
    as (st' & Hrun & Hfiles).
  destruct (lines_content _ _ _ _ Hlines) as [Hsplit Hnonempty].
  exists st'. split; [exact Hrun|].
  rewrite Hfiles, lookup_insert_eq.
  destruct content as [|b h]; [done|]. cbv zeta.
  split; intros Hreplace.
  - intros l t ls Hdrop.
    assert (retained (U8.c_str (mCommentPrefix (self st)))
                     (mReplace (self st)) (b :: h) = (l, Spec.unlines ls))
      as ->.
    { apply retained_kept with t. unfold kept_lines.
      rewrite Hlines in *. cbn [fst Spec.drop_comments] in *.
      by rewrite Hfirst, Hreplace in *. }
    cbn [fst snd]. split; [reflexivity|].
    unfold Spec.strip_comments. rewrite Hdrop, unlines_cons. split.
    + by intros ->.
    + intros H. injection H as H'.
      apply app_inv_head, app_inv_head in H'.
      change (U8.CR :: U8.LF :: Spec.unlines ls)
        with (U8.newline ++ Spec.unlines ls) in H'.
      apply app_inv_tail in H'. by symmetry.
  - assert (retained (U8.c_str (mCommentPrefix (self st)))
                     (mReplace (self st)) (b :: h) = (l1, Spec.unlines ls1))
      as ->.
    { apply retained_kept with t1. unfold kept_lines.
      rewrite Hlines. cbn [fst]. by rewrite Hreplace, andb_false_r. }
    cbn [fst snd]. split; [reflexivity|]. rewrite Hsplit. split.
    + by intros ->.
    + intros H. injection H as H'.
      apply app_inv_head, app_inv_head in H'.
      change (U8.CR :: U8.LF :: Spec.unlines ls1)
        with (U8.newline ++ Spec.unlines ls1) in H'.
      apply app_inv_tail in H'. by symmetry.
Qed.

(** C3 at the source [// old], CRLF, [int x;], CRLF with [mReplace]: the
    old comment is gone. *)
Lemma C3_leading_comments_witness :
  exists st',
    create_file Example.Directories "a.c"
      (Example.fresh (U8.lit "N")
         (U8.lit "// old" ++ U8.newline ++ U8.lit "int x;" ++ U8.newline) true)
    = Ok true st'
    /\ files st' !! "out\a.c"
       = Some (U8.lit "// N" ++ U8.newline ++ U8.lit "int x;" ++ U8.newline).
Proof.
  destruct (C3_leading_comments Example.Directories "a.c"
              (Example.fresh (U8.lit "N")
                 (U8.lit "// old" ++ U8.newline ++ U8.lit "int x;"
                  ++ U8.newline) true)
              (U8.lit "// old" ++ U8.newline ++ U8.lit "int x;" ++ U8.newline)
              (U8.lit "// old") U8.newline [(U8.lit "int x;", U8.newline)])
    as (st' & Hrun & Hreplace & _).
  - reflexivity.
  - discriminate.
  - right. left. reflexivity.
  - reflexivity.
  - reflexivity.
  - reflexivity.
  - reflexivity.
  - exists st'. split; [exact Hrun|].
    destruct (Hreplace eq_refl (U8.lit "int x;") U8.newline [] eq_refl)
      as [Hfiles _].
    exact Hfiles.
Defined.

(** C3 as it is stated fails, in both halves.  With [mReplace], the source
    [// old], CRLF, [int x;] becomes the notice block, [int x;] and a CRLF
    that the stripped source does not have; without it, the source [// old]
    becomes the notice block, [// old] and a CRLF. *)
Lemma C3_counterexample :
  ~ (forall Directories Fname st content l1 t1 ls1,
       files st !! srcPath Directories Fname = Some content ->
       srcPath Directories Fname <> dstPath Directories Fname ->
       overwrite_allowed Directories Fname st ->
       Z.of_nat (length (mNotice (self st))) < 2 ^ 32 ->
       Z.of_nat (length content) < 2 ^ 32 ->
       Spec.lines content = (l1, t1) :: ls1 ->
       U8.starts_with l1 (U8.c_str (mCommentPrefix (self st))) = true ->
       mReplace (self st) = true ->
       exists st',
         create_file Directories Fname st = Ok true st'
         /\ files st' !! dstPath Directories Fname
            = Some (Spec.notice_block (U8.c_str (mCommentPrefix (self st)))
                                      (mNotice (self st))
                    ++ Spec.strip_comments
                         (U8.c_str (mCommentPrefix (self st))) content))
  /\ ~ (forall Directories Fname st content l1 t1 ls1,
       files st !! srcPath Directories Fname = Some content ->
       srcPath Directories Fname <> dstPath Directories Fname ->
       overwrite_allowed Directories Fname st ->
       Z.of_nat (length (mNotice (self st))) < 2 ^ 32 ->
       Z.of_nat (length content) < 2 ^ 32 ->
       Spec.lines content = (l1, t1) :: ls1 ->
       U8.starts_with l1 (U8.c_str (mCommentPrefix (self st))) = true ->
       mReplace (self st) = false ->
       exists st',
         create_file Directories Fname st = Ok true st'
         /\ files st' !! dstPath Directories Fname
            = Some (Spec.notice_block (U8.c_str (mCommentPrefix (self st)))
                                      (mNotice (self st))
                    ++ content)).
Proof.
  split; intros H.
  - destruct (H Example.Directories "a.c"
                (Example.fresh (U8.lit "N")
                   (U8.lit "// old" ++ U8.newline ++ U8.lit "int x;") true)
                (U8.lit "// old" ++ U8.newline ++ U8.lit "int x;")
                (U8.lit "// old") U8.newline [(U8.lit "int x;", [])])
      as (st' & Hrun & Hfiles);
      [reflexivity|discriminate|right; left; reflexivity|reflexivity..|].
    vm_compute in Hrun. inversion Hrun; subst st'.
    vm_compute in Hfiles. discriminate Hfiles.
  - destruct (H Example.Directories "a.c"
                (Example.fresh (U8.lit "N") (U8.lit "// old") false)
                (U8.lit "// old") (U8.lit "// old") [] [])
      as (st' & Hrun & Hfiles);
      [reflexivity|discriminate|right; left; reflexivity|reflexivity..|].
    vm_compute in Hrun. inversion Hrun; subst st'.
    vm_compute in Hfiles. discriminate Hfiles.
Qed.

(** ** An empty source file *)

Lemma overwrite_allowed_logged Directories Fname out st :
  overwrite_allowed Directories Fname st ->
  overwrite_allowed Directories Fname (st_logged out st).
Proof. by unfold overwrite_allowed. Qed.

Lemma create_file_empty Directories Fname st :
  files st !! srcPath Directories Fname = Some [] ->
  srcPath Directories Fname <> dstPath Directories Fname ->
  overwrite_allowed Directories Fname st ->
  exists st' out,
    create_file Directories Fname st = Ok true st'
    /\ written (mCons (self st'))
       = written (mCons (self st)) ++ out
         ++ [sgr "1;31" +:+ "Source file "; Fname;
             " is empty." +:+ sgr "0" +:+ NL]
    /\ files st' = <[dstPath Directories Fname := []]> (files st).
Proof.
  intros Hsrc Hne Hallowed.
  destruct (create_file_goes_ahead _ _ _ _ Hsrc Hallowed)
    as (st2 & -> & Hfiles & _ & _ & _ & out1 & Hout1).
  destruct (create_file_write_empty _ _ Fname st2 Hne) as [out2 ->].
  eexists. exists (out1 ++ out2). split; [reflexivity|]. cbn.
  by rewrite Hout1, Hfiles, <- !app_assoc.
Qed.

(** The body of the loop of [iterate] for a plain file. *)
Lemma iterate_entries_one Directories findData filesCreated st created st' :
  plain_file findData ->
  create_file Directories (cFileName findData) st = Ok created st' ->
  iterate_entries Directories [findData] filesCreated st
  = Ok (if created then u32 (filesCreated + 1) else filesCreated) st'.
Proof.
  intros [Hhidden Hdirectory] Hrun. cbn [iterate_entries].
  rewrite Hhidden, Hdirectory. unfold bind. rewrite Hrun.
  by destruct created.
Qed.

(** [iterate] over a directory where the search finds one plain file. *)
Lemma iterate_one FindFiles Directories Extension findData st :
  plain_file findData ->
  FindFiles (files st) (targetFilename Directories Extension)
  = {| entries := [findData]; last_error := ERROR_NO_MORE_FILES |} ->
  exists out,
    iterate FindFiles Directories Extension st
    = match create_file Directories (cFileName findData) (st_logged out st) with
      | Ok created st' =>
          Ok (if created then 1 else 0)
             (st_logged [sgr "32;1" +:+ "Finished target " +:+ DQ;
                         targetFilename Directories Extension;
                         DQ +:+ ": Created ";
                         to_wstring (if created then 1 else 0);
                         " file(s)" +:+ sgr "0" +:+ NL] st')
      | Throw code => Throw code
      | Blocked => Blocked
      | OutOfFuel => OutOfFuel
      end.
Proof.
  intros Hplain Hfind. unfold iterate.
  fold (targetFilename Directories Extension).
  unfold bind at 1, member at 1, get at 1. unfold bind at 1.
  destruct (verbose_run (mVerbose (self st))
    [NL +:+ sgr "32" +:+ "Executing for target: " +:+ sgr "33" +:+ DQ;
     targetFilename Directories Extension; DQ +:+ NL] st) as [out ->].
  exists out. unfold bind at 1, get at 1. cbn [files st_logged set_self].
  rewrite Hfind. cbn [entries last_error]. fold (st_logged out st).
  unfold bind at 1.
  destruct (create_file _ _ (st_logged out st)) as [created st'| | |] eqn:E.
  - rewrite (iterate_entries_one _ _ _ _ _ _ Hplain E).
    change (ERROR_NO_MORE_FILES =? ERROR_NO_MORE_FILES) with true.
    unfold bind, ret. rewrite write_run. by destruct created.
  - cbn [iterate_entries]. destruct Hplain as [-> ->].
    unfold bind. by rewrite E.
  - cbn [iterate_entries]. destruct Hplain as [-> ->].
    unfold bind. by rewrite E.
  - cbn [iterate_entries]. destruct Hplain as [-> ->].
    unfold bind. by rewrite E.
Qed.

(** C4, as amended.  For an empty source file, when the rewrite is not held
    back, [create_file] logs that the source file is empty, returns true and
    leaves an empty destination file, created or truncated; [iterate]
    counts it as a file created. *)
Theorem C4_empty_source FindFiles Directories Extension findData st :
  files st !! srcPath Directories (cFileName findData) = Some [] ->
  srcPath Directories (cFileName findData)
  <> dstPath Directories (cFileName findData) ->
  overwrite_allowed Directories (cFileName findData) st ->
  plain_file findData ->
  FindFiles (files st) (targetFilename Directories Extension)
  = {| entries := [findData]; last_error := ERROR_NO_MORE_FILES |} ->
  (exists st' out,
     create_file Directories (cFileName findData) st = Ok true st'
     /\ written (mCons (self st'))
        = written (mCons (self st)) ++ out
          ++ [sgr "1;31" +:+ "Source file "; cFileName findData;
              " is empty." +:+ sgr "0" +:+ NL]
     /\ files st'
        = <[dstPath Directories (cFileName findData) := []]> (files st))
  /\ (exists st'',
        iterate FindFiles Directories Extension st = Ok 1 st''
        /\ files st''
           = <[dstPath Directories (cFileName findData) := []]> (files st)).
Proof.
  intros Hsrc Hne Hallowed Hplain Hfind. split.
  - by apply create_file_empty.
  - destruct (iterate_one _ _ _ _ _ Hplain Hfind) as [out ->].
    destruct (create_file_empty Directories (cFileName findData)
                (st_logged out st)) as (st' & out' & -> & _ & Hfiles);
      [exact Hsrc|exact Hne|by apply overwrite_allowed_logged|].
    eexists. split; [reflexivity|]. exact Hfiles.
Qed.

(** C4 on the example machine with an empty [in\a.c]: the message is
    logged, [out\a.c] is there and empty, and one file is counted. *)
Lemma C4_empty_source_witness :
  (exists st',
     create_file Example.Directories "a.c" (Example.fresh (U8.lit "N") [] false)
     = Ok true st'
     /\ files st' !! "out\a.c" = Some [])
  /\ (exists st'',
        iterate (fun _ _ => {| entries := [Example.a_c];
                               last_error := ERROR_NO_MORE_FILES |})
                Example.Directories "c" (Example.fresh (U8.lit "N") [] false)
        = Ok 1 st'').
Proof.
  destruct (C4_empty_source
              (fun _ _ => {| entries := [Example.a_c];
                             last_error := ERROR_NO_MORE_FILES |})
              Example.Directories "c" Example.a_c
              (Example.fresh (U8.lit "N") [] false))
    as [(st' & out & Hrun & _ & Hfiles) (st'' & Hiterate & _)].
  - reflexivity.
  - discriminate.
  - right. left. reflexivity.
  - split; reflexivity.
  - reflexivity.
  - split.
    + exists st'. split; [exact Hrun|]. rewrite Hfiles. reflexivity.
    + exists st''. exact Hiterate.
Defined.

(** C4 as it is stated fails: for an empty [in\a.c] and no [out\a.c],
    [create_file] returns true with [out\a.c] created, and [iterate]
    reports one file created, not none. *)
Lemma C4_counterexample :
  ~ (forall Directories Fname st,
       files st !! srcPath Directories Fname = Some [] ->
       srcPath Directories Fname <> dstPath Directories Fname ->
       files st !! dstPath Directories Fname = None ->
       exists st',
         create_file Directories Fname st = Ok true st'
         /\ files st' !! dstPath Directories Fname = None)
  /\ ~ (forall FindFiles Directories Extension findData st,
          files st !! srcPath Directories (cFileName findData) = Some [] ->
          srcPath Directories (cFileName findData)
          <> dstPath Directories (cFileName findData) ->
          files st !! dstPath Directories (cFileName findData) = None ->
          plain_file findData ->
          FindFiles (files st) (targetFilename Directories Extension)
          = {| entries := [findData]; last_error := ERROR_NO_MORE_FILES |} ->
          exists st'',
            iterate FindFiles Directories Extension st = Ok 0 st'').
Proof.
  split; intros H.
  - destruct (H Example.Directories "a.c"
                (Example.fresh (U8.lit "N") [] false))
      as (st' & Hrun & Hfiles); [reflexivity|discriminate|reflexivity|].
    vm_compute in Hrun. inversion Hrun; subst st'.
    vm_compute in Hfiles. discriminate Hfiles.
  - destruct (H (fun _ _ => {| entries := [Example.a_c];
                               last_error := ERROR_NO_MORE_FILES |})
                Example.Directories "c" Example.a_c
                (Example.fresh (U8.lit "N") [] false))
      as (st'' & Hrun);
      [reflexivity|discriminate|reflexivity|split; reflexivity|reflexivity|].
    vm_compute in Hrun. discriminate Hrun.
Qed.

(** ** A declined overwrite *)

Lemma create_file_declined Directories Fname st content old :
  files st !! srcPath Directories Fname = Some content ->
  mAlwaysOverwriteFiles (self st) = false ->
  files st !! dstPath Directories Fname = Some old ->
  answer (pending (mCons (self st))) = Some false ->
  exists c,
    create_file Directories Fname st
    = Ok false (set_self (set_mCons c (self st)) st).
Proof.
  intros Hsrc Hflag Hdst Hno.
  destruct (create_file_asks _ _ _ _ _ Hsrc Hflag Hdst) as [out ->].
  pose proof (ask_yesno_answer (logged out (mCons (self st)))) as Ha.
  cbn [pending logged] in Ha. rewrite Hno in Ha.
  destruct (ask_yesno _) as [[a c]|] eqn:E; [|discriminate].
  cbn in Ha. inversion Ha; subst a. by exists c.
Qed.

(** C6.  When the destination file exists, the policy is to ask and the
    user answers no, [create_file] returns false, every file - the
    destination file with it - is as it was, and the loop of [iterate]
    leaves its count of created files as it is. *)
Theorem C6_declined_overwrite Directories findData st content old
    filesCreated :
  files st !! srcPath Directories (cFileName findData) = Some content ->
  mAlwaysOverwriteFiles (self st) = false ->
  files st !! dstPath Directories (cFileName findData) = Some old ->
  answer (pending (mCons (self st))) = Some false ->
  plain_file findData ->
  exists st',
    create_file Directories (cFileName findData) st = Ok false st'
    /\ files st' = files st
    /\ files st' !! dstPath Directories (cFileName findData) = Some old
    /\ iterate_entries Directories [findData] filesCreated st
       = Ok filesCreated st'.
Proof.
  intros Hsrc Hflag Hdst Hno Hplain.
  destruct (create_file_declined _ _ _ _ _ Hsrc Hflag Hdst Hno) as [c Hrun].
  eexists. split; [exact Hrun|]. split; [reflexivity|].
  split; [exact Hdst|].
  by rewrite (iterate_entries_one _ _ _ _ _ _ Hplain Hrun).
Qed.

(** C6 on the example machine with an earlier [out\a.c] and a user who
    types a blank line and then [no]. *)
Lemma C6_declined_overwrite_witness :
  exists st',
    create_file Example.Directories "a.c"
      (Example.rerun (U8.lit "N") (U8.lit "x") (U8.lit "old") false false
                     [""; "no"])
    = Ok false st'
    /\ files st' !! "out\a.c" = Some (U8.lit "old")
    /\ iterate_entries Example.Directories [Example.a_c] 5
         (Example.rerun (U8.lit "N") (U8.lit "x") (U8.lit "old") false false
                        [""; "no"])
       = Ok 5 st'.
Proof.
  destruct (C6_declined_overwrite Example.Directories Example.a_c
              (Example.rerun (U8.lit "N") (U8.lit "x") (U8.lit "old")
                             false false [""; "no"])
              (U8.lit "x") (U8.lit "old") 5)
    as (st' & Hrun & _ & Hdst & Hcount).
  - reflexivity.
  - reflexivity.
  - reflexivity.
  - reflexivity.
  - split; reflexivity.
  - exists st'. split; [exact Hrun|]. split; [exact Hdst|exact Hcount].
Defined.

(** ** The overwrite policy *)

(** What a call of [create_file] that returns has done to the program: it
    has written to the console, it may have read from it, and it may have
    set [mAlwaysOverwriteFiles]. *)
Lemma create_file_inv Directories Fname st created st' :
  create_file Directories Fname st = Ok created st' ->
  self st'
  = set_mAlwaysOverwriteFiles (mAlwaysOverwriteFiles (self st'))
      (set_mCons (mCons (self st')) (self st))
  /\ (mAlwaysOverwriteFiles (self st') = true <->
      mAlwaysOverwriteFiles (self st) = true
      \/ (is_Some (files st !! dstPath Directories Fname)
          /\ answer (pending (mCons (self st))) = Some true))
  /\ (mAlwaysOverwriteFiles (self st) = true ->
      created = true
      /\ pending (mCons (self st')) = pending (mCons (self st))
      /\ mLastRead (mCons (self st')) = mLastRead (mCons (self st))).
Proof.
  intros Hrun.
  destruct (files st !! srcPath Directories Fname) as [content|] eqn:Hsrc.
  2:{ by rewrite create_file_throw in Hrun. }
  destruct (mAlwaysOverwriteFiles (self st)) eqn:Hflag.
  { destruct (create_file_proceeds _ _ _ _ Hsrc (or_introl Hflag))
      as [out Heq].
    rewrite Heq in Hrun.
    apply create_file_write_inv in Hrun as (_ & -> & bytes & out' & ->).
    cbn. split; [reflexivity|]. rewrite Hflag. split; [|done].
    split; auto. }
  destruct (files st !! dstPath Directories Fname) as [old|] eqn:Hdst.
  2:{ destruct (create_file_proceeds _ _ _ _ Hsrc (or_intror Hdst))
        as [out Heq].
      rewrite Heq in Hrun.
      apply create_file_write_inv in Hrun as (_ & -> & bytes & out' & ->).
      cbn. split; [reflexivity|]. rewrite Hflag. split; [|done].
      split; [done|]. intros [H|[[x H] _]]; done. }
  destruct (create_file_asks _ _ _ _ _ Hsrc Hflag Hdst) as [out Heq].
  rewrite Heq in Hrun.
  pose proof (ask_yesno_answer (logged out (mCons (self st)))) as Ha.
  cbn [pending logged] in Ha.
  destruct (ask_yesno _) as [[[|] c]|] eqn:E; [| |discriminate].
  - apply create_file_write_inv in Hrun as (_ & -> & bytes & out' & ->).
    cbn in *. split; [reflexivity|]. split; [|done].
    split; [|done]. intros _. right. split; [by eexists|done].
  - inversion Hrun; subst. cbn in *. split; [reflexivity|].
    rewrite Hflag. split; [|done].
    split; [done|]. intros [H|[_ H]]; [done|]. congruence.
Qed.

Lemma sticky_ret {A} (a : A) : sticky (ret a).
Proof. intros st a' st' H. by inversion H. Qed.

Lemma sticky_bind {A B} (m : M A) (k : A -> M B) :
  sticky m -> (forall a, sticky (k a)) -> sticky (bind m k).
Proof.
  intros Hm Hk st b st' H Hflag. unfold bind in H.
  destruct (m st) as [a st1| | |] eqn:E; [|discriminate..].
  eapply Hk; [exact H|]. eapply Hm; [exact E|exact Hflag].
Qed.

Lemma sticky_write chain : sticky (write chain).
Proof. intros st a st' H. rewrite write_run in H. by inversion H. Qed.

Lemma sticky_get {A} (f : state -> A) : sticky (get f).
Proof. intros st a st' H. by inversion H. Qed.

Lemma sticky_member {A} (f : instance -> A) : sticky (member f).
Proof. apply sticky_get. Qed.

Lemma sticky_throw {A} code : sticky (@throw A code).
Proof. intros st a st' H. discriminate. Qed.

Lemma sticky_create_file Directories Fname :
  sticky (create_file Directories Fname).
Proof.
  intros st created st' H Hflag.
  apply create_file_inv in H as (_ & H & _). apply H. by left.
Qed.

Create HintDb sticky.
#[local] Hint Resolve sticky_ret sticky_write sticky_get sticky_member
  sticky_throw sticky_create_file : sticky.

Ltac sticky_step :=
  repeat match goal with
    | |- sticky (bind _ _) => apply sticky_bind; [|intros ?]
    | |- sticky (if ?b then _ else _) => destruct b
    | |- sticky (match ?x with _ => _ end) => destruct x
    | |- sticky _ => solve [auto with sticky]
    end.

Lemma sticky_iterate_entries Directories found filesCreated :
  sticky (iterate_entries Directories found filesCreated).
Proof.
  revert filesCreated.
  induction found as [|findData found IH]; intros filesCreated;
    cbn [iterate_entries]; sticky_step.
Qed.

Lemma sticky_iterate FindFiles Directories Extension :
  sticky (iterate FindFiles Directories Extension).
Proof.
  unfold iterate. cbv zeta. sticky_step.
  all: apply sticky_iterate_entries.
Qed.

Lemma sticky_execute_extensions FindFiles directories extensions n :
  sticky (execute_extensions FindFiles directories extensions n).
Proof.
  revert n. induction extensions as [|extension extensions IH]; intros n;
    cbn [execute_extensions]; sticky_step.
  apply sticky_iterate.
Qed.

Lemma sticky_execute_directories FindFiles all extensions n :
  sticky (execute_directories FindFiles all extensions n).
Proof.
  revert n. induction all as [|directories all IH]; intros n;
    cbn [execute_directories]; sticky_step.
  apply sticky_execute_extensions.
Qed.

Lemma sticky_execute FindFiles : sticky (execute FindFiles).
Proof.
  unfold execute. sticky_step. apply sticky_execute_directories.
Qed.

Lemma create_file_write_not_blocked srcP dstP Fname srcFile st :
  create_file_write srcP dstP Fname srcFile st <> Blocked.
Proof.
  destruct (decide (srcP = dstP)) as [->|Hne].
  - by rewrite create_file_write_same.
  - destruct (create_file_write_local (mCommentPrefix (self st))
                (mReplace (self st)) (mNotice (self st)) srcFile) as [r Hr].
    specialize (Hr srcP dstP Fname st eq_refl eq_refl eq_refl Hne).
    destruct r as [bytes|]; [destruct Hr as [out ->]|rewrite Hr]; done.
Qed.

(** C5.  The policy starts as "ask every time"; a call of [create_file]
    that returns leaves it at "always overwrite" exactly when it was there
    before or the destination file existed and the user answered the
    question with yes; once "always overwrite", it stays so through
    [create_file], [iterate] and [execute]; and while it is "always
    overwrite", [create_file] does not wait for the user and reads nothing
    from the console. *)
Theorem C5_overwrite_policy FindFiles input Directories Fname st :
  mAlwaysOverwriteFiles (instance_new input) = false
  /\ (forall created st',
        create_file Directories Fname st = Ok created st' ->
        (mAlwaysOverwriteFiles (self st') = true <->
         mAlwaysOverwriteFiles (self st) = true
         \/ (is_Some (files st !! dstPath Directories Fname)
             /\ answer (pending (mCons (self st))) = Some true)))
  /\ (mAlwaysOverwriteFiles (self st) = true ->
      (forall created st',
         create_file Directories Fname st = Ok created st' ->
         mAlwaysOverwriteFiles (self st') = true)
      /\ (forall Extension n st',
            iterate FindFiles Directories Extension st = Ok n st' ->
            mAlwaysOverwriteFiles (self st') = true)
      /\ (forall n st',
            execute FindFiles st = Ok n st' ->
            mAlwaysOverwriteFiles (self st') = true))
  /\ (mAlwaysOverwriteFiles (self st) = true ->
      create_file Directories Fname st <> Blocked
      /\ (forall created st',
            create_file Directories Fname st = Ok created st' ->
            created = true
            /\ pending (mCons (self st')) = pending (mCons (self st))
            /\ mLastRead (mCons (self st')) = mLastRead (mCons (self st)))).
Proof.
  split; [reflexivity|]. split.
  { intros created st' Hrun. by apply create_file_inv in Hrun as (_ & H & _). }
  split.
  { intros Hflag. split; [|split].
    - intros created st' Hrun. by eapply sticky_create_file.
    - intros Extension n st' Hrun. by eapply sticky_iterate.
    - intros n st' Hrun. by eapply sticky_execute. }
  intros Hflag. split.
  - destruct (files st !! srcPath Directories Fname) as [content|] eqn:Hsrc.
    + destruct (create_file_proceeds _ _ _ _ Hsrc (or_introl Hflag))
        as [out ->].
      apply create_file_write_not_blocked.
    + by rewrite create_file_throw.
  - intros created st' Hrun.
    apply create_file_inv in Hrun as (_ & _ & H). by apply H.
Qed.

(** C5 on the example machine with an earlier [out\a.c] and a user who
    answers [yes]: the policy was to ask and is, after the call, to always
    overwrite. *)
Lemma C5_overwrite_policy_witness :
  exists st',
    create_file Example.Directories "a.c"
      (Example.rerun (U8.lit "N") (U8.lit "x") (U8.lit "old") false false
                     ["yes"])
    = Ok true st'
    /\ mAlwaysOverwriteFiles (self st') = true.
Proof.
  assert (exists st',
            create_file Example.Directories "a.c"
              (Example.rerun (U8.lit "N") (U8.lit "x") (U8.lit "old")
                             false false ["yes"])
            = Ok true st') as [st' Hrun].
  { eexists. vm_compute. reflexivity. }
  exists st'. split; [exact Hrun|].
  destruct (C5_overwrite_policy
              (fun _ _ => {| entries := [Example.a_c];
                             last_error := ERROR_NO_MORE_FILES |})
              [] Example.Directories "a.c"
              (Example.rerun (U8.lit "N") (U8.lit "x") (U8.lit "old")
                             false false ["yes"]))
    as (_ & Hflip & _).
  apply (Hflip _ _ Hrun). right. split.
  - eexists. reflexivity.
  - reflexivity.
Defined.

(** ** The rewrite as a function of its inputs *)

Lemma create_file_config Directories Fname st created st' :
  create_file Directories Fname st = Ok created st' ->
  mNotice (self st') = mNotice (self st)
  /\ mCommentPrefix (self st') = mCommentPrefix (self st)
  /\ mReplace (self st') = mReplace (self st).
Proof.
  intros Hrun. apply create_file_inv in Hrun as (H & _). by rewrite H.
Qed.

(** C8.  With the policy at "always overwrite", the rewrite of a source
    file returns, and run again on the outcome it returns again and leaves
    every file, the destination file with it, as the first run left it; any
    machine with the same notice, comment prefix, [mReplace] and source
    content gets the same bytes in its destination file. *)
Theorem C8_rewrite_deterministic Directories Fname st content :
  files st !! srcPath Directories Fname = Some content ->
  srcPath Directories Fname <> dstPath Directories Fname ->
  mAlwaysOverwriteFiles (self st) = true ->
  Z.of_nat (length (mNotice (self st))) < 2 ^ 32 ->
  Z.of_nat (length content) < 2 ^ 32 ->
  exists st' st'',
    create_file Directories Fname st = Ok true st'
    /\ create_file Directories Fname st' = Ok true st''
    /\ files st'' !! dstPath Directories Fname
       = files st' !! dstPath Directories Fname
    /\ files st'' = files st'
    /\ (forall st2,
          mNotice (self st2) = mNotice (self st) ->
          mCommentPrefix (self st2) = mCommentPrefix (self st) ->
          mReplace (self st2) = mReplace (self st) ->
          files st2 !! srcPath Directories Fname = Some content ->
          mAlwaysOverwriteFiles (self st2) = true ->
          exists st2',
            create_file Directories Fname st2 = Ok true st2'
            /\ files st2' !! dstPath Directories Fname
               = files st' !! dstPath Directories Fname).
Proof.
  intros Hsrc Hne Hflag Hnotice Hcontent.
  destruct (create_file_rewrites _ _ _ _ Hsrc Hne (or_introl Hflag)
              Hnotice Hcontent) as (st' & Hrun & Hfiles).
  destruct (create_file_config _ _ _ _ _ Hrun) as (Hn & Hp & Hr).
  pose proof (sticky_create_file _ _ _ _ _ Hrun Hflag) as Hflag'.
  destruct (create_file_rewrites Directories Fname st' content)
    as (st'' & Hrun' & Hfiles').
  { by rewrite Hfiles, lookup_insert_ne. }
  { exact Hne. }
  { by left. }
  { by rewrite Hn. }
  { exact Hcontent. }
  rewrite Hn, Hp, Hr, Hfiles, insert_insert_eq, <- Hfiles in Hfiles'.
  exists st', st''. split; [exact Hrun|]. split; [exact Hrun'|].
  split; [by rewrite Hfiles'|]. split; [exact Hfiles'|].
  intros st2 Hn2 Hp2 Hr2 Hsrc2 Hflag2.
  destruct (create_file_rewrites Directories Fname st2 content)
    as (st2' & Hrun2 & Hfiles2);
    [exact Hsrc2|exact Hne|by left|by rewrite Hn2|exact Hcontent|].
  exists st2'. split; [exact Hrun2|].
  by rewrite Hfiles2, Hfiles, !lookup_insert_eq, Hn2, Hp2, Hr2.
Qed.

(** C8 on the example machine, set to always overwrite: the second run
    leaves [out\a.c] as the first one wrote it. *)
Lemma C8_rewrite_deterministic_witness :
  exists st' st'',
    create_file Example.Directories "a.c"
      (Example.rerun (U8.lit "N") (U8.lit "x") (U8.lit "old") false true [])
    = Ok true st'
    /\ create_file Example.Directories "a.c" st' = Ok true st''
    /\ files st'' !! "out\a.c" = files st' !! "out\a.c".
Proof.
  destruct (C8_rewrite_deterministic Example.Directories "a.c"
              (Example.rerun (U8.lit "N") (U8.lit "x") (U8.lit "old")
                             false true [])
              (U8.lit "x"))
    as (st' & st'' & Hrun & Hrun' & Hdst & _).
  - reflexivity.
  - discriminate.
  - reflexivity.
  - reflexivity.
  - reflexivity.
  - exists st', st''. split; [exact Hrun|]. split; [exact Hrun'|exact Hdst].
Defined.

(** ** The directory matcher *)

Lemma is_dot_entry_names name :
  c_string name = true ->
  is_dot_entry name = String.eqb name "." || String.eqb name "..".
Proof.
  unfold is_dot_entry, wchar_at.
  destruct name as [|c1 [|c2 [|c3 name]]]; cbn; intros H.
  - reflexivity.
  - destruct (Ascii.eqb c1 "."); reflexivity.
  - destruct (Ascii.eqb c1 "."); [|reflexivity]. cbn.
    destruct (Ascii.eqb c2 Ascii.zero); [by rewrite andb_false_r in H|].
    cbn. by destruct (Ascii.eqb c2 ".").
  - destruct (Ascii.eqb c1 "."); [|reflexivity]. cbn.
    destruct (Ascii.eqb c2 Ascii.zero); [by rewrite andb_false_r in H|].
    destruct (Ascii.eqb c3 Ascii.zero);
      [by rewrite ?andb_false_r, ?andb_false_l in H|].
    cbn. by destruct (Ascii.eqb c2 ".").
Qed.

(** One round of the loop of [target_directories]: a subdirectory is added
    and searched, any other entry is skipped. *)
Lemma target_entries_cons recur Directories findData found NewDirectories st :
  c_string (cFileName findData) = true ->
  target_entries recur Directories (findData :: found) NewDirectories st
  = if subdirectory findData then
      bind (recur (child Directories (cFileName findData))
                  (NewDirectories ++ [child Directories (cFileName findData)]))
           (fun NewDirectories =>
              target_entries recur Directories found NewDirectories) st
    else target_entries recur Directories found NewDirectories st.
Proof.
  intros Hname. cbn [target_entries]. unfold subdirectory.
  rewrite (is_dot_entry_names _ Hname).
  destruct (has_attribute _ FILE_ATTRIBUTE_DIRECTORY); [|reflexivity].
  destruct (has_attribute _ FILE_ATTRIBUTE_HIDDEN); [reflexivity|].
  destruct (String.eqb _ "." || String.eqb _ ".."); [reflexivity|].
  cbn [negb andb]. unfold child.
  by destruct (empty (src Directories)).
Qed.

Lemma target_directories_S FindFiles depth Directories NewDirectories :
  target_directories FindFiles (S depth) Directories NewDirectories
  = (write [sgr "90" +:+ "Target directory: " +:+ sgr "33" +:+ DQ;
            src Directories;
            DQ +:+ sgr "90" +:+ ". Output directory: " +:+ sgr "33" +:+ DQ;
            dst Directories; DQ +:+ sgr "0" +:+ NL] ;;
     recurse <- member mRecurse ;;
     if negb recurse then ret NewDirectories
     else
       found <- get (fun st =>
                       FindFiles (files st) (searchString Directories)) ;;
       match entries found with
       | [] => throw (last_error found)
       | _ :: _ =>
           NewDirectories <-
             target_entries (target_directories FindFiles depth) Directories
                            (entries found) NewDirectories ;;
           let errorCode := last_error found in
           if negb (errorCode =? ERROR_NO_MORE_FILES) then throw errorCode
           else ret NewDirectories
       end)%prog.
Proof. reflexivity. Qed.

(** Without [mRecurse], [target_directories] adds nothing. *)
Lemma target_directories_flat FindFiles depth Directories NewDirectories st :
  mRecurse (self st) = false ->
  exists out,
    target_directories FindFiles depth Directories NewDirectories st
    = Ok NewDirectories (st_logged out st).
Proof.
  intros Hrecurse. eexists.
  destruct depth; cbn [target_directories]; unfold bind at 1;
    rewrite write_run; unfold bind at 1, member, get;
    cbn [self st_logged set_self set_mCons mRecurse]; rewrite Hrecurse;
    reflexivity.
Qed.

Lemma target_entries_skipped recur Directories found NewDirectories st :
  Forall (fun e => c_string (cFileName e) = true) found ->
  Forall (fun e => subdirectory e = false) found ->
  target_entries recur Directories found NewDirectories st
  = Ok NewDirectories st.
Proof.
  induction found as [|findData found IH]; intros Hnames Hnone; [reflexivity|].
  apply Forall_cons in Hnames as [Hname Hnames].
  apply Forall_cons in Hnone as [Hskip Hnone].
  rewrite target_entries_cons by exact Hname. rewrite Hskip. by apply IH.
Qed.

(** A directory without subdirectories adds nothing. *)
Lemma target_directories_leaf FindFiles depth Directories NewDirectories st :
  mRecurse (self st) = true ->
  leaf FindFiles (files st) Directories ->
  exists out,
    target_directories FindFiles (S depth) Directories NewDirectories st
    = Ok NewDirectories (st_logged out st).
Proof.
  intros Hrecurse (findData & found & Hfind & Hnames & Hnone). eexists.
  rewrite target_directories_S. unfold bind at 1. rewrite write_run.
  unfold bind at 1, member, get.
  cbn [self st_logged set_self set_mCons mRecurse]. rewrite Hrecurse.
  cbn [negb].
  unfold bind at 1. cbn [files st_logged set_self]. rewrite Hfind.
  cbn [entries last_error].
  unfold bind. rewrite target_entries_skipped by assumption.
  reflexivity.
Qed.


(** A directory whose subdirectories are leaves adds a pair for each
    subdirectory, in the order of the enumeration. *)
Lemma target_entries_level FindFiles depth Directories found :
  Forall (fun e => c_string (cFileName e) = true) found ->
  forall NewDirectories st,
    mRecurse (self st) = true ->
    Forall (fun e => leaf FindFiles (files st)
                          (child Directories (cFileName e)))
           (filter (fun e => subdirectory e = true) found) ->
    exists out,
      target_entries (target_directories FindFiles (S depth)) Directories
                     found NewDirectories st
      = Ok (NewDirectories
            ++ map (fun e => child Directories (cFileName e))
                   (filter (fun e => subdirectory e = true) found))
           (st_logged out st).
Proof.
  induction found as [|findData found IH]; intros Hnames New st Hrecurse Hleaf.
  - exists []. cbn. by rewrite app_nil_r, st_logged_nil.
  - apply Forall_cons in Hnames as [Hname Hnames].
    rewrite target_entries_cons by exact Hname.
    destruct (subdirectory findData) eqn:Hsub.
    + rewrite filter_cons_True in * by exact Hsub.
      apply Forall_cons in Hleaf as [Hleaf Hleaves].
      destruct (target_directories_leaf FindFiles depth
                  (child Directories (cFileName findData))
                  (New ++ [child Directories (cFileName findData)]) st
                  Hrecurse Hleaf) as [out1 Hrun].
      unfold bind. rewrite Hrun.
      destruct (IH Hnames (New ++ [child Directories (cFileName findData)])
                   (st_logged out1 st) Hrecurse Hleaves) as [out2 ->].
      exists (out1 ++ out2). rewrite st_logged_logged. cbn [map].
      by rewrite <- app_assoc.
    + rewrite filter_cons_False in * by (by rewrite Hsub).
      by apply IH.
Qed.

Lemma target_directories_level FindFiles depth Directories findData found
    NewDirectories st :
  mRecurse (self st) = true ->
  FindFiles (files st) (searchString Directories)
  = {| entries := findData :: found; last_error := ERROR_NO_MORE_FILES |} ->
  Forall (fun e => c_string (cFileName e) = true) (findData :: found) ->
  Forall (fun e => leaf FindFiles (files st)
                        (child Directories (cFileName e)))
         (filter (fun e => subdirectory e = true) (findData :: found)) ->
  exists out,
    target_directories FindFiles (S (S depth)) Directories NewDirectories st
    = Ok (NewDirectories
          ++ map (fun e => child Directories (cFileName e))
                 (filter (fun e => subdirectory e = true) (findData :: found)))
         (st_logged out st).
Proof.
  intros Hrecurse Hfind Hnames Hleaves.
  rewrite target_directories_S. unfold bind at 1. rewrite write_run.
  unfold bind at 1, member, get.
  cbn [self st_logged set_self set_mCons mRecurse]. rewrite Hrecurse.
  cbn [negb].
  unfold bind at 1. cbn [files st_logged set_self]. rewrite Hfind.
  cbn [entries last_error]. unfold bind.
  match goal with
  | |- context [target_entries _ _ _ _ ?s] =>
      destruct (target_entries_level FindFiles depth Directories
                  (findData :: found) Hnames NewDirectories s Hrecurse Hleaves)
        as [out Hrun]
  end.
  rewrite Hrun. cbv zeta.
  change (ERROR_NO_MORE_FILES =? ERROR_NO_MORE_FILES) with true. cbn [negb].
  eexists. unfold ret. by rewrite st_logged_logged.
Qed.

(** *** The directories of [init] *)

Lemma init_already_targeted_fresh newDirectoryArg all st :
  Forall (fun d => src d <> src newDirectoryArg) all ->
  init_already_targeted newDirectoryArg all false st = Ok false st.
Proof.
  induction all as [|directories all IH]; intros Hfresh; [reflexivity|].
  apply Forall_cons in Hfresh as [Hne Hfresh].
  cbn [init_already_targeted]. apply String.eqb_neq in Hne. rewrite Hne.
  unfold bind, ret. by apply IH.
Qed.

(** Directories with sources that are new, and different from each other,
    are all added, in order. *)
Lemma init_merge_fresh newDirectories :
  forall st,
    NoDup (map src (mDirectories (self st) ++ newDirectories)) ->
    exists st',
      init_merge newDirectories st = Ok tt st'
      /\ mDirectories (self st') = mDirectories (self st) ++ newDirectories
      /\ files st' = files st.
Proof.
  induction newDirectories as [|newDirectoryArg newDirectories IH];
    intros st Hnodup.
  - exists st. by rewrite app_nil_r.
  - cbn [init_merge]. unfold bind at 1, member, get. unfold bind at 1.
    rewrite init_already_targeted_fresh.
    + cbn [negb]. unfold bind at 1, modify.
      match goal with
      | |- context [init_merge _ ?s] => destruct (IH s) as (st' & -> & Hd & Hf)
      end.
      * cbn. by rewrite <- app_assoc.
      * exists st'. split; [reflexivity|]. cbn in Hd, Hf.
        by rewrite Hd, Hf, <- app_assoc.
    + rewrite map_app in Hnodup. apply NoDup_app in Hnodup as (_ & Hnot & _).
      apply Forall_forall. intros d Hd Heq.
      apply (Hnot (src d)).
      * apply list_elem_of_fmap. by exists d.
      * rewrite Heq. cbn. left.
Qed.

Lemma init_target_flat FindFiles depth all newDirectories st :
  mRecurse (self st) = false ->
  exists out,
    init_target FindFiles depth all newDirectories st
    = Ok newDirectories (st_logged out st).
Proof.
  revert st. induction all as [|directories all IH]; intros st Hrecurse.
  - exists []. by rewrite st_logged_nil.
  - cbn [init_target]. unfold bind.
    destruct (target_directories_flat FindFiles depth directories
                newDirectories st Hrecurse) as [out1 ->].
    destruct (IH (st_logged out1 st) Hrecurse) as [out2 ->].
    exists (out1 ++ out2). by rewrite st_logged_logged.
Qed.

Lemma append_append_ne s u t : u <> "" -> (s +:+ u) +:+ t <> s.
Proof.
  intros Hu. induction s as [|c s IH]; cbn.
  - by destruct u.
  - intros H. injection H as H. by apply IH.
Qed.

Lemma empty_true s : empty s = true -> s = "".
Proof. by destruct s. Qed.

Lemma child_src_ne Directories name :
  name <> "" -> src (child Directories name) <> src Directories.
Proof.
  intros Hname. unfold child. cbn [src].
  destruct (empty (src Directories)) eqn:E; cbn [negb].
  - apply empty_true in E. by rewrite E.
  - by apply append_append_ne.
Qed.

Lemma child_src_inj Directories name name' :
  src (child Directories name) = src (child Directories name') ->
  name = name'.
Proof. unfold child. cbn [src]. apply String.app_inj. Qed.

(** C7.  Without [mRecurse], [target_directories] adds no pair and [init]
    leaves the directories as they are.  With [mRecurse], over a directory
    whose enumeration has exactly the subdirectories [B] and [C] (entries
    that are directories, not hidden, and not [.] or [..]), which have none
    themselves, [target_directories] adds the pair of [B] and the pair of
    [C], each with the name of the child after a separator on the source
    and on the destination, and [init] ends with the directory, [B] and
    [C], once each. *)
Theorem C7_directory_expansion FindFiles depth Directories st :
  (mRecurse (self st) = false ->
   (forall NewDirectories,
      exists out,
        target_directories FindFiles depth Directories NewDirectories st
        = Ok NewDirectories (st_logged out st))
   /\ exists st',
        init_directories FindFiles depth st = Ok tt st'
        /\ mDirectories (self st') = mDirectories (self st))
  /\ (mRecurse (self st) = true ->
      forall findData found B C,
        FindFiles (files st) (searchString Directories)
        = {| entries := findData :: found;
             last_error := ERROR_NO_MORE_FILES |} ->
        Forall (fun e => c_string (cFileName e) = true) (findData :: found) ->
        filter (fun e => subdirectory e = true) (findData :: found) = [B; C] ->
        cFileName B <> cFileName C ->
        cFileName B <> "" ->
        cFileName C <> "" ->
        leaf FindFiles (files st) (child Directories (cFileName B)) ->
        leaf FindFiles (files st) (child Directories (cFileName C)) ->
        (exists out,
           target_directories FindFiles (S (S depth)) Directories [] st
           = Ok [child Directories (cFileName B);
                 child Directories (cFileName C)] (st_logged out st))
        /\ (mDirectories (self st) = [Directories] ->
            exists st',
              init_directories FindFiles (S (S depth)) st = Ok tt st'
              /\ mDirectories (self st')
                 = [Directories; child Directories (cFileName B);
                    child Directories (cFileName C)])).
Proof.
  split.
  - intros Hrecurse. split.
    + intros NewDirectories. by apply target_directories_flat.
    + unfold init_directories. unfold bind at 1, member, get. unfold bind.
      destruct (init_target_flat FindFiles depth (mDirectories (self st)) []
                  st Hrecurse) as [out ->].
      eexists. split; reflexivity.
  - intros Hrecurse findData found B C Hfind Hnames Hsubs HBC HB HC HlB HlC.
    destruct (target_directories_level FindFiles depth Directories findData
                found [] st Hrecurse Hfind Hnames) as [out Hrun].
    { rewrite Hsubs. by repeat constructor. }
    rewrite Hsubs in Hrun. cbn [map app] in Hrun.
    split; [by exists out|].
    intros Hdirs. unfold init_directories.
    unfold bind at 1, member, get. rewrite Hdirs.
    cbn [init_target]. unfold bind. rewrite Hrun. unfold ret.
    destruct (init_merge_fresh
                [child Directories (cFileName B);
                 child Directories (cFileName C)] (st_logged out st))
      as (st' & -> & Hd & _).
    + cbn [self st_logged set_self set_mCons mDirectories]. rewrite Hdirs.
      cbn [map app]. apply NoDup_cons. split.
      * intros [H|[H|H]%elem_of_cons]%elem_of_cons.
        -- by apply (child_src_ne Directories (cFileName B)).
        -- by apply (child_src_ne Directories (cFileName C)).
        -- by apply elem_of_nil in H.
      * apply NoDup_cons. split; [|apply NoDup_singleton].
        intros H%list_elem_of_singleton. by apply child_src_inj in H.
    + exists st'. split; [reflexivity|]. cbn in Hd. by rewrite Hd, Hdirs.
Qed.

(** C7 on the directory [A] of the examples: [init] ends with [A], [A\B]
    and [A\C], with the outputs [out], [out\B] and [out\C]. *)
Lemma C7_directory_expansion_witness :
  exists st',
    init_directories Example.tree 2 (Example.targeting true) = Ok tt st'
    /\ mDirectories (self st')
       = [ {| src := "A"; dst := "out" |};
           {| src := "A\B"; dst := "out\B" |};
           {| src := "A\C"; dst := "out\C" |} ].
Proof.
  destruct (C7_directory_expansion Example.tree 0 Example.A
              (Example.targeting true)) as [_ Hrecurse].
  destruct (Hrecurse eq_refl Example.dot
              [Example.dotdot; Example.H; Example.f_c; Example.B; Example.C]
              Example.B Example.C) as [_ Hinit].
  - reflexivity.
  - repeat constructor.
  - reflexivity.
  - discriminate.
  - discriminate.
  - discriminate.
  - exists Example.dot, [Example.dotdot]. repeat constructor.
  - exists Example.dot, [Example.dotdot]. repeat constructor.
  - destruct (Hinit eq_refl) as (st' & Hrun & Hdirs).
    exists st'. split; [exact Hrun|exact Hdirs].
Defined.

(** * More properties *)

(** ** The argument names *)

Lemma ltb_irrefl s : String.ltb s s = false.
Proof.
  unfold String.ltb. pose proof (String.compare_antisym s s) as H.
  by destruct (String.compare s s).
Qed.

(** The array is sorted, without repetition: what the [static_assert] of
    line 144 checks, and that no name is there twice. *)
Lemma argument_names_sorted :
  StronglySorted (fun a b => String.ltb a b = true) argument_names.
Proof. repeat constructor. Qed.

(** In a sorted range, [lower_bound] finds the position of an element. *)
Lemma lower_bound_found names :
  StronglySorted (fun a b => String.ltb a b = true) names ->
  forall i s, names !! i = Some s -> lower_bound names s = i.
Proof.
  induction 1 as [|name names Hsorted IH Hall]; intros i s Hi; [done|].
  destruct i as [|i]; cbn in Hi.
  - inversion Hi; subst. cbn. by rewrite ltb_irrefl.
  - cbn [lower_bound]. rewrite Forall_forall in Hall.
    rewrite (Hall s) by (by eapply list_elem_of_lookup_2).
    f_equal. by apply IH.
Qed.

Lemma u8_index (n : nat) :
  (n < length argument_names)%nat -> u8 (Z.of_nat n + 1) = Z.of_nat n + 1.
Proof.
  intros Hn. change (length argument_names) with 8%nat in Hn.
  unfold u8. apply Z.mod_small. change (2 ^ 8) with 256. lia.
Qed.

(** The name at index [i] has the value [i + 1]. *)
Lemma find_argument_name_id_at s i :
  argument_names !! i = Some s -> find_argument_name_id s = Z.of_nat i + 1.
Proof.
  intros Hi. unfold find_argument_name_id.
  rewrite (lower_bound_found _ argument_names_sorted _ _ Hi), Hi.
  rewrite String.eqb_refl. cbn [negb].
  apply u8_index. by eapply lookup_lt_Some.
Qed.

(** A string whose value is not [unknown] is a name of the array, and its
    value is its index and one. *)
Lemma find_argument_name_id_known s :
  find_argument_name_id s <> unknown ->
  exists i : nat,
    argument_names !! i = Some s /\ find_argument_name_id s = Z.of_nat i + 1.
Proof.
  unfold find_argument_name_id.
  destruct (argument_names !! lower_bound argument_names s)
    as [name|] eqn:Hname; [|done].
  destruct (String.eqb_spec name s) as [->|Hne]; cbn [negb]; [|done].
  intros _. exists (lower_bound argument_names s). split; [done|].
  apply u8_index. by eapply lookup_lt_Some.
Qed.

(** X1.  [find_argument_name_id] gives the name at index [i] of
    [argument_names] the value [i + 1], and no other string that value;
    it gives [unknown] exactly to the strings that are not in the array. *)
Theorem find_argument_name_id_index s :
  (forall i : nat,
     find_argument_name_id s = Z.of_nat i + 1 <->
     argument_names !! i = Some s)
  /\ (find_argument_name_id s = unknown <-> s ∉ argument_names).
Proof.
  split.
  - intros i. split; [|apply find_argument_name_id_at].
    intros Hid.
    destruct (find_argument_name_id_known s) as (j & Hj & Hid');
      [unfold unknown; lia|].
    by replace i with j by lia.
  - split.
    + intros Hid Hin. apply list_elem_of_lookup in Hin as [i Hi].
      apply find_argument_name_id_at in Hi. unfold unknown in Hid. lia.
    + intros Hnot.
      destruct (decide (find_argument_name_id s = unknown)) as [|Hne]; [done|].
      destruct (find_argument_name_id_known s Hne) as (i & Hi & _).
      destruct Hnot. by eapply list_elem_of_lookup_2.
Qed.

(** The loop of [get_max_argument_name_length] keeps the greatest size it
    has seen. *)
Lemma max_size_from names m :
  (m <= max_size names m)%nat
  /\ Forall (fun p => (String.length p <= max_size names m)%nat) names
  /\ (max_size names m = m
      \/ exists p, p ∈ names /\ String.length p = max_size names m).
Proof.
  revert m. induction names as [|p names IH]; intros m; cbn [max_size].
  - repeat split; [lia|constructor|by left].
  - destruct (IH (if (m <? String.length p)%nat then String.length p else m))
      as (Hle & Hall & Hmax).
    destruct (Nat.ltb_spec m (String.length p)) as [Hlt|Hge].
    + repeat split; [lia|constructor; [lia|done]|]. right.
      destruct Hmax as [->|(q & Hq & <-)].
      * exists p. split; [left|done].
      * exists q. split; [by right|done].
    + repeat split; [lia|constructor; [lia|done]|].
      destruct Hmax as [->|(q & Hq & <-)]; [by left|].
      right. exists q. split; [by right|done].
Qed.

(** X2.  The loop of [get_max_argument_name_length] returns the size of
    a longest string of the array: none is longer, and one has that size.
    So [argName] holds every argument name whole. *)
Theorem max_size_longest names :
  Forall (fun p => (String.length p <= max_size names 0)%nat) names
  /\ (names <> [] ->
      exists p, In p names /\ String.length p = max_size names 0).
Proof.
  destruct (max_size_from names 0) as (_ & Hall & Hmax).
  split; [done|]. intros Hnames.
  destruct Hmax as [H0|(p & Hp & Hlen)].
  - destruct names as [|p names]; [done|]. exists p. split; [by left|].
    rewrite Forall_forall in Hall. specialize (Hall p ltac:(left)). lia.
  - exists p. split; [by apply list_elem_of_In|done].
Qed.

Lemma max_size_longest_witness :
  exists p,
    In p argument_names
    /\ String.length p = get_max_argument_name_length.
Proof.
  destruct (max_size_longest argument_names) as (_ & H).
  apply H. discriminate.
Defined.

(** ** The name of an argument *)

Lemma leading_length n s : (String.length (leading n s) <= n)%nat.
Proof.
  revert s. induction n as [|n IH]; intros [|c s]; cbn; try lia.
  specialize (IH s). lia.
Qed.

(** The characters that [argName] holds are the start of the argument; the
    argument goes on after them only when [argName] is full. *)
Lemma leading_prefix n s :
  exists more,
    s = leading n s +:+ more
    /\ (more = "" \/ String.length (leading n s) = n).
Proof.
  revert s. induction n as [|n IH]; intros [|c s]; cbn.
  - exists "". by split; [|left].
  - exists (String c s). by split; [|right].
  - exists "". by split; [|left].
  - destruct (IH s) as (more & Hs & Hmore). exists more. split.
    + change (String c s = String c (leading n s +:+ more)). by f_equal.
    + destruct Hmore as [->|Hn]; [by left|right; lia].
Qed.

Lemma leading_all n s : (String.length s <= n)%nat -> leading n s = s.
Proof.
  revert s. induction n as [|n IH]; intros [|c s]; cbn; try done; try lia.
  intros Hn. f_equal. apply IH. lia.
Qed.

Lemma leading_app n s more : String.length s = n -> leading n (s +:+ more) = s.
Proof.
  revert s. induction n as [|n IH]; intros [|c s]; cbn; try done.
  intros Hn. f_equal. apply IH. lia.
Qed.

Lemma append_empty s : s +:+ "" = s.
Proof.
  induction s as [|c s IH]; [done|].
  change (String c (s +:+ "") = String c s). by f_equal.
Qed.

Lemma is_name_slash arg :
  is_name arg = true <-> exists s, arg = "/" +:+ s.
Proof.
  unfold is_name, wchar_at. destruct arg as [|c s]; cbn.
  - split; [done|]. by intros (s & Hs).
  - destruct (Ascii.eqb_spec c "/") as [->|Hne].
    + split; [|done]. intros _. by exists s.
    + split; [done|]. intros (s' & Hs). by inversion Hs.
Qed.

(** X3.  An argument is taken for the name at index [i] of
    [argument_names] exactly when it is a forward slash and that name, or,
    for a name that fills [argName], a forward slash, that name and any
    further characters: the characters after those [argName] holds are not
    looked at. *)
Theorem argName_recognised arg (i : nat) :
  is_name arg = true ->
  (find_argument_name_id (argName arg) = Z.of_nat i + 1 <->
   exists name more,
     argument_names !! i = Some name
     /\ arg = "/" +:+ name +:+ more
     /\ (more = ""
         \/ String.length name = get_max_argument_name_length)).
Proof.
  intros Hname. apply is_name_slash in Hname as [s ->].
  change (argName ("/" +:+ s)) with (leading get_max_argument_name_length s).
  split.
  - intros Hid.
    destruct (find_argument_name_id_known
                (leading get_max_argument_name_length s))
      as (j & Hj & Hid'); [unfold unknown; lia|].
    replace j with i in Hj by lia.
    destruct (leading_prefix get_max_argument_name_length s)
      as (more & Hs & Hmore).
    exists (leading get_max_argument_name_length s), more.
    split; [done|]. split; [by rewrite <- Hs|done].
  - intros (name & more & Hi & Harg & Hmore).
    assert (s = name +:+ more) as -> by (by inversion Harg).
    assert (leading get_max_argument_name_length (name +:+ more) = name)
      as ->; [|by apply find_argument_name_id_at].
    destruct Hmore as [->|Hlen]; [|by apply leading_app].
    rewrite append_empty.
    apply leading_all.
    destruct (max_size_from argument_names 0) as (_ & Hall & _).
    rewrite Forall_forall in Hall. apply Hall.
    by eapply list_elem_of_lookup_2.
Qed.

Lemma argName_recognised_witness :
  is_name "/verbosely" = true
  /\ find_argument_name_id (argName "/verbosely") = Z.of_nat 7 + 1.
Proof.
  split; [reflexivity|].
  apply (argName_recognised "/verbosely" 7); [reflexivity|].
  exists "verbose", "ly". repeat split. by right.
Defined.

(** ** Reading the arguments *)

Lemma ends_with_suffix s suffix :
  ends_with s suffix = true <-> exists before, s = before +:+ suffix.
Proof.
  induction s as [|c s IH]; cbn [ends_with].
  - rewrite orb_false_r. split.
    + intros ->%String.eqb_eq. by exists "".
    + intros ([|d before] & H); [by apply String.eqb_eq|done].
  - rewrite orb_true_iff, IH, String.eqb_eq. split.
    + intros [<-|[before ->]]; [by exists ""|by exists (String c before)].
    + intros ([|d before] & H); [by left|].
      right. exists before. by inversion H.
Qed.

Lemma occurs_In c chars :
  occurs c chars = true <-> In c (list_ascii_of_string chars).
Proof.
  induction chars as [|d chars IH]; cbn; [done|].
  rewrite orb_true_iff, IH, Ascii.eqb_eq. split; intros [->|H]; auto.
Qed.

Lemma find_first_of_has s chars :
  find_first_of s chars = true <-> has_character chars s.
Proof.
  unfold has_character. induction s as [|c s IH]; cbn.
  - split; [done|]. by intros (c & [] & _).
  - rewrite orb_true_iff, IH, occurs_In. split.
    + intros [H|(d & Hd & H)]; [exists c; by split; [left|]|].
      exists d. by split; [right|].
    + intros (d & [<-|Hd] & H); [by left|]. right. by exists d.
Qed.

Lemma no_trailing_slash s :
  ends_with s "\" || ends_with s "/" = false -> ~ trailing_slash s.
Proof.
  intros H (before & Hs). apply orb_false_iff in H as [H1 H2].
  destruct Hs as [Hs|Hs].
  - assert (ends_with s "\" = true) by (apply ends_with_suffix; eauto).
    congruence.
  - assert (ends_with s "/" = true) by (apply ends_with_suffix; eauto).
    congruence.
Qed.

Lemma no_character s chars :
  find_first_of s chars = false -> ~ has_character chars s.
Proof. intros H Hc. apply find_first_of_has in Hc. congruence. Qed.

Lemma at_back_app {A} (f : A -> A) l x : at_back f (l ++ [x]) = l ++ [f x].
Proof.
  induction l as [|y l IH]; [done|].
  cbn [app at_back]. rewrite IH. by destruct l.
Qed.

Lemma untouched_refl st : untouched st st.
Proof. repeat split. exists []. by rewrite app_nil_r. Qed.

Lemma untouched_trans st1 st2 st3 :
  untouched st1 st2 -> untouched st2 st3 -> untouched st1 st3.
Proof.
  intros (Hf & Ha & Hp & Hl & out & Hw) (Hf' & Ha' & Hp' & Hl' & out' & Hw').
  repeat split; try congruence.
  exists (out ++ out'). by rewrite Hw', Hw, app_assoc.
Qed.

Lemma untouched_logged out st : untouched st (st_logged out st).
Proof. repeat split. by exists out. Qed.

Lemma reject_run chain st :
  (write chain ;; ret false)%prog st = Ok false (st_logged chain st).
Proof. unfold bind. by rewrite write_run. Qed.

Lemma update_run {A} f (m : M A) st :
  (update f ;; m)%prog st = m (set_self (f (self st)) st).
Proof. reflexivity. Qed.

Lemma member_run {A B} (f : instance -> A) (k : A -> M B) st :
  (x <- member f ;; k x)%prog st = k (f (self st)) st.
Proof. reflexivity. Qed.

Lemma write_bind_run {A} chain (m : M A) st :
  (write chain ;; m)%prog st = m (st_logged chain st).
Proof. unfold bind. by rewrite write_run. Qed.

Lemma bind_run {A B} (m : M A) (k : A -> M B) st a st' :
  m st = Ok a st' -> bind m k st = k a st'.
Proof. unfold bind. by intros ->. Qed.

Lemma fopen_existing_run {B} path (k : list byte -> M B) st :
  (f <- fopen_existing path ;; k f)%prog st
  = match files st !! path with
    | Some content => k content st
    | None => Throw ERROR_FILE_NOT_FOUND
    end.
Proof. unfold bind, fopen_existing. by destruct (files st !! path). Qed.

Ltac untouched_solve :=
  unfold untouched; cbn [files self st_logged set_self set_files mCons
                         set_mCons set_mDirectories set_mExtensions
                         set_mNotice set_mCommentPrefix set_mRecurse
                         set_mVerbose set_mReplace mAlwaysOverwriteFiles
                         pending mLastRead written logged];
  repeat split;
  first [by eexists | exists []; by rewrite app_nil_r].

(** A round that ends with an error message. *)
Ltac rejects :=
  eexists; split; [|left; rewrite ?update_run; apply reject_run];
  untouched_solve.

Lemma init_dir_reads (k : list string -> M bool) rest :
  reads_on k rest (init_dir k rest).
Proof.
  intros st. unfold init_dir.
  destruct rest as [|subargument1 rest1]; [rejects|].
  destruct (is_name subargument1); [rejects|].
  rewrite update_run.
  destruct (ends_with subargument1 "\" || ends_with subargument1 "/")
    eqn:Hsrc; [rejects|].
  destruct rest1 as [|subargument2 rest2]; [rejects|].
  destruct (is_name subargument2); [rejects|].
  rewrite update_run.
  destruct (empty subargument2) eqn:He; [rejects|].
  destruct (ends_with subargument2 "\" || ends_with subargument2 "/")
    eqn:Hdst; [rejects|].
  destruct (find_first_of subargument1 _) eqn:Hsrc'; [rejects|].
  destruct (find_first_of subargument2 _) eqn:Hdst'; [rejects|].
  eexists. split; [|right; right; exists rest2; split; [cbn; lia|]; split;
                    [|reflexivity]].
  - untouched_solve.
  - intros (Hd & He' & Hp). split; [|done].
    cbn [self set_self mDirectories set_mDirectories].
    rewrite at_back_app. apply Forall_app. split; [done|].
    constructor; [|done]. cbn [src dst].
    repeat split.
    + by apply no_trailing_slash.
    + by apply no_trailing_slash.
    + by destruct subargument2.
    + by apply no_character.
    + by apply no_character.
Qed.

Lemma init_ext_reads (k : list string -> M bool) rest :
  reads_on k rest (init_ext k rest).
Proof.
  intros st. unfold init_ext.
  destruct rest as [|subargument rest1]; [rejects|].
  destruct (is_name subargument); [rejects|].
  destruct (Z.ltb_spec 15 (Z.of_nat (String.length subargument)));
    [rejects|].
  destruct (Z.eqb_spec (Z.of_nat (String.length subargument)) 0);
    [rejects|].
  rewrite update_run.
  destruct (find_first_of subargument _) eqn:Hext; [rejects|].
  eexists. split; [|right; right; exists rest1; split; [cbn; lia|]; split;
                    [|reflexivity]].
  - untouched_solve.
  - intros (Hd & He & Hp). split; [done|]. split; [|done].
    cbn [self set_self mExtensions set_mExtensions].
    apply Forall_app. split; [done|]. constructor; [|done].
    split; [lia|]. by apply no_character.
Qed.

Lemma init_note_reads utf (k : list string -> M bool) rest :
  reads_on k rest (init_note utf k rest).
Proof.
  intros st. unfold init_note.
  destruct rest as [|subargument rest1]; [rejects|].
  destruct (is_name subargument); [rejects|].
  rewrite member_run.
  destruct (negb (no_bytes (mNotice (self st)))); [rejects|].
  rewrite update_run.
  eexists. split; [|right; right; exists rest1; split; [cbn; lia|]; split;
                    [|reflexivity]].
  - untouched_solve.
  - done.
Qed.

Lemma init_notef_reads (k : list string -> M bool) rest :
  reads_on k rest (init_notef k rest).
Proof.
  intros st. unfold init_notef.
  destruct rest as [|subargument rest1]; [rejects|].
  destruct (is_name subargument); [rejects|].
  rewrite member_run.
  destruct (negb (no_bytes (mNotice (self st)))); [rejects|].
  rewrite fopen_existing_run. destruct (files st !! subargument) as [f|].
  - rewrite update_run.
    eexists. split; [|right; right; exists rest1; split; [cbn; lia|]; split;
                      [|reflexivity]].
    + untouched_solve.
    + done.
  - exists st. split; [apply untouched_refl|by right; left].
Qed.

Lemma c_str_length_app a b :
  (length (U8.c_str (a ++ U8.NUL :: b)) <= length a)%nat.
Proof.
  induction a as [|c a IH]; cbn; [lia|].
  destruct (Byte.eqb c U8.NUL); cbn; lia.
Qed.

Lemma init_syntax_reads utf (k : list string -> M bool) rest :
  reads_on k rest (init_syntax utf k rest).
Proof.
  intros st. unfold init_syntax.
  destruct rest as [|arg rest1]; [rejects|].
  destruct (is_name arg); [rejects|].
  destruct (Z.ltb_spec maxCommentLength (Z.of_nat (length (utf arg))));
    [rejects|].
  destruct (no_bytes (utf arg)); [rejects|].
  rewrite update_run.
  eexists. split; [|right; right; exists rest1; split; [cbn; lia|]; split;
                    [|reflexivity]].
  - untouched_solve.
  - intros (Hd & He & Hlen & Hp). split; [done|]. split; [done|].
    cbn [self set_self mCommentPrefix set_mCommentPrefix].
    unfold maxCommentLength in *. unfold memcpy_prefix. split.
    + rewrite !length_app, length_drop. cbn [length]. lia.
    + rewrite <- app_assoc. cbn [app].
      pose proof (c_str_length_app (utf arg)
                    (drop (S (length (utf arg))) (mCommentPrefix (self st)))).
      lia.
Qed.

Lemma echo_arguments_run i Args st :
  exists out, echo_arguments i Args st = Ok tt (st_logged out st).
Proof.
  revert i st. induction Args as [|arg Args IH]; intros i st.
  - exists []. by rewrite st_logged_nil.
  - cbn [echo_arguments]. unfold bind at 1. rewrite write_run.
    destruct (IH (i + 1) (st_logged ["Argument "; to_wstring i; ": " +:+ DQ;
                                     arg; DQ +:+ NL] st)) as [out ->].
    rewrite st_logged_logged. by eexists.
Qed.

(** A round that sets a flag. *)
Ltac sets_flag rest :=
  rewrite update_run;
  eexists; split; [|right; right; exists rest; split; [lia|]; split;
                    [|reflexivity]];
  [untouched_solve|done].

Lemma init_argument_reads utf ArgV (k : list string -> M bool) arg rest :
  reads_on k rest (init_argument utf ArgV k arg rest).
Proof.
  intros st. unfold init_argument.
  destruct (negb (is_name arg)); [rejects|].
  destruct (_ =? unknown); [rejects|].
  destruct (_ =? _); [apply init_dir_reads|].
  destruct (_ =? _); [apply init_ext_reads|].
  destruct (_ =? _); [apply init_note_reads|].
  destruct (_ =? _); [apply init_notef_reads|].
  destruct (_ =? _).
  { rewrite member_run. destruct (mRecurse (self st)); [rejects|].
    sets_flag rest. }
  destruct (_ =? _).
  { rewrite member_run. destruct (mVerbose (self st)); [rejects|].
    rewrite update_run, write_bind_run. unfold echo_command_line.
    match goal with
    | |- context [bind (echo_arguments 0 ArgV) _ ?s] =>
        destruct (echo_arguments_run 0 ArgV s) as [out Hout]
    end.
    rewrite (bind_run _ _ _ _ _ Hout), st_logged_logged.
    eexists. split; [|right; right; exists rest; split; [lia|]; split;
                      [|reflexivity]].
    - untouched_solve.
    - done. }
  destruct (_ =? _); [apply init_syntax_reads|].
  destruct (_ =? _).
  { rewrite member_run. destruct (mReplace (self st)); [rejects|].
    sets_flag rest. }
  rejects.
Qed.

(** The loop of [init] ends: with the arguments rejected or accepted, or
    with the exception of a notice file that cannot be opened. *)
Lemma init_loop_run utf ArgV fuel rest st :
  (length rest < fuel)%nat ->
  init_loop utf fuel ArgV rest st = Throw ERROR_FILE_NOT_FOUND
  \/ exists b st',
       init_loop utf fuel ArgV rest st = Ok b st'
       /\ untouched st st'
       /\ (b = true -> configured (self st) -> configured (self st')).
Proof.
  revert rest st. induction fuel as [|fuel IH]; intros rest st Hfuel; [lia|].
  destruct rest as [|arg rest]; cbn [init_loop].
  { right. exists true, st. split; [done|].
    split; [apply untouched_refl|done]. }
  destruct (init_argument_reads utf ArgV (init_loop utf fuel ArgV) arg rest st)
    as (st2 & Hst2 & [H|[H|(rest' & Hlen & Hconf & H)]]).
  - right. exists false, st2. by rewrite H.
  - by left.
  - rewrite H. cbn [length] in Hfuel.
    destruct (IH rest' st2) as [Hthrow|(b & st' & Hrun & Hst' & Hb)]; [lia|..].
    + by left.
    + right. exists b, st'. split; [done|].
      split; [by eapply untouched_trans|]. auto.
Qed.

Lemma init_arguments_run utf ArgV st :
  init_arguments utf ArgV st = Throw ERROR_FILE_NOT_FOUND
  \/ exists b st',
       init_arguments utf ArgV st = Ok b st'
       /\ untouched st st'
       /\ (b = true -> configured (self st) -> configured (self st')).
Proof.
  unfold init_arguments. destruct (_ <? 2).
  - right. exists false. eexists. split; [apply reject_run|].
    split; [apply untouched_logged|done].
  - apply init_loop_run. rewrite length_drop. lia.
Qed.

(** X4.  Reading the arguments always ends: [init] rejects or accepts
    them, or leaves by the exception of a notice file that cannot be
    opened.  When it returns, no file is changed, the overwrite policy and
    the console input are as before, and the console output has only
    grown. *)
Theorem init_arguments_returns utf ArgV st :
  init_arguments utf ArgV st = Throw ERROR_FILE_NOT_FOUND
  \/ exists b st',
       init_arguments utf ArgV st = Ok b st'
       /\ files st' = files st
       /\ mAlwaysOverwriteFiles (self st') = mAlwaysOverwriteFiles (self st)
       /\ pending (mCons (self st')) = pending (mCons (self st))
       /\ mLastRead (mCons (self st')) = mLastRead (mCons (self st))
       /\ exists out,
            written (mCons (self st')) = written (mCons (self st)) ++ out.
Proof.
  destruct (init_arguments_run utf ArgV st)
    as [H|(b & st' & H & Hst' & _)]; [by left|].
  right. by exists b, st'.
Qed.

(** X5.  Arguments that [init] accepts are valid: every pair of
    directories has a destination that is not empty, no trailing slash and
    no illegal character in its paths; every extension has 1 to 15
    characters, none of them illegal; the comment prefix ends within the 16
    bytes of its array. *)
Theorem init_arguments_configured utf ArgV st st' :
  configured (self st) ->
  init_arguments utf ArgV st = Ok true st' ->
  Forall valid_directory (mDirectories (self st'))
  /\ Forall valid_extension (mExtensions (self st'))
  /\ length (mCommentPrefix (self st')) = 16%nat
  /\ (length (U8.c_str (mCommentPrefix (self st'))) <= 15)%nat.
Proof.
  intros Hconf Hrun.
  destruct (init_arguments_run utf ArgV st)
    as [H|(b & st2 & H & _ & Hb)]; [congruence|].
  rewrite Hrun in H. inversion H; subst. by apply Hb.
Qed.

Lemma init_arguments_configured_witness :
  configured (instance_new [])
  /\ exists st',
       init_arguments U8.lit
         ["copynotice"; "/dir"; "in"; "out"; "/ext"; "c"; "/note"; "N";
          "/syntax"; "# "; "/recurse"]
         {| self := instance_new []; files := ∅ |}
       = Ok true st'
       /\ mDirectories (self st') = [{| src := "in"; dst := "out" |}]
       /\ mExtensions (self st') = ["c"]
       /\ U8.c_str (mCommentPrefix (self st')) = U8.lit "# "
       /\ Forall valid_directory (mDirectories (self st')).
Proof.
  assert (configured (instance_new [])) as Hconf.
  { repeat split; try constructor. cbn. lia. }
  split; [exact Hconf|].
  eexists. split; [vm_compute; reflexivity|].
  split; [reflexivity|]. split; [reflexivity|]. split; [reflexivity|].
  eapply (init_arguments_configured U8.lit
            ["copynotice"; "/dir"; "in"; "out"; "/ext"; "c"; "/note"; "N";
             "/syntax"; "# "; "/recurse"]
            {| self := instance_new []; files := ∅ |}); [exact Hconf|].
  vm_compute. reflexivity.
Defined.

(** ** The comment prefix *)

Lemma c_str_app_NUL a b :
  Forall (fun c => c <> U8.NUL) a -> U8.c_str (a ++ U8.NUL :: b) = a.
Proof.
  induction 1 as [|c a Hc Ha IH]; [done|].
  cbn [app U8.c_str]. destruct (Byte.eqb c U8.NUL) eqn:E.
  - by apply Byte.byte_dec_bl in E.
  - by rewrite IH.
Qed.

(** X6.  The prefix that [/syntax] copies into [mCommentPrefix] is the
    prefix that [create_file] reads from it: the characters of a
    subargument that fits into the array and has no null in it are the
    characters of the array up to its first null, and the array keeps its
    size. *)
Theorem memcpy_prefix_c_str array subargument :
  Forall (fun c => c <> U8.NUL) subargument ->
  (length subargument < length array)%nat ->
  U8.c_str (memcpy_prefix array subargument) = subargument
  /\ length (memcpy_prefix array subargument) = length array.
Proof.
  intros Hsub Hlen. unfold memcpy_prefix. split.
  - rewrite <- app_assoc. by apply c_str_app_NUL.
  - rewrite !length_app, length_drop. cbn [length]. lia.
Qed.

Lemma memcpy_prefix_c_str_witness :
  U8.c_str (memcpy_prefix default_comment_prefix (U8.lit "# ")) = U8.lit "# "
  /\ length (memcpy_prefix default_comment_prefix (U8.lit "# "))
     = length default_comment_prefix.
Proof.
  apply (memcpy_prefix_c_str default_comment_prefix (U8.lit "# ")).
  - repeat constructor; discriminate.
  - cbn. lia.
Defined.

(** ** Reading a line from the console *)

Lemma append_cons c s t : String c s +:+ t = String c (s +:+ t).
Proof. reflexivity. Qed.

Lemma append_assoc s t u : (s +:+ t) +:+ u = s +:+ (t +:+ u).
Proof.
  induction s as [|c s IH]; [done|]. rewrite !append_cons. by f_equal.
Qed.

Lemma append_length s t :
  String.length (s +:+ t) = (String.length s + String.length t)%nat.
Proof.
  induction s as [|c s IH]; [done|].
  rewrite append_cons. cbn [String.length]. by rewrite IH.
Qed.

Lemma leading_app_le n s t :
  (n <= String.length s)%nat -> leading n (s +:+ t) = leading n s.
Proof.
  revert s. induction n as [|n IH]; intros [|c s] Hn; try done.
  - cbn in Hn. lia.
  - rewrite append_cons. cbn [leading]. f_equal. apply IH. cbn in Hn. lia.
Qed.

(** While a call fills the buffer, the loop reads on. *)
Lemma read_chunks_full fulls input Str :
  Forall (fun chunk => Z.of_nat (String.length chunk) = mWchBufferSize) fulls ->
  read_chunks (fulls ++ input) Str
  = read_chunks input (fold_left String.append fulls Str).
Proof.
  intros Hfulls. revert Str.
  induction Hfulls as [|chunk fulls Hchunk _ IH]; intros Str; [done|].
  cbn [app read_chunks fold_left]. rewrite Hchunk.
  change (u32 mWchBufferSize =? mWchBufferSize) with true. cbn iota.
  apply IH.
Qed.

(** X7.  [console::read] on a line that the user types: the calls that
    fill the buffer, then one with the rest of the line, [tail], and its
    line end.  The string is cut to the length of [tail]: the result is
    the line when the buffer holds it whole and the string was empty, and
    otherwise only the first characters of the string's previous contents
    and the line. *)
Theorem console_read_line output fulls tail input Str :
  Forall (fun chunk => Z.of_nat (String.length chunk) = mWchBufferSize) fulls ->
  Z.of_nat (String.length tail) + 2 < mWchBufferSize ->
  console_read output (fulls ++ (tail +:+ CRLF) :: input) Str
  = Some (output ++ [sgr "0" +:+ "> "],
          leading (String.length tail)
                  (fold_left String.append fulls Str +:+ tail),
          input).
Proof.
  intros Hfulls Htail. unfold console_read.
  rewrite read_chunks_full by done.
  set (whole := fold_left String.append fulls Str).
  cbn [read_chunks].
  assert (u32 (Z.of_nat (String.length (tail +:+ CRLF)))
          = Z.of_nat (String.length tail) + 2) as ->.
  { rewrite append_length. unfold mWchBufferSize in Htail.
    cbn [String.length CRLF]. rewrite u32_small; lia. }
  destruct (Z.eqb_spec (Z.of_nat (String.length tail) + 2) mWchBufferSize)
    as [Heq|_]; [lia|].
  assert (ends_with (whole +:+ tail +:+ CRLF) CRLF = true) as ->.
  { apply ends_with_suffix. exists (whole +:+ tail). by rewrite append_assoc. }
  do 2 f_equal. f_equal. unfold resize.
  replace (Z.of_nat (String.length tail) + 2 - 2)
    with (Z.of_nat (String.length tail)) by lia.
  rewrite u32_small by (unfold mWchBufferSize in Htail; lia).
  rewrite Nat2Z.id.
  replace (String.length tail - String.length (whole +:+ tail +:+ CRLF))%nat
    with 0%nat by (rewrite !append_length; lia).
  cbn [nulls]. rewrite append_empty, <- append_assoc.
  apply leading_app_le. rewrite append_length. lia.
Qed.

Lemma console_read_line_witness :
  console_read [] ["yes" +:+ CRLF; "next" +:+ CRLF] ""
  = Some ([sgr "0" +:+ "> "], "yes", ["next" +:+ CRLF])
  /\ console_read [] ["yes" +:+ CRLF] "ab"
     = Some ([sgr "0" +:+ "> "], "aby", []).
Proof.
  split.
  - apply (console_read_line [] [] "yes" ["next" +:+ CRLF] "").
    + constructor.
    + reflexivity.
  - apply (console_read_line [] [] "yes" [] "ab").
    + constructor.
    + reflexivity.
Defined.

(** X8.  While every call fills the buffer, [console::read] reads on:
    a line that with its line end has exactly the size of the buffer, or a
    multiple of it, does not end the read. *)
Theorem console_read_full output fulls Str :
  Forall (fun chunk => Z.of_nat (String.length chunk) = mWchBufferSize) fulls ->
  console_read output fulls Str = None.
Proof.
  intros Hfulls. unfold console_read.
  rewrite <- (app_nil_r fulls). by rewrite read_chunks_full.
Qed.

Lemma console_read_full_witness :
  console_read []
    ["0123456789012345678901234567890123456789012345678901234567890123"
     +:+ "45678901234567890123456789012345678901234567890123456789012345"
     +:+ CRLF] ""
  = None.
Proof.
  apply (console_read_full []
           ["0123456789012345678901234567890123456789012345678901234567890123"
            +:+ "45678901234567890123456789012345678901234567890123456789012345"
            +:+ CRLF] "").
  repeat constructor.
Defined.

(** ** The question, answered after lines that are no answer *)

(** X9.  [ask_yesno] reads lines until one is [y], [yes], [n] or [no]:
    for every line before it there is one input mark and one message that
    the input is invalid, the answer is the last-read string, and the lines
    after it are left in the input. *)
Theorem ask_yesno_on_rejects rejected line input Console :
  Forall (fun l => ~ In l ["y"; "yes"; "n"; "no"]) rejected ->
  In line ["y"; "yes"; "n"; "no"] ->
  ask_yesno_on (rejected ++ line :: input) Console
  = Some (String.eqb line "y" || String.eqb line "yes",
          {| written :=
               written Console
               ++ concat (map (fun _ => [sgr "0" +:+ "> ";
                                         "Invalid input. Enter yes or no."
                                         +:+ NL]) rejected)
               ++ [sgr "0" +:+ "> "];
             pending := input;
             mLastRead := line |}).
Proof.
  intros Hrejected Hline. revert Console.
  induction Hrejected as [|l rejected Hl _ IH]; intros Console.
  - cbn [app ask_yesno_on mLastRead map concat].
    destruct Hline as [<-|[<-|[<-|[<-|[]]]]]; reflexivity.
  - cbn [app ask_yesno_on mLastRead].
    assert (String.eqb l "y" || String.eqb l "yes" = false) as ->.
    { apply orb_false_iff. rewrite !String.eqb_neq.
      split; intros ->; apply Hl; cbn; auto. }
    assert (String.eqb l "n" || String.eqb l "no" = false) as ->.
    { apply orb_false_iff. rewrite !String.eqb_neq.
      split; intros ->; apply Hl; cbn; auto. }
    rewrite IH. cbn [console_write written map concat app].
    by rewrite <- !app_assoc.
Qed.

Lemma ask_yesno_on_rejects_witness :
  ask_yesno_on ["maybe"; "Y"; "no"; "later"] (console_new [])
  = Some (false,
          {| written := [sgr "0" +:+ "> ";
                         "Invalid input. Enter yes or no." +:+ NL;
                         sgr "0" +:+ "> ";
                         "Invalid input. Enter yes or no." +:+ NL;
                         sgr "0" +:+ "> "];
             pending := ["later"];
             mLastRead := "no" |}).
Proof.
  apply (ask_yesno_on_rejects ["maybe"; "Y"] "no" ["later"] (console_new [])).
  - repeat constructor; intros [H|[H|[H|[H|[]]]]]; discriminate.
  - cbn. auto.
Defined.

(** ** What [create_file] changes *)

Lemma same_configuration_refl st : same_configuration st st.
Proof. by repeat split. Qed.

Lemma same_configuration_trans st1 st2 st3 :
  same_configuration st1 st2 -> same_configuration st2 st3 ->
  same_configuration st1 st3.
Proof.
  intros (H1 & H2 & H3 & H4 & H5 & H6 & H7)
         (H1' & H2' & H3' & H4' & H5' & H6' & H7').
  repeat split; congruence.
Qed.

Lemma same_configuration_logged out st :
  same_configuration st (st_logged out st).
Proof. by repeat split. Qed.

(** The files after a call of [create_file] that returns. *)
Lemma create_file_files Directories Fname st created st' :
  create_file Directories Fname st = Ok created st' ->
  is_Some (files st !! srcPath Directories Fname)
  /\ ((created = false /\ files st' = files st)
      \/ (created = true
          /\ srcPath Directories Fname <> dstPath Directories Fname
          /\ exists bytes,
               files st' = <[dstPath Directories Fname := bytes]> (files st))).
Proof.
  intros Hrun.
  destruct (files st !! srcPath Directories Fname) as [content|] eqn:Hsrc.
  2:{ by rewrite create_file_throw in Hrun. }
  split; [by eexists|].
  destruct (mAlwaysOverwriteFiles (self st)) eqn:Hflag.
  { destruct (create_file_proceeds _ _ _ _ Hsrc (or_introl Hflag))
      as [out Heq].
    rewrite Heq in Hrun.
    apply create_file_write_inv in Hrun as (Hne & -> & bytes & out' & ->).
    right. split; [done|]. split; [done|]. by exists bytes. }
  destruct (files st !! dstPath Directories Fname) as [old|] eqn:Hdst.
  2:{ destruct (create_file_proceeds _ _ _ _ Hsrc (or_intror Hdst))
        as [out Heq].
      rewrite Heq in Hrun.
      apply create_file_write_inv in Hrun as (Hne & -> & bytes & out' & ->).
      right. split; [done|]. split; [done|]. by exists bytes. }
  destruct (create_file_asks _ _ _ _ _ Hsrc Hflag Hdst) as [out Heq].
  rewrite Heq in Hrun.
  destruct (ask_yesno _) as [[[|] c]|]; [| |discriminate].
  - apply create_file_write_inv in Hrun as (Hne & -> & bytes & out' & ->).
    right. split; [done|]. split; [done|]. by exists bytes.
  - inversion Hrun; subst. by left.
Qed.

Lemma create_file_same_configuration Directories Fname st created st' :
  create_file Directories Fname st = Ok created st' ->
  same_configuration st st'.
Proof.
  intros Hrun. apply create_file_inv in Hrun as (Hself & _).
  unfold same_configuration. rewrite Hself. by repeat split.
Qed.

(** X10.  A call of [create_file] that returns has opened the source file
    and has not changed it, nor any file but the one at the destination
    path, nor the members that the command line sets.  It returns true only
    with a file at the destination path, and false only with all files as
    they were. *)
Theorem create_file_frame Directories Fname st created st' :
  create_file Directories Fname st = Ok created st' ->
  is_Some (files st !! srcPath Directories Fname)
  /\ files st' !! srcPath Directories Fname
     = files st !! srcPath Directories Fname
  /\ (forall path,
        path <> dstPath Directories Fname ->
        files st' !! path = files st !! path)
  /\ (created = true -> is_Some (files st' !! dstPath Directories Fname))
  /\ (created = false -> files st' = files st)
  /\ same_configuration st st'.
Proof.
  intros Hrun.
  pose proof (create_file_same_configuration _ _ _ _ _ Hrun) as Hconf.
  apply create_file_files in Hrun
    as (Hsrc & [(-> & ->)|(-> & Hne & bytes & ->)]).
  - by do 5 (split; [done|]).
  - split; [done|]. split; [by rewrite lookup_insert_ne|].
    split; [intros path Hpath; by rewrite lookup_insert_ne|].
    split; [intros _; rewrite lookup_insert_eq; by eexists|].
    by split.
Qed.

Lemma create_file_frame_witness :
  exists st',
    create_file Example.Directories "a.c"
      (Example.fresh (U8.lit "N") (U8.lit "x") false)
    = Ok true st'
    /\ files st' !! "in\a.c" = Some (U8.lit "x")
    /\ is_Some (files st' !! "out\a.c").
Proof.
  eexists. split; [vm_compute; reflexivity|].
  match goal with
  | |- files ?s !! _ = _ /\ _ =>
      destruct (create_file_frame Example.Directories "a.c"
                  (Example.fresh (U8.lit "N") (U8.lit "x") false) true s)
        as (_ & Hsrc & _ & Hdst & _); [vm_compute; reflexivity|]
  end.
  split; [exact Hsrc|]. by apply Hdst.
Defined.

(** ** The files that [iterate] hands to [create_file] *)

Lemma ret_bind_run {A B} (a : A) (k : A -> M B) st : bind (ret a) k st = k a st.
Proof. reflexivity. Qed.

(** X11.  The loop of [iterate] passes over the entries that are hidden or
    directories: it runs as on the enumeration without them. *)
Theorem iterate_entries_plain Directories found filesCreated st :
  iterate_entries Directories found filesCreated st
  = iterate_entries Directories (List.filter plain found) filesCreated st.
Proof.
  revert filesCreated st.
  induction found as [|findData found IH]; intros filesCreated st; [done|].
  cbn [iterate_entries List.filter]. unfold plain at 1.
  destruct (has_attribute (dwFileAttributes findData) FILE_ATTRIBUTE_HIDDEN)
    eqn:Hh; cbn [negb andb].
  { rewrite ret_bind_run. apply IH. }
  destruct (has_attribute (dwFileAttributes findData)
                          FILE_ATTRIBUTE_DIRECTORY) eqn:Hd; cbn [negb].
  { rewrite ret_bind_run. apply IH. }
  cbn [iterate_entries]. rewrite Hh, Hd.
  unfold bind at 1 3.
  destruct (bind (create_file Directories (cFileName findData)) _ st);
    [apply IH|done..].
Qed.

(** The count and the files after the loop of [iterate]. *)
Lemma iterate_entries_inv Directories found filesCreated st n st' :
  0 <= filesCreated ->
  iterate_entries Directories found filesCreated st = Ok n st' ->
  0 <= n <= filesCreated + Z.of_nat (length (List.filter plain found))
  /\ (forall path,
        (forall findData,
           In findData found -> plain findData = true ->
           path <> dstPath Directories (cFileName findData)) ->
        files st' !! path = files st !! path)
  /\ same_configuration st st'.
Proof.
  revert filesCreated st.
  induction found as [|findData found IH]; intros filesCreated st Hpos Hrun.
  { inversion Hrun; subst. cbn. split; [lia|].
    split; [done|apply same_configuration_refl]. }
  cbn [iterate_entries List.filter] in *. unfold plain at 1.
  destruct (has_attribute (dwFileAttributes findData) FILE_ATTRIBUTE_HIDDEN)
    eqn:Hh; cbn [negb andb].
  { rewrite ret_bind_run in Hrun.
    destruct (IH _ _ Hpos Hrun) as (Hn & Hfiles & Hconf).
    split; [done|]. split; [|done].
    intros path Hpath. apply Hfiles. intros e He. apply Hpath. by right. }
  destruct (has_attribute (dwFileAttributes findData)
                          FILE_ATTRIBUTE_DIRECTORY) eqn:Hd; cbn [negb].
  { rewrite ret_bind_run in Hrun.
    destruct (IH _ _ Hpos Hrun) as (Hn & Hfiles & Hconf).
    split; [done|]. split; [|done].
    intros path Hpath. apply Hfiles. intros e He. apply Hpath. by right. }
  unfold bind at 1 2 in Hrun.
  destruct (create_file Directories (cFileName findData) st)
    as [created st1| | |] eqn:Hcreate; try discriminate.
  pose proof (create_file_same_configuration _ _ _ _ _ Hcreate) as Hconf1.
  assert (forall path,
            path <> dstPath Directories (cFileName findData) ->
            files st1 !! path = files st !! path) as Hframe.
  { intros path Hpath.
    apply create_file_files in Hcreate
      as (_ & [(_ & ->)|(_ & _ & bytes & ->)]); [done|].
    by rewrite lookup_insert_ne. }
  assert (0 <= (if created then u32 (filesCreated + 1) else filesCreated)
          <= filesCreated + 1) as Hcount.
  { destruct created; [|lia]. unfold u32.
    pose proof (Z.mod_pos_bound (filesCreated + 1) (2 ^ 32) ltac:(lia)).
    pose proof (Z.mod_le (filesCreated + 1) (2 ^ 32) ltac:(lia) ltac:(lia)).
    lia. }
  assert (iterate_entries Directories found
            (if created then u32 (filesCreated + 1) else filesCreated) st1
          = Ok n st') as Hrest by (by destruct created).
  destruct (IH _ _ (proj1 Hcount) Hrest) as (Hn & Hfiles & Hconf).
  split; [cbn [length]; lia|].
  split; [|by eapply same_configuration_trans].
  intros path Hpath. rewrite Hfiles.
  - apply Hframe. apply Hpath; [by left|].
    unfold plain. by rewrite Hh, Hd.
  - intros e He. apply Hpath. by right.
Qed.

(** [iterate] from the enumeration on. *)
Lemma iterate_run FindFiles Directories Extension st :
  exists out,
    iterate FindFiles Directories Extension st
    = (let found :=
         FindFiles (files st) (targetFilename Directories Extension) in
       match entries found with
       | [] =>
           if last_error found =? ERROR_FILE_NOT_FOUND then
             write [sgr "32" +:+ "Could not find a target file for target: "
                    +:+ sgr "33" +:+ DQ;
                    targetFilename Directories Extension; DQ +:+ NL] ;;
             ret 0
           else throw (last_error found)
       | _ :: _ =>
           filesCreated <- iterate_entries Directories (entries found) 0 ;;
           if last_error found =? ERROR_NO_MORE_FILES then
             write [sgr "32;1" +:+ "Finished target " +:+ DQ;
                    targetFilename Directories Extension;
                    DQ +:+ ": Created "; to_wstring filesCreated;
                    " file(s)" +:+ sgr "0" +:+ NL] ;;
             ret filesCreated
           else throw (last_error found)
       end)%prog (st_logged out st).
Proof.
  unfold iterate. rewrite member_run.
  fold (targetFilename Directories Extension).
  destruct (verbose_run (mVerbose (self st))
              [NL +:+ sgr "32" +:+ "Executing for target: " +:+ sgr "33"
               +:+ DQ; targetFilename Directories Extension; DQ +:+ NL] st)
    as [out Hout].
  rewrite (bind_run _ _ _ _ _ Hout). by exists out.
Qed.

(** X12.  The number that [iterate] returns is at most the number of
    entries found that are neither hidden nor directories.  The only files
    that may have changed are those at the destination paths of these
    entries; the members that the command line sets are as before. *)
Theorem iterate_count FindFiles Directories Extension st n st' :
  iterate FindFiles Directories Extension st = Ok n st' ->
  0 <= n
    <= Z.of_nat
         (length
            (List.filter plain
               (entries (FindFiles (files st)
                                   (targetFilename Directories Extension)))))
  /\ (forall path,
        (forall findData,
           In findData
              (entries (FindFiles (files st)
                                  (targetFilename Directories Extension))) ->
           plain findData = true ->
           path <> dstPath Directories (cFileName findData)) ->
        files st' !! path = files st !! path)
  /\ same_configuration st st'.
Proof.
  intros Hrun.
  set (found := entries (FindFiles (files st)
                                   (targetFilename Directories Extension))).
  destruct (iterate_run FindFiles Directories Extension st) as [out Hout].
  rewrite Hout in Hrun. cbv zeta in Hrun. fold found in Hrun.
  destruct found as [|findData found'] eqn:Hfound.
  - destruct (_ =? ERROR_FILE_NOT_FOUND); [|discriminate].
    rewrite write_bind_run in Hrun. inversion Hrun; subst.
    cbn. split; [lia|]. by split.
  - unfold bind at 1 in Hrun.
    destruct (iterate_entries Directories (findData :: found') 0
                (st_logged out st)) as [m st1| | |] eqn:Hloop;
      try discriminate.
    destruct (_ =? ERROR_NO_MORE_FILES); [|discriminate].
    rewrite write_bind_run in Hrun. inversion Hrun; subst.
    apply iterate_entries_inv in Hloop as (Hn & Hfiles & Hconf); [|lia].
    split; [lia|]. split; [exact Hfiles|].
    eapply same_configuration_trans; [|apply same_configuration_logged].
    eapply same_configuration_trans; [|exact Hconf].
    apply same_configuration_logged.
Qed.

Lemma iterate_count_witness :
  exists n st',
    iterate (fun _ _ => {| entries := [Example.H; Example.a_c];
                           last_error := ERROR_NO_MORE_FILES |})
            Example.Directories "c"
            (Example.fresh (U8.lit "N") (U8.lit "x") false)
    = Ok n st'
    /\ 0 <= n <= 1
    /\ files st' !! "in\a.c" = Some (U8.lit "x").
Proof.
  eexists. eexists. split; [vm_compute; reflexivity|].
  match goal with
  | |- _ /\ files ?s !! _ = _ =>
      destruct (iterate_count
                  (fun _ _ => {| entries := [Example.H; Example.a_c];
                                 last_error := ERROR_NO_MORE_FILES |})
                  Example.Directories "c"
                  (Example.fresh (U8.lit "N") (U8.lit "x") false) 1 s)
        as (Hn & Hfiles & _); [vm_compute; reflexivity|]
  end.
  split; [exact Hn|].
  rewrite Hfiles; [reflexivity|].
  intros findData [<-|[<-|[]]]; [discriminate|]. intros _. discriminate.
Defined.

(** X13.  The ways [iterate] ends without a file handled or without a
    count.  When nothing matches the target ([FindFirstFileW] fails with
    [ERROR_FILE_NOT_FOUND]) it returns 0 and no file is changed; when the
    enumeration cannot start for another reason it throws that error; and
    when an enumeration that has started ends with another error than
    [ERROR_NO_MORE_FILES], it does not return. *)
Theorem iterate_errors FindFiles Directories Extension st :
  let found := FindFiles (files st) (targetFilename Directories Extension) in
  (entries found = [] -> last_error found = ERROR_FILE_NOT_FOUND ->
   exists st',
     iterate FindFiles Directories Extension st = Ok 0 st'
     /\ untouched st st' /\ same_configuration st st')
  /\ (entries found = [] -> last_error found <> ERROR_FILE_NOT_FOUND ->
      iterate FindFiles Directories Extension st = Throw (last_error found))
  /\ (entries found <> [] -> last_error found <> ERROR_NO_MORE_FILES ->
      forall n st', iterate FindFiles Directories Extension st <> Ok n st').
Proof.
  intros found.
  destruct (iterate_run FindFiles Directories Extension st) as [out ->].
  cbv zeta. fold found. split; [|split].
  - intros -> ->. rewrite Z.eqb_refl, write_bind_run.
    eexists. split; [reflexivity|].
    rewrite st_logged_logged.
    split; [apply untouched_logged|apply same_configuration_logged].
  - intros -> Hne. by apply Z.eqb_neq in Hne as ->.
  - intros Hfound Hne n st'. destruct (entries found); [done|].
    unfold bind at 1.
    match goal with
    | |- context [iterate_entries ?a ?b ?c ?d] =>
        destruct (iterate_entries a b c d); try done
    end.
    by apply Z.eqb_neq in Hne as ->.
Qed.

Lemma iterate_errors_witness :
  (exists st',
     iterate (fun _ _ => {| entries := [];
                            last_error := ERROR_FILE_NOT_FOUND |})
             Example.Directories "c"
             (Example.fresh (U8.lit "N") (U8.lit "x") false)
     = Ok 0 st'
     /\ files st' = files (Example.fresh (U8.lit "N") (U8.lit "x") false))
  /\ iterate (fun _ _ => {| entries := []; last_error := 5 |})
             Example.Directories "c"
             (Example.fresh (U8.lit "N") (U8.lit "x") false)
     = Throw 5
  /\ forall n st',
       iterate (fun _ _ => {| entries := [Example.a_c]; last_error := 5 |})
               Example.Directories "c"
               (Example.fresh (U8.lit "N") (U8.lit "x") false)
       <> Ok n st'.
Proof.
  split; [|split].
  - destruct (iterate_errors
                (fun _ _ => {| entries := [];
                               last_error := ERROR_FILE_NOT_FOUND |})
                Example.Directories "c"
                (Example.fresh (U8.lit "N") (U8.lit "x") false))
      as (H & _ & _).
    destruct (H eq_refl eq_refl) as (st' & Hrun & (Hfiles & _) & _).
    by exists st'.
  - destruct (iterate_errors
                (fun _ _ => {| entries := []; last_error := 5 |})
                Example.Directories "c"
                (Example.fresh (U8.lit "N") (U8.lit "x") false))
      as (_ & H & _).
    apply H; [reflexivity|discriminate].
  - destruct (iterate_errors
                (fun _ _ => {| entries := [Example.a_c]; last_error := 5 |})
                Example.Directories "c"
                (Example.fresh (U8.lit "N") (U8.lit "x") false))
      as (_ & _ & H).
    apply H; discriminate.
Defined.

(** ** What [execute] changes *)

Lemma iterate_frame FindFiles Directories Extension st n st' :
  iterate FindFiles Directories Extension st = Ok n st' ->
  (forall path,
     (forall Fname, path <> dstPath Directories Fname) ->
     files st' !! path = files st !! path)
  /\ same_configuration st st'.
Proof.
  intros Hrun.
  destruct (iterate_run FindFiles Directories Extension st) as [out Hout].
  rewrite Hout in Hrun. cbv zeta in Hrun.
  destruct (entries _) as [|findData found] eqn:Hfound.
  - destruct (_ =? ERROR_FILE_NOT_FOUND); [|discriminate].
    rewrite write_bind_run in Hrun. inversion Hrun; subst.
    split; [done|]. rewrite st_logged_logged. apply same_configuration_logged.
  - unfold bind at 1 in Hrun.
    destruct (iterate_entries Directories (findData :: found) 0
                (st_logged out st)) as [m st1| | |] eqn:Hloop;
      try discriminate.
    destruct (_ =? ERROR_NO_MORE_FILES); [|discriminate].
    rewrite write_bind_run in Hrun. inversion Hrun; subst.
    apply iterate_entries_inv in Hloop as (_ & Hfiles & Hconf); [|lia].
    split.
    + intros path Hpath. apply Hfiles. intros e _ _. apply Hpath.
    + eapply same_configuration_trans; [|apply same_configuration_logged].
      eapply same_configuration_trans; [|exact Hconf].
      apply same_configuration_logged.
Qed.

Lemma execute_extensions_frame FindFiles directories extensions filesCreated
    st n st' :
  execute_extensions FindFiles directories extensions filesCreated st
  = Ok n st' ->
  (forall path,
     (forall Fname, path <> dstPath directories Fname) ->
     files st' !! path = files st !! path)
  /\ same_configuration st st'.
Proof.
  revert filesCreated st.
  induction extensions as [|extension extensions IH];
    intros filesCreated st Hrun.
  { inversion Hrun; subst. split; [done|apply same_configuration_refl]. }
  cbn [execute_extensions] in Hrun. unfold bind at 1 in Hrun.
  destruct (iterate FindFiles directories extension st)
    as [m st1| | |] eqn:Hiter; try discriminate.
  apply iterate_frame in Hiter as (Hfiles1 & Hconf1).
  apply IH in Hrun as (Hfiles & Hconf).
  split; [|by eapply same_configuration_trans].
  intros path Hpath. rewrite Hfiles by done. by apply Hfiles1.
Qed.

Lemma execute_directories_frame FindFiles all extensions filesCreated
    st n st' :
  execute_directories FindFiles all extensions filesCreated st = Ok n st' ->
  (forall path,
     (forall Directories Fname,
        In Directories all -> path <> dstPath Directories Fname) ->
     files st' !! path = files st !! path)
  /\ same_configuration st st'.
Proof.
  revert filesCreated st.
  induction all as [|directories all IH]; intros filesCreated st Hrun.
  { inversion Hrun; subst. split; [done|apply same_configuration_refl]. }
  cbn [execute_directories] in Hrun. unfold bind at 1 in Hrun.
  destruct (execute_extensions FindFiles directories extensions filesCreated
              st) as [m st1| | |] eqn:Hext; try discriminate.
  apply execute_extensions_frame in Hext as (Hfiles1 & Hconf1).
  apply IH in Hrun as (Hfiles & Hconf).
  split; [|by eapply same_configuration_trans].
  intros path Hpath. rewrite Hfiles.
  - apply Hfiles1. intros Fname. apply Hpath. by left.
  - intros D Fname HD. apply Hpath. by right.
Qed.

(** X14.  A run of [execute] that returns has changed no file but files
    right under the destination directories of [mDirectories], and none of
    the members that the command line sets. *)
Theorem execute_frame FindFiles st n st' :
  execute FindFiles st = Ok n st' ->
  (forall path,
     (forall Directories Fname,
        In Directories (mDirectories (self st)) ->
        path <> dstPath Directories Fname) ->
     files st' !! path = files st !! path)
  /\ same_configuration st st'.
Proof.
  unfold execute. rewrite write_bind_run, !member_run.
  cbn [self st_logged set_self mDirectories mExtensions set_mCons].
  intros Hrun. unfold bind at 1 in Hrun.
  destruct (execute_directories _ _ _ _ _) as [m st1| | |] eqn:Hdirs;
    try discriminate.
  rewrite write_bind_run in Hrun. inversion Hrun; subst.
  apply execute_directories_frame in Hdirs as (Hfiles & Hconf).
  split; [exact Hfiles|].
  eapply same_configuration_trans; [|apply same_configuration_logged].
  eapply same_configuration_trans; [|exact Hconf].
  apply same_configuration_logged.
Qed.

Lemma execute_frame_witness :
  exists n st',
    execute (fun _ _ => {| entries := [Example.a_c];
                           last_error := ERROR_NO_MORE_FILES |})
            (Example.fresh (U8.lit "N") (U8.lit "x") false)
    = Ok n st'
    /\ files st' !! "in\a.c" = Some (U8.lit "x").
Proof.
  eexists. eexists. split; [vm_compute; reflexivity|].
  match goal with
  | |- files ?s !! _ = _ =>
      destruct (execute_frame
                  (fun _ _ => {| entries := [Example.a_c];
                                 last_error := ERROR_NO_MORE_FILES |})
                  (Example.fresh (U8.lit "N") (U8.lit "x") false) 1 s)
        as (Hfiles & _); [vm_compute; reflexivity|]
  end.
  rewrite Hfiles; [reflexivity|].
  intros D Fname [<-|[]]. discriminate.
Defined.

(** ** The pairs that [target_directories] adds *)

Lemma below_child Directories name :
  is_dot_entry name = false -> below Directories (child Directories name).
Proof. intros Hname. exists [name]. by repeat constructor. Qed.

Lemma below_step Directories name d :
  is_dot_entry name = false ->
  below (child Directories name) d -> below Directories d.
Proof.
  intros Hname (names & _ & Hnames & ->). exists (name :: names).
  split; [done|]. split; [by constructor|done].
Qed.

(** The loop over the entries, when the recursive call adds pairs below
    the pair it is called with. *)
Lemma target_entries_below recur Directories found :
  (forall D New st New' st',
     recur D New st = Ok New' st' ->
     exists added out,
       New' = New ++ added /\ st' = st_logged out st
       /\ Forall (below D) added) ->
  forall New st New' st',
    target_entries recur Directories found New st = Ok New' st' ->
    exists added out,
      New' = New ++ added /\ st' = st_logged out st
      /\ Forall (below Directories) added.
Proof.
  intros Hrecur. induction found as [|findData found IH];
    intros New st New' st' Hrun.
  { inversion Hrun; subst. exists [], [].
    by rewrite app_nil_r, st_logged_nil. }
  cbn [target_entries] in Hrun.
  destruct (negb (has_attribute (dwFileAttributes findData)
                                FILE_ATTRIBUTE_DIRECTORY)).
  { rewrite ret_bind_run in Hrun. by apply IH. }
  destruct (has_attribute (dwFileAttributes findData) FILE_ATTRIBUTE_HIDDEN).
  { rewrite ret_bind_run in Hrun. by apply IH. }
  destruct (is_dot_entry (cFileName findData)) eqn:Hdot.
  { rewrite ret_bind_run in Hrun. by apply IH. }
  cbv zeta in Hrun. unfold bind at 1 in Hrun.
  change (target_entries recur Directories found)
    with (fun New => target_entries recur Directories found New) in Hrun.
  match type of Hrun with
  | match recur ?d ?l st with _ => _ end = _ =>
      replace d with (child Directories (cFileName findData)) in Hrun
        by (unfold child; by destruct (empty (src Directories)))
  end.
  destruct (recur _ _ st) as [New1 st1| | |] eqn:Hcall; try discriminate.
  apply Hrecur in Hcall as (added1 & out1 & -> & -> & Hadded1).
  apply IH in Hrun as (added & out & -> & -> & Hadded).
  exists ((child Directories (cFileName findData) :: added1) ++ added),
         (out1 ++ out).
  split; [by rewrite <- !app_assoc|].
  split; [by rewrite st_logged_logged|].
  apply Forall_app. split; [|done]. constructor.
  - by apply below_child.
  - eapply Forall_impl; [exact Hadded1|].
    intros d. by apply below_step.
Qed.

(** A call that returns has added pairs below its pair, and written to
    the console. *)
Lemma target_directories_added FindFiles depth Directories NewDirectories
    st NewDirectories' st' :
  target_directories FindFiles depth Directories NewDirectories st
  = Ok NewDirectories' st' ->
  exists added out,
    NewDirectories' = NewDirectories ++ added
    /\ st' = st_logged out st
    /\ Forall (below Directories) added.
Proof.
  revert Directories NewDirectories st NewDirectories' st'.
  induction depth as [|depth IH]; intros D New st New' st' Hrun.
  - cbn [target_directories] in Hrun.
    rewrite write_bind_run, member_run in Hrun.
    destruct (negb _); [|discriminate].
    inversion Hrun; subst. exists []. eexists.
    by rewrite app_nil_r.
  - rewrite target_directories_S in Hrun.
    rewrite write_bind_run, member_run in Hrun.
    destruct (negb _).
    { inversion Hrun; subst. exists []. eexists. by rewrite app_nil_r. }
    unfold bind at 1, get at 1 in Hrun.
    destruct (entries _) as [|findData found] eqn:Hfound; [discriminate|].
    unfold bind at 1 in Hrun.
    destruct (target_entries _ _ _ _ _) as [New1 st1| | |] eqn:Hloop;
      try discriminate.
    destruct (negb _); [discriminate|].
    inversion Hrun; subst.
    apply (target_entries_below _ _ _ IH) in Hloop
      as (added & out & -> & -> & Hadded).
    exists added. eexists. split; [done|].
    split; [by rewrite st_logged_logged|done].
Qed.

(** X15.  A call of [target_directories] that returns has only added to
    [NewDirectories].  Every pair it adds is reached from [Directories] by
    a path of child names, the same on the source and on the destination,
    none of them [.] or [..].  No file and no member that the command line
    sets is changed, and nothing is read from the console. *)
Theorem target_directories_below FindFiles depth Directories NewDirectories
    st NewDirectories' st' :
  target_directories FindFiles depth Directories NewDirectories st
  = Ok NewDirectories' st' ->
  (exists added,
     NewDirectories' = NewDirectories ++ added
     /\ Forall (below Directories) added)
  /\ untouched st st'
  /\ same_configuration st st'.
Proof.
  intros Hrun.
  apply target_directories_added in Hrun as (added & out & -> & -> & Hadded).
  split; [by exists added|].
  split; [apply untouched_logged|apply same_configuration_logged].
Qed.

Lemma target_directories_below_witness :
  exists st',
    target_directories Example.tree 2 Example.A [] (Example.targeting true)
    = Ok [child Example.A "B"; child Example.A "C"] st'
    /\ Forall (below Example.A) [child Example.A "B"; child Example.A "C"]
    /\ files st' = files (Example.targeting true).
Proof.
  eexists. split; [vm_compute; reflexivity|].
  match goal with
  | |- _ /\ files ?s = _ =>
      destruct (target_directories_below Example.tree 2 Example.A []
                  (Example.targeting true)
                  [child Example.A "B"; child Example.A "C"] s)
        as ((added & Hadded & Hbelow) & (Hfiles & _) & _);
        [vm_compute; reflexivity|]
  end.
  cbn [app] in Hadded. subst added. by split.
Defined.

(** ** Merging the new directories *)

Lemma init_already_targeted_run newDirectoryArg all alreadyTargeted st :
  exists out,
    init_already_targeted newDirectoryArg all alreadyTargeted st
    = Ok (alreadyTargeted
          || existsb (fun d => String.eqb (src d) (src newDirectoryArg)) all)
         (st_logged out st).
Proof.
  revert alreadyTargeted st.
  induction all as [|directories all IH]; intros alreadyTargeted st.
  { exists []. by rewrite orb_false_r, st_logged_nil. }
  cbn [init_already_targeted existsb].
  destruct (String.eqb (src directories) (src newDirectoryArg)).
  - unfold bind at 1. rewrite write_bind_run. unfold ret at 1.
    destruct (IH true (st_logged
                         [sgr "90" +:+ "Directory " +:+ sgr "33" +:+ DQ;
                          src newDirectoryArg;
                          DQ +:+ sgr "90" +:+ " is already targeted." +:+ NL]
                         st)) as [out ->].
    rewrite st_logged_logged. eexists. by rewrite orb_true_r.
  - rewrite ret_bind_run. destruct (IH alreadyTargeted st) as [out ->].
    by exists out.
Qed.

Lemma existsb_src d all :
  existsb (fun x => String.eqb (src x) (src d)) all = true
  <-> In (src d) (map src all).
Proof.
  rewrite existsb_exists, in_map_iff.
  split; intros (x & H1 & H2); exists x.
  - split; [|done]. by apply String.eqb_eq.
  - split; [done|]. by apply String.eqb_eq.
Qed.

(** The loop that merges the new directories, in full. *)
Lemma init_merge_run newDirectories st :
  exists st' kept,
    init_merge newDirectories st = Ok tt st'
    /\ files st' = files st
    /\ mDirectories (self st') = mDirectories (self st) ++ kept
    /\ sublist kept newDirectories
    /\ (forall d, In d newDirectories ->
                  In (src d) (map src (mDirectories (self st'))))
    /\ (NoDup (map src (mDirectories (self st))) ->
        NoDup (map src (mDirectories (self st')))).
Proof.
  revert st.
  induction newDirectories as [|d newDirectories IH]; intros st.
  { exists st, []. rewrite app_nil_r. by repeat split. }
  cbn [init_merge]. rewrite member_run.
  destruct (init_already_targeted_run d (mDirectories (self st)) false st)
    as [out Hout].
  rewrite (bind_run _ _ _ _ _ Hout). cbn [orb].
  destruct (existsb _ _) eqn:Hsrc; cbn [negb].
  - apply existsb_src in Hsrc. rewrite ret_bind_run.
    destruct (IH (st_logged out st))
      as (st' & kept & -> & Hfiles & Hdirs & Hkept & Hin & Hnodup).
    exists st', kept. split; [done|]. split; [done|]. split; [done|].
    split; [by constructor|]. split; [|done].
    intros d' [<-|Hd']; [|by apply Hin].
    rewrite Hdirs, map_app. apply in_or_app. by left.
  - unfold bind at 1, modify at 1.
    destruct (IH (set_self
                    (set_mDirectories
                       (mDirectories (self (st_logged out st)) ++ [d])
                       (self (st_logged out st))) (st_logged out st)))
      as (st' & kept & -> & Hfiles & Hdirs & Hkept & Hin & Hnodup).
    cbn [self set_self st_logged mDirectories set_mDirectories set_mCons files]
      in Hfiles, Hdirs, Hnodup.
    exists st', (d :: kept). split; [done|]. split; [done|].
    split; [by rewrite Hdirs, <- app_assoc|].
    split; [by constructor|]. split.
    + intros d' [<-|Hd']; [|by apply Hin].
      rewrite Hdirs, !map_app. apply in_or_app. left.
      apply in_or_app. right. by left.
    + intros Hno. apply Hnodup. rewrite map_app. cbn [map].
      apply NoDup_app. split; [done|]. split.
      * intros s Hs [<-|[]]%list_elem_of_In. apply list_elem_of_In in Hs.
        apply existsb_src in Hs. congruence.
      * apply NoDup_singleton.
Qed.

(** X16.  The loop that merges the new directories into [mDirectories]
    always returns.  It keeps the directories that are there, in front;
    afterwards every new directory has its source among those of
    [mDirectories], and no source is there twice unless one was before. *)
Theorem init_merge_sources newDirectories st :
  exists st',
    init_merge newDirectories st = Ok tt st'
    /\ (exists kept,
          mDirectories (self st') = mDirectories (self st) ++ kept)
    /\ (forall d, In d newDirectories ->
                  In (src d) (map src (mDirectories (self st'))))
    /\ (NoDup (map src (mDirectories (self st))) ->
        NoDup (map src (mDirectories (self st')))).
Proof.
  destruct (init_merge_run newDirectories st)
    as (st' & kept & Hrun & _ & Hdirs & _ & Hin & Hnodup).
  exists st'. split; [done|]. split; [by exists kept|done].
Qed.

Lemma init_merge_sources_witness :
  exists st',
    init_merge [child Example.A "B"; Example.A; child Example.A "B"]
               (Example.targeting true)
    = Ok tt st'
    /\ mDirectories (self st') = [Example.A; child Example.A "B"]
    /\ NoDup (map src (mDirectories (self st'))).
Proof.
  destruct (init_merge_sources
              [child Example.A "B"; Example.A; child Example.A "B"]
              (Example.targeting true))
    as (st' & Hrun & _ & _ & Hnodup).
  exists st'. split; [exact Hrun|].
  split.
  - vm_compute in Hrun. by inversion Hrun.
  - apply Hnodup. vm_compute. repeat constructor. by intros H%elem_of_nil.
Defined.

(** ** The directories that [init] targets *)

Lemma sublist_Forall {A} (P : A -> Prop) l k :
  sublist l k -> Forall P k -> Forall P l.
Proof.
  induction 1 as [|x l k _ IH|x l k _ IH]; intros Hk; [done|..].
  - inversion Hk; subst. constructor; auto.
  - inversion Hk; subst. auto.
Qed.

Lemma init_target_below FindFiles depth all :
  forall newDirectories st newDirectories' st',
    init_target FindFiles depth all newDirectories st
    = Ok newDirectories' st' ->
    exists added out,
      newDirectories' = newDirectories ++ added
      /\ st' = st_logged out st
      /\ Forall (fun d => exists D, In D all /\ below D d) added.
Proof.
  induction all as [|directories all IH]; intros new st new' st' Hrun.
  { inversion Hrun; subst. exists [], [].
    by rewrite app_nil_r, st_logged_nil. }
  cbn [init_target] in Hrun. unfold bind at 1 in Hrun.
  destruct (target_directories FindFiles depth directories new st)
    as [new1 st1| | |] eqn:Hcall; try discriminate.
  apply target_directories_added in Hcall
    as (added1 & out1 & -> & -> & Hadded1).
  apply IH in Hrun as (added & out & -> & -> & Hadded).
  exists (added1 ++ added), (out1 ++ out).
  split; [by rewrite app_assoc|]. split; [by rewrite st_logged_logged|].
  apply Forall_app. split.
  - eapply Forall_impl; [exact Hadded1|].
    intros d Hd. exists directories. by split; [left|].
  - eapply Forall_impl; [exact Hadded|].
    intros d (D & HD & Hd). exists D. by split; [right|].
Qed.

(** X17.  The expansion of the directories at the end of [init], when it
    returns: the directories of the command line are kept, in front; every
    directory added lies below one of them, with the same path of names on
    the source and on the destination; no source is targeted twice unless
    one was on the command line; no file is changed. *)
Theorem init_directories_targets FindFiles depth st st' :
  init_directories FindFiles depth st = Ok tt st' ->
  files st' = files st
  /\ (exists added,
        mDirectories (self st') = mDirectories (self st) ++ added
        /\ Forall (fun d =>
                     exists D, In D (mDirectories (self st)) /\ below D d)
                  added)
  /\ (NoDup (map src (mDirectories (self st))) ->
      NoDup (map src (mDirectories (self st')))).
Proof.
  unfold init_directories. rewrite member_run. intros Hrun.
  unfold bind at 1 in Hrun.
  destruct (init_target FindFiles depth (mDirectories (self st)) [] st)
    as [new st1| | |] eqn:Htarget; try discriminate.
  apply init_target_below in Htarget as (added & out & -> & -> & Hadded).
  destruct (init_merge_run ([] ++ added) (st_logged out st))
    as (st2 & kept & Hmerge & Hfiles & Hdirs & Hkept & _ & Hnodup).
  rewrite Hmerge in Hrun. inversion Hrun; subst.
  split; [done|]. split; [|done].
  exists kept. split; [done|].
  cbn [app] in Hkept. by eapply sublist_Forall.
Qed.

Lemma init_directories_targets_witness :
  exists st',
    init_directories Example.tree 2 (Example.targeting true) = Ok tt st'
    /\ files st' = files (Example.targeting true)
    /\ mDirectories (self st')
       = [Example.A; child Example.A "B"; child Example.A "C"].
Proof.
  eexists. split; [vm_compute; reflexivity|].
  split; [|reflexivity].
  match goal with
  | |- files ?s = _ =>
      destruct (init_directories_targets Example.tree 2
                  (Example.targeting true) s) as (Hfiles & _);
        [vm_compute; reflexivity|exact Hfiles]
  end.
Defined.

(** X18.  The ways [target_directories] fails with [/recurse] set.  When
    the listing of the directory cannot start it throws the error, whatever
    the error is; when a listing that has started ends with another error
    than [ERROR_NO_MORE_FILES], it does not return. *)
Theorem target_directories_errors FindFiles depth Directories NewDirectories
    st :
  mRecurse (self st) = true ->
  (entries (FindFiles (files st) (searchString Directories)) = [] ->
   target_directories FindFiles (S depth) Directories NewDirectories st
   = Throw (last_error (FindFiles (files st) (searchString Directories))))
  /\ (entries (FindFiles (files st) (searchString Directories)) <> [] ->
      last_error (FindFiles (files st) (searchString Directories))
      <> ERROR_NO_MORE_FILES ->
      forall NewDirectories' st',
        target_directories FindFiles (S depth) Directories NewDirectories st
        <> Ok NewDirectories' st').
Proof.
  intros Hrecurse. rewrite target_directories_S.
  rewrite write_bind_run, member_run.
  cbn [self st_logged set_self mRecurse set_mCons]. rewrite Hrecurse.
  cbn [negb]. split.
  - intros Hfound. unfold bind at 1, get at 1.
    cbn [files st_logged set_self]. by rewrite Hfound.
  - intros Hfound Hne New' st'. unfold bind at 1, get at 1.
    cbn [files st_logged set_self].
    destruct (entries _) as [|findData found]; [done|].
    unfold bind at 1.
    match goal with
    | |- context [target_entries ?a ?b ?c ?d ?e] =>
        destruct (target_entries a b c d e); try done
    end.
    by apply Z.eqb_neq in Hne as ->.
Qed.

Lemma target_directories_errors_witness :
  target_directories Example.tree 1 {| src := "B"; dst := "out" |} []
    (Example.targeting true)
  = Throw 3.
Proof.
  destruct (target_directories_errors Example.tree 0
              {| src := "B"; dst := "out" |} [] (Example.targeting true))
    as (H & _); [reflexivity|].
  apply H. reflexivity.
Defined.

(** ** Runs with nothing to do, and runs that overwrite *)

Lemma execute_directories_no_extension FindFiles all filesCreated st :
  execute_directories FindFiles all [] filesCreated st = Ok filesCreated st.
Proof. induction all as [|directories all IH]; [done|]. exact IH. Qed.

(** X19.  With no directory or no extension to target, [execute] hands no
    file to [create_file]: it reports 0 files created, changes no file and
    reads nothing from the console. *)
Theorem execute_nothing FindFiles st :
  mDirectories (self st) = [] \/ mExtensions (self st) = [] ->
  execute FindFiles st
  = Ok 0 (st_logged [sgr "0"; sgr "32;1" +:+ "Done. Created "; to_wstring 0;
                     " file(s)" +:+ sgr "0" +:+ NL] st).
Proof.
  intros Hnone. unfold execute. rewrite write_bind_run, !member_run.
  cbn [self st_logged set_self mDirectories mExtensions set_mCons].
  assert (execute_directories FindFiles (mDirectories (self st))
            (mExtensions (self st)) 0 (st_logged [sgr "0"] st)
          = Ok 0 (st_logged [sgr "0"] st)) as Hrun.
  { destruct Hnone as [->| ->]; [done|].
    apply execute_directories_no_extension. }
  rewrite (bind_run _ _ _ _ _ Hrun), write_bind_run.
  by rewrite st_logged_logged.
Qed.

Lemma execute_nothing_witness :
  exists st',
    execute Example.tree {| self := instance_new []; files := ∅ |}
    = Ok 0 st'
    /\ files st' = ∅.
Proof.
  eexists. split.
  - apply (execute_nothing Example.tree
             {| self := instance_new []; files := ∅ |}).
    left. reflexivity.
  - reflexivity.
Defined.

(** With the policy to always overwrite, [create_file] returns true
    whenever it returns, and the policy stays. *)
Lemma create_file_always Directories Fname st created st' :
  mAlwaysOverwriteFiles (self st) = true ->
  create_file Directories Fname st = Ok created st' ->
  created = true /\ mAlwaysOverwriteFiles (self st') = true.
Proof.
  intros Halways Hrun.
  apply create_file_inv in Hrun as (_ & Hpolicy & Hcreated).
  split; [by apply Hcreated|]. apply Hpolicy. by left.
Qed.

Lemma iterate_entries_always Directories found filesCreated st n st' :
  mAlwaysOverwriteFiles (self st) = true ->
  0 <= filesCreated ->
  filesCreated + Z.of_nat (length (List.filter plain found)) < 2 ^ 32 ->
  iterate_entries Directories found filesCreated st = Ok n st' ->
  n = filesCreated + Z.of_nat (length (List.filter plain found))
  /\ mAlwaysOverwriteFiles (self st') = true.
Proof.
  revert filesCreated st.
  induction found as [|findData found IH];
    intros filesCreated st Halways Hpos Hbound Hrun.
  { inversion Hrun; subst. cbn. split; [lia|done]. }
  cbn [iterate_entries List.filter] in Hrun, Hbound |- *.
  unfold plain at 1 in Hbound. unfold plain at 1.
  destruct (has_attribute (dwFileAttributes findData) FILE_ATTRIBUTE_HIDDEN)
    eqn:Hh; cbn [negb andb] in Hrun, Hbound |- *.
  { rewrite ret_bind_run in Hrun. by eapply IH. }
  destruct (has_attribute (dwFileAttributes findData)
                          FILE_ATTRIBUTE_DIRECTORY) eqn:Hd;
    cbn [negb] in Hrun, Hbound |- *.
  { rewrite ret_bind_run in Hrun. by eapply IH. }
  unfold bind at 1 2 in Hrun.
  destruct (create_file Directories (cFileName findData) st)
    as [created st1| | |] eqn:Hcreate; try discriminate.
  apply (create_file_always _ _ _ _ _ Halways) in Hcreate as (-> & Halways1).
  cbn [length] in Hbound |- *.
  rewrite u32_small in Hrun by lia.
  apply IH in Hrun as (-> & Halways'); [|done|lia|lia].
  split; [lia|done].
Qed.

(** X20.  With the policy to always overwrite, the number that [iterate]
    returns is the number of entries found that are neither hidden nor
    directories: each of them counts as a file created, also one whose
    source is empty. *)
Theorem iterate_always FindFiles Directories Extension st n st' :
  mAlwaysOverwriteFiles (self st) = true ->
  Z.of_nat
    (length
       (List.filter plain
          (entries (FindFiles (files st)
                              (targetFilename Directories Extension)))))
  < 2 ^ 32 ->
  iterate FindFiles Directories Extension st = Ok n st' ->
  n = Z.of_nat
        (length
           (List.filter plain
              (entries (FindFiles (files st)
                                  (targetFilename Directories Extension)))))
  /\ mAlwaysOverwriteFiles (self st') = true.
Proof.
  intros Halways Hbound Hrun.
  destruct (iterate_run FindFiles Directories Extension st) as [out Hout].
  rewrite Hout in Hrun. cbv zeta in Hrun.
  destruct (entries _) as [|findData found] eqn:Hfound.
  - destruct (_ =? ERROR_FILE_NOT_FOUND); [|discriminate].
    rewrite write_bind_run in Hrun. by inversion Hrun; subst.
  - unfold bind at 1 in Hrun.
    destruct (iterate_entries Directories (findData :: found) 0
                (st_logged out st)) as [m st1| | |] eqn:Hloop;
      try discriminate.
    destruct (_ =? ERROR_NO_MORE_FILES); [|discriminate].
    rewrite write_bind_run in Hrun. inversion Hrun; subst.
    apply iterate_entries_always in Hloop as (-> & Halways1);
      [|done|lia|lia].
    split; [lia|done].
Qed.

Lemma iterate_always_witness :
  exists st',
    iterate (fun _ _ => {| entries := [Example.H; Example.a_c];
                           last_error := ERROR_NO_MORE_FILES |})
            Example.Directories "c"
            (Example.rerun (U8.lit "N") [] (U8.lit "old") false true [])
    = Ok 1 st'
    /\ mAlwaysOverwriteFiles (self st') = true.
Proof.
  eexists. split; [vm_compute; reflexivity|].
  match goal with
  | |- mAlwaysOverwriteFiles (self ?s) = _ =>
      destruct (iterate_always
                  (fun _ _ => {| entries := [Example.H; Example.a_c];
                                 last_error := ERROR_NO_MORE_FILES |})
                  Example.Directories "c"
                  (Example.rerun (U8.lit "N") [] (U8.lit "old") false true [])
                  1 s) as (_ & Halways);
        [reflexivity|vm_compute; reflexivity|vm_compute; reflexivity
        |exact Halways]
  end.
Defined.
